(** * Credential and session lifecycle of the moltbot server

    A shallow embedding of the authentication core of the server package:

    - [auth/password.py]      : [hash_password], [verify_password]
    - [auth/jwt_handler.py]   : [create_access_token], [create_refresh_token],
                                [create_token_pair], [verify_token]
    - [api/auth_routes.py]    : [login], [refresh_token], [logout]
    - [security/rate_limiter.py] : [RateLimiter]

    Conventions.

    - A Python [str] is represented by the bytes of its UTF-8 encoding
      (a Rocq [string]); [s.encode('utf-8')] is then the identity on the
      representation.
    - [datetime] values are integers: microseconds since the epoch.
      [time.time()] values are rationals: seconds since the epoch.
    - A handler invocation is served at one instant: every clock read made
      while serving one request returns the same [now], which is an argument
      of the handler.  Random draws ([secrets.token_hex], the bcrypt salt)
      are arguments as well.
    - Third-party code (passlib, python-jose, SQLAlchemy) is not part of the
      repository.  It is modelled by the small definitions of the modules
      [Passlib] and [Jose] and by the commit discipline of [Db]; the
      cryptographic primitives themselves (the bcrypt digest, the JWS
      signature) are section variables, so nothing is assumed about them
      beyond being functions. *)

From Stdlib Require Import ZArith QArith Lia Lqa String Ascii Bool.
From Stdlib Require Import DecimalString DecimalZ.
From stdpp Require Import base list strings gmap.

Open Scope string_scope.
Open Scope list_scope.
Open Scope Z_scope.

(* ===================================================================== *)
(** ** Python values shared by the modules                                *)
(* ===================================================================== *)

(** Exceptions that escape the modelled functions. *)
Inductive pyexc : Type :=
  | UnknownHashError      (* passlib.exc.UnknownHashError, a ValueError *)
  | MalformedHashError    (* passlib: ValueError raised by from_string *)
  | PasswordValueError    (* passlib.exc.PasswordValueError *)
  | ValueError            (* builtin, e.g. int('x') *)
  | IntegrityError.       (* sqlalchemy.exc.IntegrityError *)

(** A call either returns or raises. *)
Inductive raises (A : Type) : Type :=
  | Ok (a : A)
  | Raise (e : pyexc).
Arguments Ok {A} a.
Arguments Raise {A} e.

Definition returned {A} (r : raises A) : Prop :=
  match r with Ok _ => True | Raise _ => False end.

(** [str(n)] and [int(s)] for the decimal numerals the server produces.
    [py_int] accepts an optional minus sign followed by decimal digits;
    CPython's [int] also accepts surrounding blanks, a plus sign and
    underscores, which [str] never produces. *)
Definition py_str (n : Z) : string := NilZero.string_of_int (Z.to_int n).

Definition py_int (s : string) : option Z :=
  Z.of_int <$> NilZero.int_of_string s.

(* ===================================================================== *)
(** ** UTF-8 helpers: [b[:72].decode('utf-8', errors='ignore')]           *)
(* ===================================================================== *)

Module Utf8.

Definition code (c : ascii) : N := N_of_ascii c.

(** Length of the sequence announced by a lead byte; [None] for a byte
    that cannot start a sequence. *)
Definition lead_len (c : ascii) : option nat :=
  let n := code c in
  if (n <? 128)%N then Some 1%nat
  else if ((194 <=? n) && (n <=? 223))%N then Some 2%nat
  else if ((224 <=? n) && (n <=? 239))%N then Some 3%nat
  else if ((240 <=? n) && (n <=? 244))%N then Some 4%nat
  else None.

Definition is_cont (c : ascii) : bool :=
  let n := code c in ((128 <=? n) && (n <=? 191))%N.

(** The decoder with the [ignore] error handler, observed through the
    re-encoding of its result: complete sequences are kept, bytes that do
    not belong to a complete sequence are dropped.  [pending] holds the
    bytes of the sequence being read (most recent first) and [need] the
    number of continuation bytes still missing.  The decoder is only run
    on a prefix of a well-formed encoding, where the one defect it can
    meet is a last sequence cut short. *)
Fixpoint decode_ignore (pending : list ascii) (need : nat) (bs : list ascii)
  : list ascii :=
  match bs with
  | [] => []
  | b :: rest =>
      match need with
      | O =>
          match lead_len b with
          | Some 1%nat => b :: decode_ignore [] 0 rest
          | Some (S k) => decode_ignore [b] k rest
          | _ => decode_ignore [] 0 rest
          end
      | S k =>
          if is_cont b then
            match k with
            | O => rev (b :: pending) ++ decode_ignore [] 0 rest
            | S _ => decode_ignore (b :: pending) k rest
            end
          else
            match lead_len b with
            | Some 1%nat => b :: decode_ignore [] 0 rest
            | Some (S k') => decode_ignore [b] k' rest
            | _ => decode_ignore [] 0 rest
            end
      end
  end.

(** [s.encode('utf-8')[:n].decode('utf-8', errors='ignore')] *)
Definition truncate (n : nat) (s : string) : string :=
  string_of_list_ascii
    (decode_ignore [] 0 (take n (list_ascii_of_string s))).

End Utf8.

(** The first 72 bytes of a password, which is what [hash_password] and
    [verify_password] both hand to passlib. *)
Definition truncated (p : string) : string := Utf8.truncate 72 p.

(** [b"\x00" in secret] *)
Fixpoint contains_nul (s : string) : bool :=
  match s with
  | EmptyString => false
  | String c rest => Ascii.eqb c "000"%char || contains_nul rest
  end.

(* ===================================================================== *)
(** ** passlib: [CryptContext(schemes=["bcrypt"], bcrypt__rounds=12)]      *)
(* ===================================================================== *)

(** The part of passlib 1.7 that [pwd_context.hash] and [pwd_context.verify]
    go through.  A bcrypt hash string is ident, two-digit cost, ["$"], a
    22-character salt and a 31-character checksum over the bcrypt base-64
    alphabet.

    - [CryptContext.verify] looks for a configured scheme that identifies
      the string by its prefix and raises [UnknownHashError] ("hash could
      not be identified") when none does ([context.py], [identify_record]);
    - the handler then parses the string ([handlers/bcrypt.py],
      [from_string]) and raises a [ValueError] on a malformed cost, salt or
      checksum;
    - the digest computation refuses a secret with a NUL byte
      ([_norm_digest_args]: "bcrypt does not allow NULL bytes in password",
      a [PasswordValueError]), in [hash] as in [verify];
    - only then are the digests compared.

    passlib also clears the unused padding bits of a parsed salt; salts it
    generates have them clear already, and this normalisation is left
    out. *)
Module Passlib.

Definition bcrypt64_char (c : ascii) : bool :=
  let n := N_of_ascii c in
  ((n =? 46) || (n =? 47)
   || ((65 <=? n) && (n <=? 90))
   || ((97 <=? n) && (n <=? 122))
   || ((48 <=? n) && (n <=? 57)))%N.

Fixpoint all_bcrypt64 (s : string) : bool :=
  match s with
  | EmptyString => true
  | String c rest => bcrypt64_char c && all_bcrypt64 rest
  end.

(** [s[len(p):]] when [s.startswith(p)] *)
Fixpoint strip_prefix (p s : string) : option string :=
  match p, s with
  | EmptyString, _ => Some s
  | String a p', String b s' =>
      if Ascii.eqb a b then strip_prefix p' s' else None
  | String _ _, EmptyString => None
  end.

Definition ident_values : list string :=
  ["$2$"; "$2a$"; "$2x$"; "$2y$"; "$2b$"].

Fixpoint parse_ident_in (idents : list string) (hash : string)
  : option (string * string) :=
  match idents with
  | [] => None
  | i :: more =>
      match strip_prefix i hash with
      | Some tail => Some (i, tail)
      | None => parse_ident_in more hash
      end
  end.

Definition parse_ident := parse_ident_in ident_values.

(** [handler.identify(hash)] *)
Definition identify (hash : string) : bool :=
  match parse_ident hash with Some _ => true | None => false end.

(** [tail.split("$")] up to the first separator *)
Fixpoint split_dollar (s : string) : option (string * string) :=
  match s with
  | EmptyString => None
  | String c rest =>
      if Ascii.eqb c "$"%char then Some (EmptyString, rest)
      else match split_dollar rest with
           | Some (a, b) => Some (String c a, b)
           | None => None
           end
  end.

Definition digit (c : ascii) : option Z :=
  let n := N_of_ascii c in
  if ((48 <=? n) && (n <=? 57))%N then Some (Z.of_N n - 48) else None.

(** The cost field: exactly two digits ([rounds_str == '%02d' % rounds]) *)
Definition parse_rounds (s : string) : option Z :=
  match s with
  | String a (String b EmptyString) =>
      match digit a, digit b with
      | Some x, Some y => Some (10 * x + y)
      | _, _ => None
      end
  | _ => None
  end.

Fixpoint string_take (n : nat) (s : string) : string :=
  match n, s with
  | S k, String c rest => String c (string_take k rest)
  | _, _ => EmptyString
  end.

Fixpoint string_drop (n : nat) (s : string) : string :=
  match n, s with
  | S k, String _ rest => string_drop k rest
  | _, _ => s
  end.

Record bcrypt_hash : Type := BcryptHash {
  ident : string;
  rounds : Z;
  salt : string;
  checksum : string;
}.

Definition salt_ok (s : string) : bool :=
  (String.length s =? 22)%nat && all_bcrypt64 s.

Definition checksum_ok (s : string) : bool :=
  (String.length s =? 31)%nat && all_bcrypt64 s.

(** [bcrypt.from_string(hash)] followed by the check that a digest is
    present; [None] stands for the [ValueError] it raises. *)
Definition from_string (hash : string) : option bcrypt_hash :=
  match parse_ident hash with
  | None => None
  | Some (i, tail) =>
      if String.eqb i "$2x$" then None
      else
        match split_dollar tail with
        | None => None
        | Some (rounds_str, data) =>
            match parse_rounds rounds_str with
            | None => None
            | Some r =>
                let s := string_take 22 data in
                let chk := string_drop 22 data in
                if (4 <=? r) && (r <=? 31) && salt_ok s && checksum_ok chk
                then Some (BcryptHash i r s chk)
                else None
            end
        end
  end.

Section Context.

(** The bcrypt digest: ident, cost, salt, secret to checksum. *)
Variable bcrypt_digest : string -> Z -> string -> string -> string.

(** [pwd_context.hash(secret)], with the salt it draws *)
Definition hash (salt_drawn : string) (secret : string) : raises string :=
  if contains_nul secret then Raise PasswordValueError
  else Ok ("$2b$" +:+ "12" +:+ "$" +:+ salt_drawn
             +:+ bcrypt_digest "$2b$" 12 salt_drawn secret).

(** [pwd_context.verify(secret, hash)] *)
Definition verify (secret : string) (hashed : string) : raises bool :=
  if identify hashed then
    match from_string hashed with
    | None => Raise MalformedHashError
    | Some h =>
        if contains_nul secret then Raise PasswordValueError
        else Ok (String.eqb
                   (bcrypt_digest (ident h) (rounds h) (salt h) secret)
                   (checksum h))
    end
  else Raise UnknownHashError.

End Context.

End Passlib.

(* ===================================================================== *)
(** ** Time                                                               *)
(* ===================================================================== *)

(** [datetime] in microseconds since the epoch. *)
Definition datetime := Z.

Definition timedelta_minutes (m : Z) : Z := m * 60 * 1000000.
Definition timedelta_days (d : Z) : Z := d * 86400 * 1000000.

(** [calendar.timegm(d.utctimetuple())]: whole seconds, as python-jose
    stores [exp] and [iat] and reads its own clock. *)
Definition timegm (d : datetime) : Z := d / 1000000.

(* ===================================================================== *)
(** ** config.py                                                          *)
(* ===================================================================== *)

Record ServerSettings : Type := {
  secret_key : string;
  algorithm : string;
  access_token_expire_minutes : Z;
  refresh_token_expire_days : Z;
}.

Definition default_settings : ServerSettings := {|
  secret_key := "change-this-in-production-use-long-random-string";
  algorithm := "HS256";
  access_token_expire_minutes := 30;
  refresh_token_expire_days := 7;
|}.

(* ===================================================================== *)
(** ** python-jose: [jwt.encode], [jwt.decode]                            *)
(* ===================================================================== *)

(** [class TokenPayload(BaseModel)]; [exp] and [iat] in whole seconds. *)
Record TokenPayload : Type := {
  sub : string;
  exp : Z;
  iat : Z;
  type : string;
  jti : option string;
}.

(** A token string is represented by what its three segments decode to.
    [Garbage] stands for every string that is not a compact JWS over a
    payload of the shape above; python-jose rejects those it can not parse,
    and a payload of another shape carrying a valid signature can only be
    minted with the server's key, which signs nothing but the payloads of
    [create_access_token] and [create_refresh_token]. *)
Inductive token : Type :=
  | JWS (alg : string) (payload : TokenPayload) (signature : string)
  | Garbage (raw : string).

(** The claims a token string carries, whoever signed it. *)
Definition payload_of (t : token) : option TokenPayload :=
  match t with
  | JWS _ payload _ => Some payload
  | Garbage _ => None
  end.

#[global] Instance TokenPayload_eq_dec : EqDecision TokenPayload.
Proof. solve_decision. Defined.

#[global] Instance token_eq_dec : EqDecision token.
Proof. solve_decision. Defined.

Module Jose.

(** [jose.exceptions]: [ExpiredSignatureError] and [JWTClaimsError] are
    subclasses of [JWTError]. *)
Inductive JWTError : Type :=
  | SignatureVerificationFailed
  | ExpiredSignatureError.

Section Keyed.

(** The signature of a payload under an algorithm and a key. *)
Variable jws_sign : string -> string -> TokenPayload -> string.

(** [jwt.encode(claims, key, algorithm=alg)] *)
Definition encode (claims : TokenPayload) (key alg : string) : token :=
  JWS alg claims (jws_sign alg key claims).

(** The signature check of [jws.verify]: the header's algorithm must be
    one of [algorithms] and the signature must be the key's. *)
Definition signature_valid (t : token) (key : string)
    (algorithms : list string) : bool :=
  match t with
  | JWS alg payload signature =>
      bool_decide (alg ∈ algorithms)
      && String.eqb signature (jws_sign alg key payload)
  | Garbage _ => false
  end.

(** [jwt.decode(token, key, algorithms=algorithms)] at clock [now]:
    the signature first, then [exp] against the whole-second clock
    (rejected when [exp < now], no leeway). *)
Definition decode (t : token) (key : string) (algorithms : list string)
    (now : datetime) : TokenPayload + JWTError :=
  match t with
  | JWS alg payload signature =>
      if signature_valid t key algorithms then
        if exp payload <? timegm now then inr ExpiredSignatureError
        else inl payload
      else inr SignatureVerificationFailed
  | Garbage _ => inr SignatureVerificationFailed
  end.

End Keyed.

End Jose.

(* ===================================================================== *)
(** ** database/models.py                                                 *)
(* ===================================================================== *)

Inductive UserRole : Type := USER | ADMIN | DEVELOPER.

(** [class User(Base)]: the columns of the [users] table. *)
Record User : Type := {
  user_id_ : Z;                      (* id *)
  email : string;
  username : string;
  hashed_password : string;
  full_name : option string;
  user_is_active : bool;
  is_verified : bool;
  role : UserRole;
  last_login : option datetime;
  failed_login_attempts : Z;
  locked_until : option datetime;
}.

(** [class Session(Base)]: the columns of the [sessions] table. *)
Record Session : Type := {
  session_id : Z;                    (* id *)
  user_id : Z;
  refresh_token_ : token;            (* refresh_token, unique *)
  expires_at : datetime;
  client_ip : option string;
  user_agent : option string;
  is_active : bool;
  revoked_at : option datetime;
  created_at : datetime;             (* server_default=func.now() *)
}.

(** The two tables, rows in insertion order. *)
Record Database : Type := {
  users : list User;
  sessions : list Session;
}.

(** What a route handler hands back to FastAPI. *)
Inductive response (A : Type) : Type :=
  | Return (a : A)
  | HTTPException (status_code : Z) (detail : string)
  | Uncaught (e : pyexc).            (* propagates, answered with 500 *)
Arguments Return {A} a.
Arguments HTTPException {A} status_code detail.
Arguments Uncaught {A} e.

(** [class TokenPair(BaseModel)] *)
Record TokenPair : Type := {
  access_token : token;
  refresh_token_of : token;          (* refresh_token *)
  token_type : string;
  expires_in : Z;
}.

Record MessageResponse : Type := { message : string }.

(** [class LoginRequest(BaseModel)] *)
Record LoginRequest : Type := {
  login_username : string;           (* username: e-mail or user name *)
  login_password : string;           (* password *)
}.

(** What [login] reads of the Starlette request. *)
Record HttpRequest : Type := {
  client_host : option string;       (* client.host if client else None *)
  header_user_agent : option string; (* headers.get("User-Agent") *)
}.

(** [subject: str | int] *)
Inductive subject : Type :=
  | SubjectInt (n : Z)
  | SubjectStr (s : string).

Definition str_of_subject (s : subject) : string :=
  match s with
  | SubjectInt n => py_str n
  | SubjectStr s => s
  end.

(** SQLAlchemy's unit of work as the handlers use it: attribute writes and
    [db.add] stay pending until [db.commit()], which applies all of them or,
    when the insert breaks the unique index on [sessions.refresh_token],
    raises [IntegrityError] and leaves the tables as they were.  Foreign keys
    are not enforced (the default engine is SQLite). *)
Module Db.

Definition next_session_id (db : Database) : Z :=
  1 + foldr Z.max 0 (session_id <$> sessions db).

Definition token_stored (t : token) (db : Database) : bool :=
  bool_decide (t ∈ refresh_token_ <$> sessions db).

(** [db.add(row); db.commit()] for a session row built from its new id. *)
Definition add_session (db : Database) (row : Z -> Session)
  : raises Database :=
  let s := row (next_session_id db) in
  if token_stored (refresh_token_ s) db then Raise IntegrityError
  else Ok {| users := users db; sessions := sessions db ++ [s] |}.

Definition set_users (db : Database) (us : list User) : Database :=
  {| users := us; sessions := sessions db |}.

Definition set_sessions (db : Database) (ss : list Session) : Database :=
  {| users := users db; sessions := ss |}.

End Db.

(* ===================================================================== *)
(** ** The server                                                         *)
(* ===================================================================== *)

(** What the process is started with: the two cryptographic primitives of
    the libraries and the settings singleton of [get_server_settings()]. *)
Class Environment : Type := {
  bcrypt_digest : string -> Z -> string -> string -> string;
  jws_sign : string -> string -> TokenPayload -> string;
  settings : ServerSettings;
}.

Section Server.

Context {env : Environment}.

(** *** auth/password.py *)

Definition hash_password (salt_drawn : string) (password : string)
  : raises string :=
  let password_bytes := Utf8.truncate 72 password in
  Passlib.hash bcrypt_digest salt_drawn password_bytes.

Definition verify_password (plain_password hashed : string) : raises bool :=
  let password_bytes := Utf8.truncate 72 plain_password in
  Passlib.verify bcrypt_digest password_bytes hashed.

(** *** auth/jwt_handler.py *)

(** [if expires_delta: ... else: ...]; a zero [timedelta] is falsy.
    The [additional_claims] argument, which no caller passes, is left
    out. *)
Definition create_access_token (now : datetime) (subj : subject)
    (expires_delta : option Z) : token :=
  let expire :=
    match expires_delta with
    | Some d =>
        if bool_decide (d = 0)
        then now + timedelta_minutes (access_token_expire_minutes settings)
        else now + d
    | None =>
        now + timedelta_minutes (access_token_expire_minutes settings)
    end in
  let to_encode := {|
    sub := str_of_subject subj;
    exp := timegm expire;
    iat := timegm now;
    type := "access";
    jti := None;
  |} in
  Jose.encode jws_sign to_encode (secret_key settings) (algorithm settings).

Definition create_refresh_token (now : datetime) (jti_drawn : string)
    (subj : subject) (expires_delta : option Z) : token :=
  let expire :=
    match expires_delta with
    | Some d =>
        if bool_decide (d = 0)
        then now + timedelta_days (refresh_token_expire_days settings)
        else now + d
    | None => now + timedelta_days (refresh_token_expire_days settings)
    end in
  let to_encode := {|
    sub := str_of_subject subj;
    exp := timegm expire;
    iat := timegm now;
    type := "refresh";
    jti := Some jti_drawn;
  |} in
  Jose.encode jws_sign to_encode (secret_key settings) (algorithm settings).

Definition create_token_pair (now : datetime) (jti_drawn : string)
    (subj : subject) : TokenPair :=
  let access := create_access_token now subj None in
  let refresh := create_refresh_token now jti_drawn subj None in
  {| access_token := access;
     refresh_token_of := refresh;
     token_type := "bearer";
     expires_in := access_token_expire_minutes settings * 60 |}.

(** [verify_token(token, token_type)]: [None] on any [JWTError] and on a
    type mismatch. *)
Definition verify_token (t : token) (token_type : string) (now : datetime)
  : option TokenPayload :=
  match Jose.decode jws_sign t (secret_key settings) [algorithm settings] now
  with
  | inl payload =>
      if bool_decide (type payload <> token_type) then None
      else Some payload
  | inr _ => None
  end.

(** The three grounds on which a token is refused: its [type] claim is
    not the expected one, its signature is not the server's, or its [exp]
    lies before the (whole-second) clock. *)
Inductive refusal (t : token) (expected : string) (now : datetime) : Prop :=
  | WrongType p :
      payload_of t = Some p -> type p <> expected -> refusal t expected now
  | BadSignature :
      Jose.signature_valid jws_sign t (secret_key settings)
        [algorithm settings] = false ->
      refusal t expected now
  | Expired p :
      payload_of t = Some p -> exp p < timegm now -> refusal t expected now.

(** *** api/auth_routes.py *)

Definition detail_invalid_credentials : string :=
  "아이디 또는 비밀번호가 올바르지 않습니다".
Definition detail_account_locked : string :=
  "계정이 일시적으로 잠겼습니다. 나중에 다시 시도하세요.".
Definition detail_invalid_refresh : string :=
  "유효하지 않은 리프레시 토큰입니다".
Definition detail_session_expired : string :=
  "세션이 만료되었습니다. 다시 로그인하세요.".
Definition message_logged_out : string := "로그아웃되었습니다".

(** The four failures of the specification, as the handlers raise them. *)
Definition InvalidCredentials {A} : response A :=
  HTTPException 401 detail_invalid_credentials.
Definition AccountLocked {A} : response A :=
  HTTPException 403 detail_account_locked.
Definition InvalidToken {A} : response A :=
  HTTPException 401 detail_invalid_refresh.
Definition SessionExpired {A} : response A :=
  HTTPException 401 detail_session_expired.

(** [(User.email == name) | (User.username == name)], [.first()] *)
Definition find_user (name : string) (db : Database) : option (nat * User) :=
  list_find (fun u => email u = name \/ username u = name) (users db).

(** [user.locked_until and user.locked_until > datetime.utcnow()] *)
Definition is_locked (u : User) (now : datetime) : bool :=
  match locked_until u with
  | Some t => now <? t
  | None => false
  end.

(** Lines 137-142: the failed attempt is counted, and from the fifth on
    the account is locked for thirty minutes. *)
Definition record_failure (u : User) (now : datetime) : User :=
  let attempts := failed_login_attempts u + 1 in
  {| user_id_ := user_id_ u; email := email u; username := username u;
     hashed_password := hashed_password u; full_name := full_name u;
     user_is_active := user_is_active u; is_verified := is_verified u;
     role := role u; last_login := last_login u;
     failed_login_attempts := attempts;
     locked_until :=
       if 5 <=? attempts then Some (now + timedelta_minutes 30)
       else locked_until u |}.

(** Lines 152-154. *)
Definition record_success (u : User) (now : datetime) : User :=
  {| user_id_ := user_id_ u; email := email u; username := username u;
     hashed_password := hashed_password u; full_name := full_name u;
     user_is_active := user_is_active u; is_verified := is_verified u;
     role := role u; last_login := Some now;
     failed_login_attempts := 0;
     locked_until := None |}.

(** [session.is_active = False; session.revoked_at = datetime.utcnow()] *)
Definition revoke (s : Session) (now : datetime) : Session :=
  {| session_id := session_id s; user_id := user_id s;
     refresh_token_ := refresh_token_ s; expires_at := expires_at s;
     client_ip := client_ip s; user_agent := user_agent s;
     is_active := false; revoked_at := Some now;
     created_at := created_at s |}.

(** [Session(user_id=..., refresh_token=..., expires_at=datetime.utcnow(),
    client_ip=..., user_agent=...)], the other columns at their
    defaults. *)
Definition new_session (now : datetime) (uid : Z) (t : token)
    (ip ua : option string) (id : Z) : Session :=
  {| session_id := id; user_id := uid; refresh_token_ := t;
     expires_at := now;
     client_ip := ip; user_agent := ua;
     is_active := true; revoked_at := None;
     created_at := now |}.

Definition login (now : datetime) (jti_drawn : string)
    (request : LoginRequest) (http_request : HttpRequest) (db : Database)
  : response TokenPair * Database :=
  match find_user (login_username request) db with
  | None => (InvalidCredentials, db)
  | Some (i, user) =>
      if is_locked user now then (AccountLocked, db)
      else
        match verify_password (login_password request) (hashed_password user)
        with
        | Raise e => (Uncaught e, db)
        | Ok false =>
            let db' := Db.set_users db (<[i := record_failure user now]> (users db)) in
            (InvalidCredentials, db')
        | Ok true =>
            let db' := Db.set_users db (<[i := record_success user now]> (users db)) in
            let token_pair :=
              create_token_pair now jti_drawn (SubjectInt (user_id_ user)) in
            let row :=
              new_session now (user_id_ user) (refresh_token_of token_pair)
                (client_host http_request) (header_user_agent http_request) in
            match Db.add_session db' row with
            | Ok db'' => (Return token_pair, db'')
            | Raise e => (Uncaught e, db)
            end
        end
  end.

Definition refresh_token (now : datetime) (jti_drawn : string)
    (request : token) (db : Database) : response TokenPair * Database :=
  match verify_token request "refresh" now with
  | None => (InvalidToken, db)
  | Some payload =>
      match list_find (fun s => refresh_token_ s = request /\ is_active s = true)
              (sessions db) with
      | None => (SessionExpired, db)
      | Some (i, session) =>
          let db' := Db.set_sessions db (<[i := revoke session now]> (sessions db)) in
          let token_pair :=
            create_token_pair now jti_drawn (SubjectStr (sub payload)) in
          match py_int (sub payload) with
          | None => (Uncaught ValueError, db)
          | Some uid =>
              let row :=
                new_session now uid (refresh_token_of token_pair)
                  (client_ip session) (user_agent session) in
              match Db.add_session db' row with
              | Ok db'' => (Return token_pair, db'')
              | Raise e => (Uncaught e, db)
              end
          end
      end
  end.

Definition logout (now : datetime) (request : token) (db : Database)
  : response MessageResponse * Database :=
  match list_find (fun s => refresh_token_ s = request) (sessions db) with
  | Some (i, session) =>
      let db' := Db.set_sessions db (<[i := revoke session now]> (sessions db)) in
      (Return {| message := message_logged_out |}, db')
  | None => (Return {| message := message_logged_out |}, db)
  end.

(** *** The four endpoints as a transition system *)

(** One served request.  [EvAccounts] stands for the endpoints that write
    the [users] table only (registration, profile and password change). *)
Inductive event : Type :=
  | EvLogin (now : datetime) (jti_drawn : string)
      (request : LoginRequest) (http_request : HttpRequest)
  | EvRefresh (now : datetime) (jti_drawn : string) (request : token)
  | EvLogout (now : datetime) (request : token)
  | EvAccounts (rows : list User).

Definition step (db : Database) (e : event) : Database :=
  match e with
  | EvLogin now j request http_request =>
      (login now j request http_request db).2
  | EvRefresh now j request => (refresh_token now j request db).2
  | EvLogout now request => (logout now request db).2
  | EvAccounts rows => Db.set_users db rows
  end.

Definition run (db : Database) (es : list event) : Database :=
  foldl step db es.

(** A login attempt on a given account name. *)
Record attempt : Type := {
  at_time : datetime;
  at_jti : string;
  at_password : string;
  at_http : HttpRequest;
}.

Definition attempt_event (name : string) (a : attempt) : event :=
  EvLogin (at_time a) (at_jti a)
    {| login_username := name; login_password := at_password a |}
    (at_http a).

(** The states the server can be in: it starts with an empty [sessions]
    table and serves requests one after the other. *)
Inductive reachable : Database -> Prop :=
  | reachable_start us : reachable {| users := us; sessions := [] |}
  | reachable_step db e : reachable db -> reachable (step db e).

(** What one request does to the table: it revokes at most one row in
    place, and appends at most one row, active and under a token that no
    row carried. *)
Inductive evolves (l : list Session) : list Session -> Prop :=
  | evolves_by (l1 : list Session) (added : list Session) :
      (l1 = l
       \/ exists i s now, l !! i = Some s /\ l1 = <[i := revoke s now]> l) ->
      (added = []
       \/ exists s, added = [s]
                    /\ (refresh_token_ s ∉ (refresh_token_ <$> l))
                    /\ is_active s = true) ->
      evolves l (l1 ++ added).

(** The tokens of the rows, in row order. *)
Definition tokens (l : list Session) : list token := refresh_token_ <$> l.

(** A token is spent when the table knows it and no row carrying it is
    active. *)
Definition spent (t : token) (l : list Session) : Prop :=
  t ∈ tokens l
  /\ forall s, s ∈ l -> refresh_token_ s = t -> is_active s = false.

End Server.

(* ===================================================================== *)
(** ** security/rate_limiter.py                                           *)
(* ===================================================================== *)

(** [int(x)] of a float: truncation towards zero. *)
Definition int_of_float (x : Q) : Z := Z.quot (Qnum x) (Zpos (Qden x)).

#[global] Instance Qlt_decision (x y : Q) : Decision (x < y)%Q :=
  match Qlt_le_dec x y with
  | left H => left H
  | right H => right (Qle_not_lt _ _ H)
  end.

Module RateLimiter.

(** [class RateLimiter]; [_storage] is a [defaultdict(list)]. *)
Record t : Type := {
  requests : Z;
  window : Z;
  _storage : gmap string (list Q);
}.

(** [RateLimiter(requests=100, window=60)] *)
Definition init (requests window : Z) : t :=
  {| requests := requests; window := window; _storage := ∅ |}.

(** [self._storage[key]] *)
Definition history (self : t) (key : string) : list Q :=
  default [] (_storage self !! key).

Definition store (self : t) (key : string) (l : list Q) : t :=
  {| requests := requests self; window := window self;
     _storage := <[key := l]> (_storage self) |}.

(** The timestamps of [key] that are less than [window] seconds old. *)
Definition recent (now : Q) (key : string) (self : t) : list Q :=
  filter (fun x => (now - x < inject_Z (window self))%Q) (history self key).

Definition _clean_old_requests (current_time : Q) (key : string) (self : t)
  : t :=
  store self key
    (filter (fun x => (current_time - x < inject_Z (window self))%Q)
       (history self key)).

(** The [meta] dictionary. *)
Record meta : Type := {
  limit : Z;
  remaining : Z;
  reset_at : Z;                    (* "reset" *)
}.

Definition is_allowed (now : Q) (key : string) (self : t)
  : (bool * meta) * t :=
  let self := _clean_old_requests now key self in
  let current_count := Z.of_nat (length (history self key)) in
  let remaining := Z.max 0 (requests self - current_count) in
  let m := {| limit := requests self;
              remaining := remaining;
              reset_at := int_of_float now + window self |} in
  if requests self <=? current_count then ((false, m), self)
  else
    let self := store self key (history self key ++ [now]) in
    ((true, {| limit := limit m; remaining := remaining - 1;
               reset_at := reset_at m |}), self).

Definition reset (key : string) (self : t) : t := store self key [].

(** Successive calls for one key at the given clock readings: the
    answers, and the limiter afterwards. *)
Fixpoint calls (times : list Q) (key : string) (self : t)
  : list (bool * meta) * t :=
  match times with
  | [] => ([], self)
  | now :: later =>
      let '(r, self) := is_allowed now key self in
      let '(rs, self) := calls later key self in
      (r :: rs, self)
  end.

End RateLimiter.

(* ===================================================================== *)
(** ** A small instance to run the definitions on                         *)
(* ===================================================================== *)

Module Sample.

Fixpoint keep_bcrypt64 (s : string) : string :=
  match s with
  | EmptyString => EmptyString
  | String c rest =>
      if Passlib.bcrypt64_char c then String c (keep_bcrypt64 rest)
      else keep_bcrypt64 rest
  end.

(** A stand-in digest: 31 characters read off the secret and the salt. *)
Definition digest (ident : string) (rounds : Z) (salt secret : string)
  : string :=
  Passlib.string_take 31
    (keep_bcrypt64 secret +:+ keep_bcrypt64 salt
       +:+ "1234567890123456789012345678901").

(** A stand-in signature: the key and the signed fields side by side. *)
Definition sign (alg key : string) (p : TokenPayload) : string :=
  alg +:+ "|" +:+ key +:+ "|" +:+ sub p +:+ "|" +:+ py_str (exp p) +:+ "|"
      +:+ py_str (iat p) +:+ "|" +:+ type p +:+ "|" +:+ default "" (jti p).

Definition env : Environment := {|
  bcrypt_digest := digest;
  jws_sign := sign;
  settings := default_settings;
|}.

Definition salt1 : string := "abcdefghijklmnopqrstuv".
Definition salt2 : string := "ABCDEFGHIJKLMNOPQRSTUu".

Definition alice_password : string := "Correct-Horse-9".

Definition alice_hash : string :=
  match hash_password (env := env) salt1 alice_password with
  | Ok h => h
  | Raise _ => ""
  end.

Definition alice : User := {|
  user_id_ := 1; email := "alice@example.com"; username := "alice";
  hashed_password := alice_hash; full_name := None;
  user_is_active := true; is_verified := false; role := USER;
  last_login := None; failed_login_attempts := 0; locked_until := None;
|}.

Definition db0 : Database := {| users := [alice]; sessions := [] |}.

Definition good : LoginRequest :=
  {| login_username := "alice"; login_password := alice_password |}.
Definition bad : LoginRequest :=
  {| login_username := "alice"; login_password := "guess" |}.
Definition nobody : LoginRequest :=
  {| login_username := "mallory"; login_password := "guess" |}.

Definition browser : HttpRequest :=
  {| client_host := Some "10.0.0.7"; header_user_agent := Some "curl" |}.

(** One second, in the unit of [datetime]. *)
Definition second : Z := 1000000.
Definition minute : Z := 60 * second.
Definition day : Z := 86400 * second.

(** A password of 73 bytes: one letter and 24 three-byte syllables. *)
Definition long_password : string :=
  "a" +:+ "한한한한한한한한한한한한" +:+ "한한한한한한한한한한한한".

(** A password with a NUL character in it, which JSON can carry. *)
Definition nul_password : string := String "000"%char "Abcdef1!".

(** Five wrong guesses, one per second. *)
Definition guess (k : Z) : attempt :=
  {| at_time := k * second; at_jti := "j"; at_password := "guess";
     at_http := browser |}.
Definition four_guesses : list attempt := [guess 1; guess 2; guess 3; guess 4].

(** Alice's account after five failures, the fifth at second 5. *)
Definition alice_locked : User := {|
  user_id_ := 1; email := "alice@example.com"; username := "alice";
  hashed_password := alice_hash; full_name := None;
  user_is_active := true; is_verified := false; role := USER;
  last_login := None; failed_login_attempts := 5;
  locked_until := Some (5 * second + timedelta_minutes 30);
|}.

Definition db_locked : Database :=
  {| users := [alice_locked]; sessions := [] |}.

(** An access token for Alice issued at second 0, and the same claims
    under a signature that is not the server's. *)
Definition access0 : token :=
  create_access_token (env := env) 0 (SubjectInt 1) None.

Definition forged : token :=
  JWS "HS256" {| sub := "1"; exp := 1800; iat := 0;
                 type := "access"; jti := None |} "forged".

(** Alice logs in at second 0 and receives the refresh token [t1]. *)
Definition t1 : token :=
  create_refresh_token (env := env) 0 "j1" (SubjectInt 1) None.

Definition db1 : Database :=
  (login (env := env) 0 "j1" good browser db0).2.

(** She refreshes at second 10. *)
Definition db2 : Database :=
  (refresh_token (env := env) (10 * second) "j2" t1 db1).2.

(** Or she logs out at second 5. *)
Definition db_out : Database :=
  (logout (5 * second) t1 db1).2.

End Sample.

(* ===================================================================== *)
(** ** The characters of a Python string                                  *)
(* ===================================================================== *)

(** [len], indexing, iteration and the character tests of [str] work on
    characters, not on bytes.  A character is represented by the bytes of
    its encoding: in well-formed UTF-8 it starts at a byte that is not a
    continuation byte and runs up to the next such byte. *)
Module PyStr.

(** The continuation bytes at the head of [s], and the characters after
    them. *)
Fixpoint scan (s : string) : string * list string :=
  match s with
  | EmptyString => (EmptyString, [])
  | String b rest =>
      let '(conts, cs) := scan rest in
      if Utf8.is_cont b then (String b conts, cs)
      else (EmptyString, String b conts :: cs)
  end.

(** [list(s)] *)
Definition chars (s : string) : list string :=
  let '(conts, cs) := scan s in
  match conts with
  | EmptyString => cs
  | _ => conts :: cs
  end.

(** [len(s)] *)
Definition len (s : string) : Z := Z.of_nat (length (chars s)).

(** The code of a character of the ASCII range. *)
Definition ascii_code (c : string) : option N :=
  match c with
  | String b EmptyString =>
      if (N_of_ascii b <? 128)%N then Some (N_of_ascii b) else None
  | _ => None
  end.

Definition of_codes (l : list N) : string :=
  string_of_list_ascii (ascii_of_N <$> l).

(** The characters for which [str.isspace] holds: U+0009..U+000D,
    U+001C..U+0020, U+0085, U+00A0, U+1680, U+2000..U+200A, U+2028, U+2029,
    U+202F, U+205F and U+3000, by their encodings. *)
Definition whitespace : list string :=
  of_codes <$>
    [[9]; [10]; [11]; [12]; [13]; [28]; [29]; [30]; [31]; [32];
     [194; 133]; [194; 160]; [225; 154; 128];
     [226; 128; 128]; [226; 128; 129]; [226; 128; 130]; [226; 128; 131];
     [226; 128; 132]; [226; 128; 133]; [226; 128; 134]; [226; 128; 135];
     [226; 128; 136]; [226; 128; 137]; [226; 128; 138];
     [226; 128; 168]; [226; 128; 169]; [226; 128; 175]; [226; 129; 159];
     [227; 128; 128]]%N.

Definition isspace (c : string) : bool := bool_decide (c ∈ whitespace).

Fixpoint lstrip_chars (cs : list string) : list string :=
  match cs with
  | c :: rest => if isspace c then lstrip_chars rest else cs
  | [] => []
  end.

Fixpoint concat (cs : list string) : string :=
  match cs with
  | [] => EmptyString
  | c :: rest => c +:+ concat rest
  end.

(** [s.strip()] *)
Definition strip (s : string) : string :=
  concat (rev (lstrip_chars (rev (lstrip_chars (chars s))))).

(** [s.split(sep)[0]] for a one-byte separator *)
Fixpoint before (sep : ascii) (s : string) : string :=
  match s with
  | EmptyString => EmptyString
  | String b rest =>
      if Ascii.eqb b sep then EmptyString else String b (before sep rest)
  end.

End PyStr.

(** What the Unicode character database says about the characters beyond
    ASCII; on ASCII the three tests are the usual ranges. *)
Class UnicodeData : Type := {
  isupper_beyond_ascii : string -> bool;
  islower_beyond_ascii : string -> bool;
  isdigit_beyond_ascii : string -> bool;
}.

Section CharacterTests.

Context {ucd : UnicodeData}.

(** [c.isupper()] for a character [c] *)
Definition py_isupper (c : string) : bool :=
  match PyStr.ascii_code c with
  | Some n => ((65 <=? n) && (n <=? 90))%N
  | None => isupper_beyond_ascii c
  end.

(** [c.islower()] *)
Definition py_islower (c : string) : bool :=
  match PyStr.ascii_code c with
  | Some n => ((97 <=? n) && (n <=? 122))%N
  | None => islower_beyond_ascii c
  end.

(** [c.isdigit()] *)
Definition py_isdigit (c : string) : bool :=
  match PyStr.ascii_code c with
  | Some n => ((48 <=? n) && (n <=? 57))%N
  | None => isdigit_beyond_ascii c
  end.

(** *** auth/password.py, [check_password_strength] *)

Definition strength_too_short : string :=
  "비밀번호는 최소 8자 이상이어야 합니다".
Definition strength_no_upper : string := "대문자를 최소 1개 포함해야 합니다".
Definition strength_no_lower : string := "소문자를 최소 1개 포함해야 합니다".
Definition strength_no_digit : string := "숫자를 최소 1개 포함해야 합니다".
Definition strength_no_symbol : string := "특수문자를 최소 1개 포함해야 합니다".

Definition symbols : string := "!@#$%^&*()_+-=[]{}|;:,.<>?".

(** [c in "!@#$%^&*()_+-=[]{}|;:,.<>?"] for a character [c] *)
Definition is_symbol (c : string) : bool :=
  bool_decide (c ∈ PyStr.chars symbols).

Definition check_password_strength (password : string) : bool * list string :=
  let cs := PyStr.chars password in
  let errors := [] in
  let errors :=
    if PyStr.len password <? 8 then errors ++ [strength_too_short]
    else errors in
  let errors :=
    if negb (existsb py_isupper cs) then errors ++ [strength_no_upper]
    else errors in
  let errors :=
    if negb (existsb py_islower cs) then errors ++ [strength_no_lower]
    else errors in
  let errors :=
    if negb (existsb py_isdigit cs) then errors ++ [strength_no_digit]
    else errors in
  let errors :=
    if negb (existsb is_symbol cs) then errors ++ [strength_no_symbol]
    else errors in
  (bool_decide (length errors = 0%nat), errors).

(** *** security/validators.py, [validate_username] *)

Definition username_empty : string := "사용자명을 입력하세요".
Definition username_too_short : string :=
  "사용자명은 최소 3자 이상이어야 합니다".
Definition username_too_long : string := "사용자명은 50자 이하여야 합니다".
Definition username_bad_chars : string :=
  "사용자명은 영문, 숫자, 언더스코어만 사용 가능합니다".
Definition username_leading_digit : string :=
  "사용자명은 숫자로 시작할 수 없습니다".

(** The class [[a-zA-Z0-9_]] *)
Definition word_byte (b : ascii) : bool :=
  let n := N_of_ascii b in
  (((97 <=? n) && (n <=? 122))
   || ((65 <=? n) && (n <=? 90))
   || ((48 <=? n) && (n <=? 57))
   || (n =? 95))%N.

(** [re.match(r'^[a-zA-Z0-9_]+$', s)]: one or more characters of the class
    up to the end of the string, where [$] also matches just before a
    newline that ends the string. *)
Fixpoint match_word_pattern (s : string) : bool :=
  match s with
  | EmptyString => false
  | String b rest =>
      word_byte b
      && match rest with
         | EmptyString => true
         | String c EmptyString =>
             Ascii.eqb c "010"%char || match_word_pattern rest
         | _ => match_word_pattern rest
         end
  end.

Definition validate_username (username : string) : bool * option string :=
  if String.eqb username "" then (false, Some username_empty)
  else if PyStr.len username <? 3 then (false, Some username_too_short)
  else if 50 <? PyStr.len username then (false, Some username_too_long)
  else if negb (match_word_pattern username) then (false, Some username_bad_chars)
  else if match PyStr.chars username with
          | c :: _ => py_isdigit c
          | [] => false
          end
       then (false, Some username_leading_digit)
  else (true, None).

End CharacterTests.

(* ===================================================================== *)
(** ** The rest of the authentication endpoints                           *)
(* ===================================================================== *)

(** An answer that may carry response headers: the value handed on, an
    [HTTPException(status_code, detail, headers)], or an exception that
    propagates. *)
Inductive reply (A : Type) : Type :=
  | Pass (a : A)
  | Deny (status_code : Z) (detail : string) (headers : list (string * string))
  | Escapes (e : pyexc).
Arguments Pass {A} a.
Arguments Deny {A} status_code detail headers.
Arguments Escapes {A} e.

(** [class RegisterRequest(BaseModel)] *)
Record RegisterRequest : Type := {
  reg_email : string;                (* email *)
  reg_username : string;             (* username *)
  reg_password : string;             (* password *)
  reg_full_name : option string;     (* full_name *)
}.

(** [class ChangePasswordRequest(BaseModel)] *)
Record ChangePasswordRequest : Type := {
  current_password : string;
  new_password : string;
}.

(** What [rate_limit] reads of the Starlette request. *)
Record PeerRequest : Type := {
  peer_host : option string;         (* client.host if client else None *)
  forwarded_for : option string;     (* headers.get("X-Forwarded-For") *)
}.

Definition next_user_id (db : Database) : Z :=
  1 + foldr Z.max 0 (user_id_ <$> users db).

(** [current_user.hashed_password = h] *)
Definition set_hashed_password (u : User) (h : string) : User :=
  {| user_id_ := user_id_ u; email := email u; username := username u;
     hashed_password := h; full_name := full_name u;
     user_is_active := user_is_active u; is_verified := is_verified u;
     role := role u; last_login := last_login u;
     failed_login_attempts := failed_login_attempts u;
     locked_until := locked_until u |}.

(** [User(email=..., username=..., hashed_password=..., full_name=...)],
    the other columns at their defaults. *)
Definition new_user (id : Z) (request : RegisterRequest) (h : string) : User :=
  {| user_id_ := id; email := reg_email request;
     username := reg_username request;
     hashed_password := h; full_name := reg_full_name request;
     user_is_active := true; is_verified := false; role := USER;
     last_login := None; failed_login_attempts := 0; locked_until := None |}.

(** *** auth/jwt_handler.py, [get_current_user] *)

Module JwtHandler.
Section WithEnvironment.

Context {env : Environment}.

Definition get_current_user (t : token) (now : datetime) : option string :=
  match verify_token t "access" now with
  | None => None
  | Some payload => Some (sub payload)
  end.

End WithEnvironment.
End JwtHandler.

(** *** auth/dependencies.py *)

Module Dependencies.
Section WithEnvironment.

Context {env : Environment}.

Definition detail_bad_token : string := "유효하지 않은 토큰입니다".
Definition detail_no_user : string := "사용자를 찾을 수 없습니다".
Definition detail_inactive : string := "비활성화된 계정입니다".
Definition detail_locked : string := "계정이 일시적으로 잠겼습니다".
Definition detail_admin : string := "관리자 권한이 필요합니다".
Definition detail_unverified : string := "이메일 인증이 필요합니다".

Definition www_authenticate : list (string * string) :=
  [("WWW-Authenticate", "Bearer")].

(** The user comes with the position of its row, which stands for the
    identity of the ORM object the endpoints go on to modify. *)
Definition get_current_user (now : datetime) (credentials : token)
    (db : Database) : reply (nat * User) :=
  match verify_token credentials "access" now with
  | None => Deny 401 detail_bad_token www_authenticate
  | Some payload =>
      match py_int (sub payload) with
      | None => Escapes ValueError
      | Some uid =>
          match list_find (fun u => user_id_ u = uid) (users db) with
          | None => Deny 401 detail_no_user www_authenticate
          | Some row => Pass row
          end
      end
  end.

Definition get_current_active_user (now : datetime) (credentials : token)
    (db : Database) : reply (nat * User) :=
  match get_current_user now credentials db with
  | Pass (i, current_user) =>
      if negb (user_is_active current_user) then Deny 403 detail_inactive []
      else if is_locked current_user now then Deny 403 detail_locked []
      else Pass (i, current_user)
  | refused => refused
  end.

Definition require_admin (now : datetime) (credentials : token)
    (db : Database) : reply (nat * User) :=
  match get_current_active_user now credentials db with
  | Pass (i, current_user) =>
      match role current_user with
      | ADMIN => Pass (i, current_user)
      | _ => Deny 403 detail_admin []
      end
  | refused => refused
  end.

Definition require_verified (now : datetime) (credentials : token)
    (db : Database) : reply (nat * User) :=
  match get_current_active_user now credentials db with
  | Pass (i, current_user) =>
      if negb (is_verified current_user) then Deny 403 detail_unverified []
      else Pass (i, current_user)
  | refused => refused
  end.

End WithEnvironment.
End Dependencies.

Section Endpoints.

Context {env : Environment} {ucd : UnicodeData}.

(** *** api/auth_routes.py, [register] *)

Definition detail_email_taken : string := "이미 사용 중인 이메일입니다".
Definition detail_username_taken : string := "이미 사용 중인 사용자명입니다".
Definition message_registered : string := "회원가입이 완료되었습니다".

(** The two uniqueness checks, the two validations, then the insert.  When
    a validation fails its message is there ([error], [errors[0]]). *)
Definition register (salt_drawn : string) (request : RegisterRequest)
    (db : Database) : response MessageResponse * Database :=
  match list_find (fun u => email u = reg_email request) (users db) with
  | Some _ => (HTTPException 400 detail_email_taken, db)
  | None =>
      match list_find (fun u => username u = reg_username request) (users db)
      with
      | Some _ => (HTTPException 400 detail_username_taken, db)
      | None =>
          let '(valid, error) := validate_username (reg_username request) in
          if negb valid then (HTTPException 400 (default "" error), db)
          else
            let '(strong, errors) :=
              check_password_strength (reg_password request) in
            if negb strong then
              (HTTPException 400 (default "" (head errors)), db)
            else
              match hash_password salt_drawn (reg_password request) with
              | Raise e => (Uncaught e, db)
              | Ok h =>
                  let user := new_user (next_user_id db) request h in
                  (Return {| message := message_registered |},
                   Db.set_users db (users db ++ [user]))
              end
      end
  end.

(** *** api/user_routes.py, [change_password] and [delete_my_account] *)

Definition detail_wrong_current : string := "현재 비밀번호가 올바르지 않습니다".
Definition message_password_changed : string := "비밀번호가 변경되었습니다".
Definition message_account_deleted : string := "계정이 삭제되었습니다".

Definition change_password (now : datetime) (salt_drawn : string)
    (credentials : token) (request : ChangePasswordRequest) (db : Database)
  : reply MessageResponse * Database :=
  match Dependencies.get_current_active_user now credentials db with
  | Pass (i, current_user) =>
      match verify_password (current_password request)
              (hashed_password current_user) with
      | Raise e => (Escapes e, db)
      | Ok false => (Deny 400 detail_wrong_current [], db)
      | Ok true =>
          let '(strong, errors) :=
            check_password_strength (new_password request) in
          if negb strong then (Deny 400 (default "" (head errors)) [], db)
          else
            match hash_password salt_drawn (new_password request) with
            | Raise e => (Escapes e, db)
            | Ok h =>
                (Pass {| message := message_password_changed |},
                 Db.set_users db
                   (<[i := set_hashed_password current_user h]> (users db)))
            end
      end
  | Deny status_code detail headers => (Deny status_code detail headers, db)
  | Escapes e => (Escapes e, db)
  end.

(** [db.delete(current_user)]: the row goes, and with it, by the
    [cascade="all, delete-orphan"] of [User.sessions], the sessions of the
    user. *)
Definition delete_my_account (now : datetime) (credentials : token)
    (db : Database) : reply MessageResponse * Database :=
  match Dependencies.get_current_active_user now credentials db with
  | Pass (i, current_user) =>
      (Pass {| message := message_account_deleted |},
       {| users := delete i (users db);
          sessions :=
            filter (fun s => user_id s <> user_id_ current_user)
              (sessions db) |})
  | Deny status_code detail headers => (Deny status_code detail headers, db)
  | Escapes e => (Escapes e, db)
  end.

(** *** The whole API as a transition system *)

Inductive call : Type :=
  | CallRegister (salt_drawn : string) (request : RegisterRequest)
  | CallLogin (now : datetime) (jti_drawn : string)
      (request : LoginRequest) (http_request : HttpRequest)
  | CallRefresh (now : datetime) (jti_drawn : string) (request : token)
  | CallLogout (now : datetime) (request : token)
  | CallChangePassword (now : datetime) (salt_drawn : string)
      (credentials : token) (request : ChangePasswordRequest)
  | CallDeleteAccount (now : datetime) (credentials : token).

Definition handle (db : Database) (c : call) : Database :=
  match c with
  | CallRegister salt_drawn request => (register salt_drawn request db).2
  | CallLogin now j request http_request =>
      (login now j request http_request db).2
  | CallRefresh now j request => (refresh_token now j request db).2
  | CallLogout now request => (logout now request db).2
  | CallChangePassword now salt_drawn credentials request =>
      (change_password now salt_drawn credentials request db).2
  | CallDeleteAccount now credentials =>
      (delete_my_account now credentials db).2
  end.

Definition empty_db : Database := {| users := []; sessions := [] |}.

(** The states of a deployment: both tables start empty and change only
    through the endpoints. *)
Inductive served : Database -> Prop :=
  | served_start : served empty_db
  | served_call db c : served db -> served (handle db c).

(** What the endpoints keep true of the accounts. *)
Record accounts_ok (db : Database) : Prop := {
  ids_distinct : NoDup (user_id_ <$> users db);
  emails_distinct : NoDup (email <$> users db);
  usernames_distinct : NoDup (username <$> users db);
  usernames_valid :
    forall u, u ∈ users db -> (validate_username (username u)).1 = true;
  counters_ok :
    forall u, u ∈ users db ->
      0 <= failed_login_attempts u
      /\ (locked_until u <> None -> 5 <= failed_login_attempts u);
}.

End Endpoints.

(* ===================================================================== *)
(** ** security/rate_limiter.py, [rate_limit]                             *)
(* ===================================================================== *)

Module RateLimit.

Definition detail_too_many : string :=
  "요청이 너무 많습니다. 잠시 후 다시 시도하세요.".

(** The key of a request: the peer address, replaced by the first entry of
    [X-Forwarded-For] when that header is present and not empty. *)
Definition client_key (request : PeerRequest) : string :=
  let client_ip := default "unknown" (peer_host request) in
  match forwarded_for request with
  | Some forwarded =>
      if String.eqb forwarded "" then client_ip
      else PyStr.strip (PyStr.before ","%char forwarded)
  | None => client_ip
  end.

(** [now] is the clock reading of [is_allowed], [later] the one taken when
    the headers of the refusal are built. *)
Definition headers_of (later : Q) (m : RateLimiter.meta)
  : list (string * string) :=
  [("X-RateLimit-Limit", py_str (RateLimiter.limit m));
   ("X-RateLimit-Remaining", py_str (RateLimiter.remaining m));
   ("X-RateLimit-Reset", py_str (RateLimiter.reset_at m));
   ("Retry-After", py_str (RateLimiter.reset_at m - int_of_float later))].

Definition rate_limit (now later : Q) (request : PeerRequest)
    (limiter : RateLimiter.t) : reply unit * RateLimiter.t :=
  let '((allowed, m), limiter) :=
    RateLimiter.is_allowed now (client_key request) limiter in
  if negb allowed then (Deny 429 detail_too_many (headers_of later m), limiter)
  else (Pass tt, limiter).

End RateLimit.

(** Calls and resets on one limiter, for any keys. *)
Inductive limiter_op : Type :=
  | OpAllowed (now : Q) (key : string)
  | OpReset (key : string).

Definition apply_op (self : RateLimiter.t) (op : limiter_op) : RateLimiter.t :=
  match op with
  | OpAllowed now key => (RateLimiter.is_allowed now key self).2
  | OpReset key => RateLimiter.reset key self
  end.

(** The usernames [validate_username] lets through, spelled out: a body of
    letters, digits and underscores that does not start with a digit. *)
Fixpoint all_word_bytes (s : string) : bool :=
  match s with
  | EmptyString => true
  | String b rest => word_byte b && all_word_bytes rest
  end.

Definition starts_with_ascii_digit (s : string) : bool :=
  match s with
  | String b _ => ((48 <=? N_of_ascii b) && (N_of_ascii b <=? 57))%N
  | EmptyString => false
  end.

Definition newline : string := String "010"%char EmptyString.

(** The five messages of [check_password_strength], in the order of the
    checks. *)
Definition strength_messages : list string :=
  [strength_too_short; strength_no_upper; strength_no_lower;
   strength_no_digit; strength_no_symbol].

(** The lifetime a token gets: the given [expires_delta] unless it is
    absent or zero, in which case the configured default applies. *)
Definition lifetime (expires_delta : option Z) (default_delta : Z) : Z :=
  match expires_delta with
  | Some d => if bool_decide (d = 0) then default_delta else d
  | None => default_delta
  end.

Section StoredHashes.

Context {env : Environment} {ucd : UnicodeData}.

(** The salts that registration and password change draw are salts of
    bcrypt's form. *)
Definition salts_drawn_ok (c : call) : Prop :=
  match c with
  | CallRegister salt_drawn _ => Passlib.salt_ok salt_drawn = true
  | CallChangePassword _ salt_drawn _ _ => Passlib.salt_ok salt_drawn = true
  | _ => True
  end.

(** Every stored password hash is a string passlib parses. *)
Definition hashes_parse (db : Database) : Prop :=
  forall u, u ∈ users db -> Passlib.from_string (hashed_password u) <> None.

(** The state after a sequence of calls on two empty tables. *)
Definition serve_all (calls : list call) : Database :=
  foldl handle empty_db calls.

End StoredHashes.

(** Strings of ASCII whitespace, and of visible ASCII characters other than
    the comma: the padding and the entries of an [X-Forwarded-For] list. *)
Definition blank_byte (b : ascii) : bool :=
  let n := N_of_ascii b in
  ((9 <=? n) && (n <=? 13) || (28 <=? n) && (n <=? 32))%N.

Definition visible_byte (b : ascii) : bool :=
  let n := N_of_ascii b in
  ((33 <=? n) && (n <=? 126) && negb (n =? 44))%N.

Definition all_blank (s : string) : bool :=
  forallb blank_byte (list_ascii_of_string s).

Definition all_visible (s : string) : bool :=
  forallb visible_byte (list_ascii_of_string s).

(** An account as [register] creates it, as far as its privileges go: an
    ordinary user, not verified, active. *)
Definition unprivileged (u : User) : Prop :=
  role u = USER /\ is_verified u = false /\ user_is_active u = true.

(* ===================================================================== *)
(** ** security/validators.py, [sanitize_filename]                        *)
(* ===================================================================== *)

Module Filename.

(** [s.replace(a, b)] for single ASCII characters *)
Fixpoint replace (a b : ascii) (s : string) : string :=
  match s with
  | EmptyString => EmptyString
  | String c rest =>
      String (if Ascii.eqb c a then b else c) (replace a b rest)
  end.

(** The seven characters of the class that is removed: the angle brackets,
    the colon, the double quote (code 34), the bar, the question mark and
    the asterisk. *)
Definition dangerous (c : ascii) : bool :=
  bool_decide (c ∈ ["<"; ">"; ":"; "034"; "|"; "?"; "*"]%char).

(** [re.sub] of that class by the empty string *)
Fixpoint remove_dangerous (s : string) : string :=
  match s with
  | EmptyString => EmptyString
  | String c rest =>
      if dangerous c then remove_dangerous rest
      else String c (remove_dangerous rest)
  end.

(** [s.lstrip('.')] *)
Fixpoint lstrip_dots (s : string) : string :=
  match s with
  | String c rest => if Ascii.eqb c "." then lstrip_dots rest else s
  | EmptyString => EmptyString
  end.

(** [s.rsplit('.', 1)] when [s] has a dot: the text before the last dot
    and the text after it; [None] when it has none. *)
Fixpoint rsplit_dot (s : string) : option (string * string) :=
  match s with
  | EmptyString => None
  | String c rest =>
      match rsplit_dot rest with
      | Some (name, ext) => Some (String c name, ext)
      | None => if Ascii.eqb c "." then Some (EmptyString, rest) else None
      end
  end.

(** [s[:n]], counted in characters *)
Definition prefix (n : nat) (s : string) : string :=
  PyStr.concat (take n (PyStr.chars s)).

Definition sanitize_filename (filename : string) : string :=
  if String.eqb filename "" then "unnamed"
  else
    let filename := replace "092" "_" (replace "/" "_" filename) in
    let filename := remove_dangerous filename in
    let filename := lstrip_dots filename in
    let filename :=
      if 200 <? PyStr.len filename then
        let '(name, ext) :=
          match rsplit_dot filename with
          | Some parts => parts
          | None => (filename, EmptyString)
          end in
        prefix 195 name
          +:+ (if String.eqb ext "" then "" else "." +:+ ext)
      else filename in
    if String.eqb filename "" then "unnamed" else filename.

(** The characters a sanitized name is free of: the slash, the backslash
    (code 92) and the seven above. *)
Definition unsafe (c : ascii) : bool :=
  Ascii.eqb c "/" || Ascii.eqb c "092" || dangerous c.

Definition safe (s : string) : bool :=
  forallb (fun c => negb (unsafe c)) (list_ascii_of_string s).

Definition starts_with_dot (s : string) : bool :=
  match s with
  | String c _ => Ascii.eqb c "."
  | EmptyString => false
  end.

End Filename.

(* ===================================================================== *)
(** ** A second sample deployment, built through the endpoints            *)
(* ===================================================================== *)

Module Fixture.

Import Sample.

(** Character tables for ASCII text: no character beyond ASCII is an
    upper-case letter, a lower-case letter or a digit. *)
Definition ascii_only : UnicodeData := {|
  isupper_beyond_ascii := fun _ => false;
  islower_beyond_ascii := fun _ => false;
  isdigit_beyond_ascii := fun _ => false;
|}.

Definition bob_password : string := "Str0ng-Pass!".

Definition bob_request : RegisterRequest := {|
  reg_email := "bob@example.com"; reg_username := "bob_42";
  reg_password := bob_password; reg_full_name := None;
|}.

(** Bob registers on an empty database. *)
Definition db_bob : Database :=
  (register (env := env) (ucd := ascii_only) salt2 bob_request empty_db).2.

Definition bob_login : LoginRequest :=
  {| login_username := "bob_42"; login_password := bob_password |}.

(** He logs in at second 0. *)
Definition bob_pair : TokenPair :=
  create_token_pair (env := env) 0 "j1" (SubjectInt 1).

Definition db_bob_in : Database :=
  (login (env := env) 0 "j1" bob_login browser db_bob).2.

Definition bob_change : ChangePasswordRequest :=
  {| current_password := bob_password; new_password := "N3w-Passw0rd?" |}.

Definition bob_calls : list call :=
  [CallRegister salt2 bob_request; CallLogin 0 "j1" bob_login browser].

(** The pair Alice gets at second 0 in [Sample.db0]. *)
Definition alice_pair : TokenPair :=
  create_token_pair (env := env) 0 "j1" (SubjectInt 1).

End Fixture.

(* ===================================================================== *)
(** ** Properties of auth/password.py                                     *)
(* ===================================================================== *)

Section StringFacts.

Lemma string_take_app (a b : string) :
  Passlib.string_take (String.length a) (a +:+ b) = a.
Proof. induction a as [|c a IH]; simpl; [by destruct b | by rewrite IH]. Qed.

Lemma string_drop_app (a b : string) :
  Passlib.string_drop (String.length a) (a +:+ b) = b.
Proof. induction a as [|c a IH]; simpl; [by destruct b | done]. Qed.

Lemma salt_ok_length (s : string) :
  Passlib.salt_ok s = true -> String.length s = 22%nat.
Proof.
  unfold Passlib.salt_ok. intros H.
  apply andb_true_iff in H as [H _]. by apply Nat.eqb_eq in H.
Qed.

Lemma formatted_prefix (rest : string) :
  "$2b$" +:+ "12" +:+ "$" +:+ rest
  = String "$" (String "2" (String "b" (String "$"
      (String "1" (String "2" (String "$" rest)))))).
Proof. reflexivity. Qed.

(** A freshly formatted hash parses back to its fields. *)
Lemma from_string_formatted (s chk : string) :
  Passlib.salt_ok s = true -> Passlib.checksum_ok chk = true ->
  Passlib.from_string ("$2b$" +:+ "12" +:+ "$" +:+ s +:+ chk)
  = Some (Passlib.BcryptHash "$2b$" 12 s chk).
Proof.
  intros Hs Hc. pose proof (salt_ok_length s Hs) as Hlen.
  rewrite formatted_prefix. unfold Passlib.from_string.
  cbn -[Passlib.string_take Passlib.string_drop Passlib.parse_rounds
        Passlib.salt_ok Passlib.checksum_ok].
  change (Passlib.parse_rounds "12") with (Some 12).
  cbn -[Passlib.string_take Passlib.string_drop
        Passlib.salt_ok Passlib.checksum_ok].
  replace 22%nat with (String.length s) by done.
  rewrite string_take_app, string_drop_app, Hs, Hc. done.
Qed.

Lemma identify_formatted (s chk : string) :
  Passlib.identify ("$2b$" +:+ "12" +:+ "$" +:+ s +:+ chk) = true.
Proof. rewrite formatted_prefix. reflexivity. Qed.

Lemma from_string_identify (h : string) :
  Passlib.from_string h <> None -> Passlib.identify h = true.
Proof.
  unfold Passlib.from_string, Passlib.identify.
  by destruct (Passlib.parse_ident h).
Qed.

End StringFacts.

Section PasswordProperties.

Context {env : Environment}.

Lemma hash_password_formats (s p : string) :
  contains_nul (truncated p) = false ->
  hash_password s p
  = Ok ("$2b$" +:+ "12" +:+ "$" +:+ s
          +:+ bcrypt_digest "$2b$" 12 s (truncated p)).
Proof.
  intros Hnul. unfold hash_password, Passlib.hash.
  fold (truncated p). by rewrite Hnul.
Qed.

Lemma verify_own_hash (s p : string) :
  contains_nul (truncated p) = false ->
  Passlib.salt_ok s = true ->
  Passlib.checksum_ok (bcrypt_digest "$2b$" 12 s (truncated p)) = true ->
  verify_password p
    ("$2b$" +:+ "12" +:+ "$" +:+ s +:+ bcrypt_digest "$2b$" 12 s (truncated p))
  = Ok true.
Proof.
  intros Hnul Hs Hc. unfold verify_password, Passlib.verify.
  fold (truncated p).
  rewrite identify_formatted, (from_string_formatted _ _ Hs Hc), Hnul.
  cbn. by rewrite String.eqb_refl.
Qed.

Lemma formatted_salt_inj (s1 s2 c1 c2 : string) :
  Passlib.salt_ok s1 = true -> Passlib.salt_ok s2 = true ->
  "$2b$" +:+ "12" +:+ "$" +:+ s1 +:+ c1 = "$2b$" +:+ "12" +:+ "$" +:+ s2 +:+ c2 ->
  s1 = s2.
Proof.
  intros H1 H2 Heq. rewrite !formatted_prefix in Heq.
  injection Heq as Heq.
  apply (f_equal (Passlib.string_take 22)) in Heq.
  rewrite <- (salt_ok_length _ H1) in Heq at 1.
  rewrite <- (salt_ok_length _ H2) in Heq at 1.
  by rewrite !string_take_app in Heq.
Qed.

(** C3 (as amended): for every password whose truncated form (its first
    72 UTF-8 bytes, an incomplete last character dropped) holds no NUL
    character, and for any salts the hash operation may draw,
    [hash_password] returns a hash, [verify_password] of the password
    against it returns [True] because both apply the same truncation, and
    the hashes obtained with two different salts are different strings
    that both verify. *)
Theorem hash_then_verify (p s1 s2 : string) :
  contains_nul (truncated p) = false ->
  Passlib.salt_ok s1 = true ->
  Passlib.salt_ok s2 = true ->
  Passlib.checksum_ok (bcrypt_digest "$2b$" 12 s1 (truncated p)) = true ->
  Passlib.checksum_ok (bcrypt_digest "$2b$" 12 s2 (truncated p)) = true ->
  exists h1 h2,
    hash_password s1 p = Ok h1 /\ hash_password s2 p = Ok h2
    /\ verify_password p h1 = Ok true
    /\ verify_password p h2 = Ok true
    /\ (s1 <> s2 -> h1 <> h2).
Proof.
  intros Hnul Hs1 Hs2 Hc1 Hc2.
  eexists _, _. repeat split.
  - by apply hash_password_formats.
  - by apply hash_password_formats.
  - by apply verify_own_hash.
  - by apply verify_own_hash.
  - intros Hne Heq. apply Hne. by eapply formatted_salt_inj.
Qed.

(** The truncation is shared: two passwords with the same first 72 bytes
    are indistinguishable to [verify_password]. *)
Lemma verify_password_truncates (p q h : string) :
  truncated p = truncated q -> verify_password p h = verify_password q h.
Proof. unfold verify_password. fold (truncated p) (truncated q). by intros ->. Qed.

(** C7 (as amended): [verify_password] returns a boolean exactly on the
    hash strings passlib parses as bcrypt hashes, for a password whose
    truncated form holds no NUL character; on every other hash string,
    malformed or unrecognisable, it does not return [False]: passlib's
    exception propagates, as it does for a password with a NUL. *)
Theorem verify_password_returns_or_raises (plain hashed : string) :
  (Passlib.from_string hashed <> None ->
   contains_nul (truncated plain) = false ->
   exists b, verify_password plain hashed = Ok b)
  /\ (Passlib.from_string hashed = None ->
      exists e, verify_password plain hashed = Raise e)
  /\ (contains_nul (truncated plain) = true ->
      exists e, verify_password plain hashed = Raise e).
Proof.
  unfold verify_password, Passlib.verify. fold (truncated plain).
  split; [|split].
  - intros Hp Hnul. rewrite (from_string_identify _ Hp), Hnul.
    destruct (Passlib.from_string hashed); [eauto | done].
  - intros ->. destruct (Passlib.identify hashed); eauto.
  - intros ->. destruct (Passlib.identify hashed); [|eauto].
    destruct (Passlib.from_string hashed); eauto.
Qed.

End PasswordProperties.

(* ===================================================================== *)
(** ** Properties of auth/jwt_handler.py                                  *)
(* ===================================================================== *)

Section TokenProperties.

Context {env : Environment}.

Lemma verify_token_Some (t : token) (expected : string) (now : datetime)
    (p : TokenPayload) :
  verify_token t expected now = Some p <->
  payload_of t = Some p
  /\ Jose.signature_valid jws_sign t (secret_key settings)
       [algorithm settings] = true
  /\ timegm now <= exp p
  /\ type p = expected.
Proof.
  unfold verify_token, Jose.decode.
  destruct t as [alg q sg | raw]; simpl payload_of.
  - destruct (Jose.signature_valid _ _ _ _) eqn:Hsig.
    + destruct (exp q <? timegm now) eqn:Hexp.
      * apply Z.ltb_lt in Hexp. split; [done|].
        intros (Hq & _ & Hle & _). simplify_eq. lia.
      * apply Z.ltb_ge in Hexp. case_bool_decide as Hty.
        -- split; [done|]. intros (Hq & _ & _ & Heq). by simplify_eq.
        -- split.
           ++ intros Hq. simplify_eq.
              split_and!; try done;
                by destruct (decide (type p = expected)).
           ++ intros (Hq & _). by simplify_eq.
    + split; [done | intros (_ & ? & _); done].
  - split; [done | intros (? & _); done].
Qed.

Lemma create_access_token_type now subj delta :
  exists alg p sg,
    create_access_token now subj delta = JWS alg p sg /\ type p = "access".
Proof. unfold create_access_token, Jose.encode. eauto. Qed.

Lemma create_refresh_token_type now j subj delta :
  exists alg p sg,
    create_refresh_token now j subj delta = JWS alg p sg
    /\ type p = "refresh".
Proof. unfold create_refresh_token, Jose.encode. eauto. Qed.

(** C4: [verify_token] yields no payload whenever the token's type claim
    differs from the expected type, whenever the signature is invalid and
    whenever [exp] has passed; the answer is the same [None] in the three
    cases, so the caller can not tell them apart.  In particular an access
    token is refused where a refresh token is expected, and a refresh
    token where an access token is expected. *)
Theorem verify_token_refuses :
  (forall t expected now,
      refusal t expected now -> verify_token t expected now = None)
  /\ (forall now subj delta now',
        verify_token (create_access_token now subj delta) "refresh" now'
        = None)
  /\ (forall now j subj delta now',
        verify_token (create_refresh_token now j subj delta) "access" now'
        = None).
Proof.
  assert (Hmain : forall t expected now,
             refusal t expected now -> verify_token t expected now = None).
  { intros t expected now Hcause.
    destruct (verify_token t expected now) as [q|] eqn:Hv; [|done].
    apply verify_token_Some in Hv as (Hq & Hsig & Hexp & Hty).
    destruct Hcause as [p Hp Hne | Hbad | p Hp Hlt].
    - congruence.
    - congruence.
    - simplify_eq. lia. }
  split; [exact Hmain|]. split.
  - intros now subj delta now'.
    destruct (create_access_token_type now subj delta)
      as (alg & p & sg & -> & Hty).
    apply Hmain. apply (WrongType _ _ _ p); [done | by rewrite Hty].
  - intros now j subj delta now'.
    destruct (create_refresh_token_type now j subj delta)
      as (alg & p & sg & -> & Hty).
    apply Hmain. apply (WrongType _ _ _ p); [done | by rewrite Hty].
Qed.

End TokenProperties.

(* ===================================================================== *)
(** ** Properties of [login]                                              *)
(* ===================================================================== *)

Section LoginProperties.

Context {env : Environment}.
Implicit Types (db : Database) (u : User) (now : datetime).

Lemma login_unknown now j req http db :
  find_user (login_username req) db = None ->
  login now j req http db = (InvalidCredentials, db).
Proof. unfold login. by intros ->. Qed.

Lemma login_locked now j req http db i u :
  find_user (login_username req) db = Some (i, u) ->
  is_locked u now = true ->
  login now j req http db = (AccountLocked, db).
Proof. unfold login. by intros -> ->. Qed.

Lemma login_wrong now j req http db i u :
  find_user (login_username req) db = Some (i, u) ->
  is_locked u now = false ->
  verify_password (login_password req) (hashed_password u) = Ok false ->
  login now j req http db
  = (InvalidCredentials,
     Db.set_users db (<[i := record_failure u now]> (users db))).
Proof. unfold login. by intros -> -> ->. Qed.

Lemma login_right now j req http db i u :
  find_user (login_username req) db = Some (i, u) ->
  is_locked u now = false ->
  verify_password (login_password req) (hashed_password u) = Ok true ->
  let pair := create_token_pair now j (SubjectInt (user_id_ u)) in
  Db.token_stored (refresh_token_of pair) db = false ->
  login now j req http db
  = (Return pair,
     {| users := <[i := record_success u now]> (users db);
        sessions :=
          sessions db
          ++ [new_session now (user_id_ u) (refresh_token_of pair)
                (client_host http) (header_user_agent http)
                (Db.next_session_id db)] |}).
Proof.
  intros Hfind Hlock Hpw pair Hfresh.
  unfold login. rewrite Hfind, Hlock, Hpw.
  unfold Db.add_session. cbn.
  fold pair. unfold Db.token_stored in *. cbn in *. by rewrite Hfresh.
Qed.

(** Rewriting the row that was found, without touching the two columns
    the lookup reads, leaves the lookup where it was. *)
Lemma find_user_insert name db i u u' :
  find_user name db = Some (i, u) ->
  email u' = email u -> username u' = username u ->
  find_user name (Db.set_users db (<[i := u']> (users db))) = Some (i, u').
Proof.
  unfold find_user. cbn. intros Hfind He Hu.
  apply list_find_Some in Hfind as (Hi & HP & Hbefore).
  apply list_find_Some. split_and!.
  - apply list_lookup_insert_eq. by eapply lookup_lt_Some.
  - by rewrite He, Hu.
  - intros k y Hk Hlt. rewrite list_lookup_insert_ne in Hk by lia.
    by eapply Hbefore.
Qed.

Lemma run_app db es1 es2 : run db (es1 ++ es2) = run (run db es1) es2.
Proof. apply foldl_app. Qed.

Lemma run_cons db e es : run db (e :: es) = run (step db e) es.
Proof. reflexivity. Qed.

Lemma step_attempt db name (a : attempt) :
  step db (attempt_event name a)
  = (login (at_time a) (at_jti a)
       {| login_username := name; login_password := at_password a |}
       (at_http a) db).2.
Proof. reflexivity. Qed.

(** Fewer than five failures in a row are counted and do not lock. *)
Lemma failures_below_threshold name (attempts : list attempt) :
  forall db i u,
    find_user name db = Some (i, u) ->
    locked_until u = None ->
    failed_login_attempts u + Z.of_nat (length attempts) < 5 ->
    Forall (fun a => verify_password (at_password a) (hashed_password u)
                     = Ok false) attempts ->
    exists u',
      find_user name (run db (attempt_event name <$> attempts)) = Some (i, u')
      /\ failed_login_attempts u'
         = failed_login_attempts u + Z.of_nat (length attempts)
      /\ locked_until u' = None
      /\ hashed_password u' = hashed_password u.
Proof.
  induction attempts as [|a attempts IH]; intros db i u Hfind Hnolock Hlt Hwrong.
  - exists u. cbn. split_and!; [done | lia | done | done].
  - apply Forall_cons in Hwrong as [Ha Hrest].
    cbn [length] in Hlt. rewrite fmap_cons, run_cons, step_attempt.
    erewrite login_wrong; [| exact Hfind | by unfold is_locked; rewrite Hnolock | exact Ha].
    cbn [snd].
    set (u1 := record_failure u (at_time a)).
    assert (Hc1 : failed_login_attempts u1 = failed_login_attempts u + 1) by done.
    assert (Hl1 : locked_until u1 = None).
    { unfold u1, record_failure. cbn.
      destruct (5 <=? failed_login_attempts u + 1) eqn:Hle; [|done].
      apply Z.leb_le in Hle. lia. }
    destruct (IH (Db.set_users db (<[i := u1]> (users db))) i u1)
      as (u' & Hfind' & Hc' & Hl' & Hh').
    + by apply (find_user_insert _ _ _ u).
    + done.
    + rewrite Hc1. lia.
    + done.
    + exists u'.
      split_and!; [done | rewrite Hc', Hc1; cbn [length]; lia | done | done].
Qed.

Lemma thirty_minutes_positive : 0 < timedelta_minutes 30.
Proof. reflexivity. Qed.

Lemma locked_until_future u now t :
  locked_until u = Some t -> now < t -> is_locked u now = true.
Proof. unfold is_locked. intros -> Hlt. by apply Z.ltb_lt. Qed.

Lemma not_locked_once_passed u now :
  (forall t, locked_until u = Some t -> t <= now) -> is_locked u now = false.
Proof.
  unfold is_locked. intros Hpast.
  destruct (locked_until u) as [t|]; [|done].
  apply Z.ltb_ge. by apply Hpast.
Qed.

(** C2: five consecutive failed logins on an account lock it until thirty
    minutes after the fifth; while that instant lies in the future every
    login on the account is answered AccountLocked, whatever the password,
    and nothing is written; once it has passed, a login with the correct
    password returns the token pair, sets the failure counter to 0 and
    clears the lockout expiry (the refresh token drawn being a new
    one). *)
Theorem account_lockout :
  (forall name db i u (first4 : list attempt) (fifth : attempt),
      find_user name db = Some (i, u) ->
      failed_login_attempts u = 0 ->
      locked_until u = None ->
      length first4 = 4%nat ->
      Forall (fun a => verify_password (at_password a) (hashed_password u)
                       = Ok false) (first4 ++ [fifth]) ->
      exists u',
        find_user name (run db (attempt_event name <$> (first4 ++ [fifth])))
        = Some (i, u')
        /\ failed_login_attempts u' = 5
        /\ locked_until u' = Some (at_time fifth + timedelta_minutes 30)
        /\ is_locked u' (at_time fifth) = true)
  /\ (forall now j req http db i u t,
        find_user (login_username req) db = Some (i, u) ->
        locked_until u = Some t ->
        now < t ->
        login now j req http db = (AccountLocked, db))
  /\ (forall now j req http db i u,
        find_user (login_username req) db = Some (i, u) ->
        (forall t, locked_until u = Some t -> t <= now) ->
        verify_password (login_password req) (hashed_password u) = Ok true ->
        Db.token_stored
          (create_refresh_token now j (SubjectInt (user_id_ u)) None) db
        = false ->
        exists pair db' u',
          login now j req http db = (Return pair, db')
          /\ find_user (login_username req) db' = Some (i, u')
          /\ failed_login_attempts u' = 0
          /\ locked_until u' = None).
Proof.
  split; [|split].
  - intros name db i u first4 fifth Hfind Hzero Hnone Hlen Hwrong.
    apply Forall_app in Hwrong as [H4 H5]. rewrite Forall_singleton in H5.
    destruct (failures_below_threshold name first4 db i u)
      as (u4 & Hfind4 & Hc4 & Hl4 & Hh4); [done | done | lia | done |].
    rewrite fmap_app, run_app. cbn [fmap list_fmap].
    rewrite run_cons, step_attempt.
    erewrite login_wrong;
      [| exact Hfind4 | by unfold is_locked; rewrite Hl4
       | rewrite Hh4; exact H5].
    cbn [snd run foldl].
    exists (record_failure u4 (at_time fifth)).
    assert (Hfive : failed_login_attempts u4 + 1 = 5) by lia.
    split_and!.
    + by apply (find_user_insert _ _ _ u4).
    + done.
    + unfold record_failure. cbn. by rewrite Hfive.
    + unfold is_locked, record_failure. cbn. rewrite Hfive. cbn.
      apply Z.ltb_lt. pose proof thirty_minutes_positive. lia.
  - intros now j req http db i u t Hfind Hlock Hlt.
    eapply login_locked; [done|]. by eapply locked_until_future.
  - intros now j req http db i u Hfind Hpast Hpw Hfresh.
    eexists _, _, (record_success u now). split_and!.
    + apply login_right; [done | by apply not_locked_once_passed | done | done].
    + by apply (find_user_insert _ {| users := users db; sessions := _ |} _ u).
    + done.
    + done.
Qed.

Lemma login_users now j req http db k u :
  users db !! k = Some u ->
  exists u',
    users (login now j req http db).2 !! k = Some u'
    /\ (failed_login_attempts u' = failed_login_attempts u
        \/ failed_login_attempts u' = failed_login_attempts u + 1
        \/ (failed_login_attempts u' = 0
            /\ exists pair, (login now j req http db).1 = Return pair)).
Proof.
  intros Hk. unfold login.
  destruct (find_user _ db) as [[i v]|] eqn:Hfind; [|by eauto].
  apply list_find_Some in Hfind as (Hi & _ & _).
  destruct (is_locked v now); [by eauto|].
  destruct (verify_password _ _) as [[|]|e]; [| |by eauto].
  - unfold Db.add_session.
    destruct (Db.token_stored _ _); [by eauto|]. cbn.
    destruct (decide (i = k)) as [->|Hne].
    + rewrite list_lookup_insert_eq by by eapply lookup_lt_Some.
      eexists. split; [done|]. right. right. eauto.
    + rewrite list_lookup_insert_ne by done. eauto.
  - cbn. destruct (decide (i = k)) as [->|Hne].
    + rewrite list_lookup_insert_eq by by eapply lookup_lt_Some.
      simplify_eq. eexists. split; [done|]. right. left. done.
    + rewrite list_lookup_insert_ne by done. eauto.
Qed.

(** C10: the failure counter survives the end of a lockout window, since
    only a login that returns tokens writes 0 into it (any other login
    leaves every counter as it was or one higher, and neither
    [refresh_token] nor [logout] writes the users table); hence for an
    account with five or more counted failures whose lockout expiry has
    passed, one more failed login sets a new lockout of thirty minutes at
    once. *)
Theorem relock_after_expiry :
  (forall now j req http db i u t,
      find_user (login_username req) db = Some (i, u) ->
      5 <= failed_login_attempts u ->
      locked_until u = Some t ->
      t <= now ->
      verify_password (login_password req) (hashed_password u) = Ok false ->
      exists db' u',
        login now j req http db = (InvalidCredentials, db')
        /\ find_user (login_username req) db' = Some (i, u')
        /\ failed_login_attempts u' = failed_login_attempts u + 1
        /\ locked_until u' = Some (now + timedelta_minutes 30)
        /\ is_locked u' now = true)
  /\ (forall now j req http db k u,
        users db !! k = Some u ->
        exists u',
          users (login now j req http db).2 !! k = Some u'
          /\ (failed_login_attempts u' < failed_login_attempts u ->
              failed_login_attempts u' = 0
              /\ exists pair, (login now j req http db).1 = Return pair))
  /\ (forall now j t db, users (refresh_token now j t db).2 = users db)
  /\ (forall now t db, users (logout now t db).2 = users db).
Proof.
  split_and!.
  - intros now j req http db i u t Hfind Hfive Hlock Hpast Hpw.
    assert (Hopen : is_locked u now = false).
    { apply not_locked_once_passed. intros t' Ht'. by simplify_eq. }
    eexists _, (record_failure u now). split_and!.
    + by eapply login_wrong.
    + by apply (find_user_insert _ _ _ u).
    + done.
    + unfold record_failure. cbn.
      destruct (5 <=? failed_login_attempts u + 1) eqn:Hle; [done|].
      apply Z.leb_gt in Hle. lia.
    + unfold is_locked, record_failure. cbn.
      destruct (5 <=? failed_login_attempts u + 1) eqn:Hle.
      * apply Z.ltb_lt. pose proof thirty_minutes_positive. lia.
      * apply Z.leb_gt in Hle. lia.
  - intros now j req http db k u Hk.
    destruct (login_users now j req http db k u Hk) as (u' & Hk' & Hcases).
    exists u'. split; [done|]. intros Hlower.
    destruct Hcases as [Heq | [Heq | Hreset]]; [lia | lia | done].
  - intros now j t db. unfold refresh_token.
    repeat case_match; try done.
    unfold Db.add_session in *. repeat case_match; by simplify_eq.
  - intros now t db. unfold logout. by repeat case_match.
Qed.

(** C8 (as amended): a login with a name matching no account and a login
    with an existing name whose account is not locked at that time and
    whose password check returns [False] fail with the same status code
    and the same detail, so these two answers do not tell whether the
    account exists.  (A locked account is answered AccountLocked before
    the password is looked at.) *)
Theorem login_failure_indistinguishable
    now1 now2 j1 j2 req1 req2 http1 http2 db i u :
  find_user (login_username req1) db = None ->
  find_user (login_username req2) db = Some (i, u) ->
  is_locked u now2 = false ->
  verify_password (login_password req2) (hashed_password u) = Ok false ->
  (login now1 j1 req1 http1 db).1 = (login now2 j2 req2 http2 db).1
  /\ (login now2 j2 req2 http2 db).1
     = HTTPException 401 detail_invalid_credentials.
Proof.
  intros Hnone Hfind Hopen Hpw.
  rewrite (login_unknown _ _ _ _ _ Hnone).
  by rewrite (login_wrong _ _ _ _ _ _ _ Hfind Hopen Hpw).
Qed.

End LoginProperties.

(* ===================================================================== *)
(** ** Properties of the [sessions] table                                 *)
(* ===================================================================== *)

Section SessionProperties.

Context {env : Environment}.
Implicit Types (db : Database) (s : Session) (t : token).

Lemma add_session_Ok db row db' :
  Db.add_session db row = Ok db' <->
  (refresh_token_ (row (Db.next_session_id db))
     ∉ (refresh_token_ <$> sessions db))
  /\ db' = {| users := users db;
             sessions := sessions db ++ [row (Db.next_session_id db)] |}.
Proof.
  unfold Db.add_session, Db.token_stored. case_bool_decide as Hin.
  - split; [done | by intros [? _]].
  - split; [intros ?; by simplify_eq | by intros [_ ->]].
Qed.

(** Revoking a row keeps its token. *)
Lemma tokens_revoke (l : list Session) i s now :
  l !! i = Some s ->
  refresh_token_ <$> <[i := revoke s now]> l = refresh_token_ <$> l.
Proof.
  intros Hi. rewrite list_fmap_insert. apply list_insert_id.
  by rewrite list_lookup_fmap, Hi.
Qed.

Lemma evolves_refl l : evolves l l.
Proof.
  rewrite <- (app_nil_r l) at 2. apply evolves_by; by left.
Qed.

Lemma login_evolves now j req http db :
  evolves (sessions db) (sessions (login now j req http db).2).
Proof.
  unfold login.
  destruct (find_user _ db) as [[i u]|]; [|apply evolves_refl].
  destruct (is_locked u now); [apply evolves_refl|].
  destruct (verify_password _ _) as [[|]|e]; try apply evolves_refl.
  destruct (Db.add_session _ _) as [db''|e] eqn:Hadd; [|apply evolves_refl].
  apply add_session_Ok in Hadd as [Hfresh ->]. cbn in *.
  apply evolves_by; [by left|]. right. eauto.
Qed.

Lemma refresh_evolves now j t db :
  evolves (sessions db) (sessions (refresh_token now j t db).2).
Proof.
  unfold refresh_token.
  destruct (verify_token t "refresh" now) as [p|]; [|apply evolves_refl].
  destruct (list_find _ (sessions db)) as [[i s]|] eqn:Hfind;
    [|apply evolves_refl].
  apply list_find_Some in Hfind as (Hi & _ & _).
  destruct (py_int (sub p)) as [uid|]; [|apply evolves_refl].
  destruct (Db.add_session _ _) as [db''|e] eqn:Hadd; [|apply evolves_refl].
  apply add_session_Ok in Hadd as [Hfresh ->]. cbn in *.
  rewrite (tokens_revoke _ _ _ _ Hi) in Hfresh.
  apply evolves_by; [right; eauto | right; eauto].
Qed.

Lemma logout_evolves now t db :
  evolves (sessions db) (sessions (logout now t db).2).
Proof.
  unfold logout.
  destruct (list_find _ (sessions db)) as [[i s]|] eqn:Hfind;
    [|apply evolves_refl].
  apply list_find_Some in Hfind as (Hi & _ & _). cbn.
  rewrite <- (app_nil_r (<[i:=_]> _)). apply evolves_by; [right; eauto | by left].
Qed.

Lemma step_evolves db e : evolves (sessions db) (sessions (step db e)).
Proof.
  destruct e; cbn [step].
  - apply login_evolves.
  - apply refresh_evolves.
  - apply logout_evolves.
  - apply evolves_refl.
Qed.

Lemma evolves_tokens l l' :
  evolves l l' ->
  exists added,
    tokens l' = tokens l ++ added
    /\ (added = [] \/ exists t, added = [t] /\ t ∉ tokens l).
Proof.
  intros [l1 added Hl1 Hadded]. unfold tokens. rewrite fmap_app.
  assert (Hsame : refresh_token_ <$> l1 = refresh_token_ <$> l).
  { destruct Hl1 as [-> | (i & s & now & Hi & ->)]; [done|].
    by apply tokens_revoke. }
  rewrite Hsame. eexists. split; [done|].
  destruct Hadded as [-> | (s & -> & Hfresh & _)]; [by left|].
  right. eauto.
Qed.

Lemma evolves_NoDup l l' :
  evolves l l' -> NoDup (tokens l) -> NoDup (tokens l').
Proof.
  intros (added & -> & Hadded)%evolves_tokens Hnd.
  destruct Hadded as [-> | (t & -> & Hfresh)].
  - by rewrite app_nil_r.
  - apply NoDup_app. split_and!; [done | | apply NoDup_singleton].
    intros x Hx ->%list_elem_of_singleton. done.
Qed.

Lemma reachable_NoDup db : reachable db -> NoDup (tokens (sessions db)).
Proof.
  induction 1 as [us | db e _ IH]; [apply NoDup_nil_2|].
  eapply evolves_NoDup; [apply step_evolves | done].
Qed.

Lemma evolves_spent t l l' : evolves l l' -> spent t l -> spent t l'.
Proof.
  intros Hev [Hin Hdead]. split.
  - apply evolves_tokens in Hev as (added & -> & _).
    apply elem_of_app. by left.
  - destruct Hev as [l1 added Hl1 Hadded].
    intros s [Hs | Hs]%elem_of_app Ht.
    + destruct Hl1 as [-> | (i & s0 & now & Hi & ->)]; [by apply Hdead|].
      apply list_elem_of_lookup in Hs as [k Hk].
      destruct (decide (i = k)) as [<- | Hne].
      * rewrite list_lookup_insert_eq in Hk by by eapply lookup_lt_Some.
        by simplify_eq.
      * rewrite list_lookup_insert_ne in Hk by done.
        apply Hdead; [|done]. apply list_elem_of_lookup. eauto.
    + destruct Hadded as [-> | (s1 & -> & Hfresh & _)].
      * by apply elem_of_nil in Hs.
      * apply list_elem_of_singleton in Hs as ->.
        exfalso. apply Hfresh. unfold tokens in Hin. by rewrite Ht.
Qed.

Lemma run_spent t es : forall db,
  spent t (sessions db) -> spent t (sessions (run db es)).
Proof.
  induction es as [|e es IH]; intros db Hsp; [done|].
  rewrite run_cons. apply IH. eapply evolves_spent; [apply step_evolves | done].
Qed.

(** A spent token is refused, by verification or by the session lookup,
    and nothing is written. *)
Lemma refresh_spent now j t db :
  spent t (sessions db) ->
  refresh_token now j t db
  = (match verify_token t "refresh" now with
     | Some _ => SessionExpired
     | None => InvalidToken
     end, db).
Proof.
  intros [_ Hdead]. unfold refresh_token.
  destruct (verify_token t "refresh" now) as [p|]; [|done].
  destruct (list_find _ (sessions db)) as [[i s]|] eqn:Hfind; [|done].
  apply list_find_Some in Hfind as (Hi & [Ht Hact] & _).
  rewrite (Hdead s) in Hact; [done | | done].
  apply list_elem_of_lookup. eauto.
Qed.

Lemma next_id_revoke db i s now :
  sessions db !! i = Some s ->
  Db.next_session_id (Db.set_sessions db (<[i := revoke s now]> (sessions db)))
  = Db.next_session_id db.
Proof.
  intros Hi. unfold Db.next_session_id. cbn.
  rewrite list_fmap_insert, list_insert_id; [done|].
  by rewrite list_lookup_fmap, Hi.
Qed.

(** The shape of a successful rotation. *)
Lemma refresh_returns now j t db pair db1 :
  refresh_token now j t db = (Return pair, db1) ->
  exists i old p uid,
    verify_token t "refresh" now = Some p
    /\ py_int (sub p) = Some uid
    /\ sessions db !! i = Some old
    /\ refresh_token_ old = t
    /\ is_active old = true
    /\ pair = create_token_pair now j (SubjectStr (sub p))
    /\ (refresh_token_of pair ∉ tokens (sessions db))
    /\ users db1 = users db
    /\ sessions db1
       = <[i := revoke old now]> (sessions db)
         ++ [new_session now uid (refresh_token_of pair)
               (client_ip old) (user_agent old) (Db.next_session_id db)].
Proof.
  unfold refresh_token.
  destruct (verify_token t "refresh" now) as [p|]; [|done].
  destruct (list_find _ (sessions db)) as [[i s]|] eqn:Hfind; [|done].
  apply list_find_Some in Hfind as (Hi & [Ht Hact] & _).
  destruct (py_int (sub p)) as [uid|] eqn:Hint; [|done].
  destruct (Db.add_session _ _) as [db''|e] eqn:Hadd; [|done].
  apply add_session_Ok in Hadd as [Hfresh ->]. cbn in Hfresh.
  rewrite (tokens_revoke _ _ _ _ Hi) in Hfresh.
  intros [= <- <-]. exists i, s, p, uid. split_and!; try done.
  cbn. by rewrite (next_id_revoke _ _ _ _ Hi).
Qed.

Lemma rotation_spends now j t db pair db1 :
  NoDup (tokens (sessions db)) ->
  refresh_token now j t db = (Return pair, db1) ->
  spent t (sessions db1).
Proof.
  intros Hnd Hret.
  apply refresh_returns in Hret
    as (i & old & p & uid & _ & _ & Hi & Ht & _ & _ & Hfresh & _ & ->).
  assert (Hin : t ∈ tokens (sessions db)).
  { unfold tokens. apply list_elem_of_fmap. exists old. split; [done|].
    apply list_elem_of_lookup. eauto. }
  split.
  - unfold tokens. rewrite fmap_app, (tokens_revoke _ _ _ _ Hi).
    apply elem_of_app. by left.
  - intros s [Hs | Hs]%elem_of_app Hst.
    + apply list_elem_of_lookup in Hs as [k Hk].
      destruct (decide (i = k)) as [<- | Hne].
      * rewrite list_lookup_insert_eq in Hk by by eapply lookup_lt_Some.
        by simplify_eq.
      * rewrite list_lookup_insert_ne in Hk by done.
        exfalso. apply Hne.
        apply (NoDup_lookup (tokens (sessions db)) i k t Hnd);
          unfold tokens; rewrite list_lookup_fmap.
        -- by rewrite Hi; cbn; rewrite Ht.
        -- by rewrite Hk; cbn; rewrite Hst.
    + apply list_elem_of_singleton in Hs as ->. cbn in Hst.
      exfalso. apply Hfresh. by rewrite Hst.
Qed.

(** C1 (as amended): in every reachable state no two rows of the sessions
    table carry the same refresh token, so at most one row is active for
    a token value.  A successful refresh with token [t] leaves the row of
    [t] in place with its token, marks it inactive with the time of the
    request as revocation time, and appends a new active row under the
    new refresh token, which differs from [t].  From then on, whatever
    requests are served in between, a refresh with [t] fails and writes
    nothing: with SessionExpired as long as [t] itself still passes token
    verification, and with InvalidToken once [t] has expired. *)
Theorem refresh_tokens_single_use db :
  reachable db ->
  (forall i k s1 s2,
      sessions db !! i = Some s1 ->
      sessions db !! k = Some s2 ->
      refresh_token_ s1 = refresh_token_ s2 ->
      is_active s1 = true -> is_active s2 = true ->
      i = k)
  /\ (forall now j t pair db1,
        refresh_token now j t db = (Return pair, db1) ->
        (exists i old new,
            sessions db !! i = Some old
            /\ refresh_token_ old = t
            /\ is_active old = true
            /\ sessions db1 = <[i := revoke old now]> (sessions db) ++ [new]
            /\ refresh_token_ (revoke old now) = t
            /\ is_active (revoke old now) = false
            /\ revoked_at (revoke old now) = Some now
            /\ refresh_token_ new = refresh_token_of pair
            /\ is_active new = true
            /\ refresh_token_of pair <> t)
        /\ forall es now2 j2,
            (verify_token t "refresh" now2 <> None ->
             refresh_token now2 j2 t (run db1 es)
             = (SessionExpired, run db1 es))
            /\ (verify_token t "refresh" now2 = None ->
                refresh_token now2 j2 t (run db1 es)
                = (InvalidToken, run db1 es))).
Proof.
  intros Hreach. pose proof (reachable_NoDup db Hreach) as Hnd. split.
  - intros i k s1 s2 Hi Hk Heq _ _.
    apply (NoDup_lookup (tokens (sessions db)) i k (refresh_token_ s1) Hnd);
      unfold tokens; rewrite list_lookup_fmap.
    + by rewrite Hi.
    + by rewrite Hk; cbn; rewrite Heq.
  - intros now j t pair db1 Hret. split.
    + pose proof Hret as Hshape.
      apply refresh_returns in Hshape
        as (i & old & p & uid & _ & _ & Hi & Ht & Hact & _ & Hfresh & _ & Hs).
      eexists i, old, _. split_and!; try done.
      intros Heq. apply Hfresh. rewrite Heq, <- Ht.
      unfold tokens. apply list_elem_of_fmap. exists old. split; [done|].
      apply list_elem_of_lookup. eauto.
    + intros es now2 j2.
      pose proof (rotation_spends _ _ _ _ _ _ Hnd Hret) as Hsp.
      apply (run_spent t es) in Hsp.
      rewrite (refresh_spent now2 j2 t _ Hsp).
      destruct (verify_token t "refresh" now2); split; done.
Qed.

(** C9 (as amended): logging out with a refresh token that matches no
    session returns the message and writes nothing; logging out with the
    token of an already revoked session is not an error either and leaves
    the session inactive and every other column and row as it was, but it
    writes the revocation time again: the tables are unchanged only when
    the second revocation happens at the recorded instant. *)
Theorem logout_best_effort :
  (forall now t db,
      (forall s, s ∈ sessions db -> refresh_token_ s <> t) ->
      logout now t db = (Return {| message := message_logged_out |}, db))
  /\ (forall now t db i s before,
        list_find (fun s => refresh_token_ s = t) (sessions db) = Some (i, s) ->
        is_active s = false ->
        revoked_at s = Some before ->
        exists db',
          logout now t db = (Return {| message := message_logged_out |}, db')
          /\ users db' = users db
          /\ sessions db' = <[i := revoke s now]> (sessions db)
          /\ is_active (revoke s now) = false
          /\ revoked_at (revoke s now) = Some now
          /\ (db' = db <-> now = before)).
Proof.
  split.
  - intros now t db Hnone. unfold logout.
    destruct (list_find _ (sessions db)) as [[i s]|] eqn:Hfind; [|done].
    apply list_find_Some in Hfind as (Hi & Ht & _).
    destruct (Hnone s); [|done]. apply list_elem_of_lookup. eauto.
  - intros now t db i s before Hfind Hinactive Hrev. unfold logout.
    rewrite Hfind. apply list_find_Some in Hfind as (Hi & Ht & _).
    eexists. split_and!; try done.
    destruct db as [us ss]. unfold Db.set_sessions. cbn in *. split.
    + intros [= Heq].
      assert (Hrow : <[i := revoke s now]> ss !! i = Some s)
        by by rewrite Heq.
      rewrite list_lookup_insert_eq in Hrow by by eapply lookup_lt_Some.
      injection Hrow as Hrow.
      apply (f_equal revoked_at) in Hrow. cbn in Hrow. congruence.
    + intros ->. f_equal. apply list_insert_id. rewrite Hi. f_equal.
      destruct s. cbn in *. by subst.
Qed.

(** The expiry column of a row is the instant at which it was issued. *)
Lemma issued_session_expiry :
  (forall now j req http db pair db',
      login now j req http db = (Return pair, db') ->
      exists s,
        sessions db' = sessions db ++ [s]
        /\ refresh_token_ s = refresh_token_of pair
        /\ expires_at s = now /\ created_at s = now)
  /\ (forall now j t db pair db',
        refresh_token now j t db = (Return pair, db') ->
        exists s, last (sessions db') = Some s
                  /\ refresh_token_ s = refresh_token_of pair
                  /\ expires_at s = now /\ created_at s = now).
Proof.
  split.
  - intros now j req http db pair db'. unfold login.
    destruct (find_user _ db) as [[i u]|]; [|done].
    destruct (is_locked u now); [done|].
    destruct (verify_password _ _) as [[|]|e]; try done.
    destruct (Db.add_session _ _) as [db''|e] eqn:Hadd; [|done].
    apply add_session_Ok in Hadd as [_ ->]. intros [= <- <-]. cbn. eauto.
  - intros now j t db pair db' Hret.
    apply refresh_returns in Hret
      as (i & old & p & uid & _ & _ & _ & _ & _ & _ & _ & _ & ->).
    rewrite last_snoc. eauto.
Qed.

(** The refresh token issued at [now] expires after the configured
    number of days. *)
Lemma refresh_token_exp now j subj :
  payload_of (refresh_token_of (create_token_pair now j subj))
  = Some {| sub := str_of_subject subj;
            exp := timegm (now + timedelta_days
                                   (refresh_token_expire_days settings));
            iat := timegm now;
            type := "refresh";
            jti := Some j |}.
Proof. reflexivity. Qed.

Lemma days_positive (d : Z) : 0 < d -> 0 < timedelta_days d.
Proof. unfold timedelta_days. lia. Qed.

(** C6 (what the code does instead): the session row written by a
    successful login, and the one written by a successful refresh, carry
    the instant of the request both as creation time and as expiry, while
    the refresh token stored in the row expires
    [refresh_token_expire_days] later; the stored expiry is therefore not
    the creation time plus the token's lifetime. *)
Theorem session_expiry_is_issue_time :
  0 < refresh_token_expire_days settings ->
  (forall now j req http db pair db',
      login now j req http db = (Return pair, db') ->
      exists s p,
        last (sessions db') = Some s
        /\ refresh_token_ s = refresh_token_of pair
        /\ created_at s = now
        /\ expires_at s = now
        /\ payload_of (refresh_token_ s) = Some p
        /\ exp p = timegm (now + timedelta_days
                                  (refresh_token_expire_days settings))
        /\ expires_at s
           <> created_at s
              + timedelta_days (refresh_token_expire_days settings))
  /\ (forall now j t db pair db',
        refresh_token now j t db = (Return pair, db') ->
        exists s p,
          last (sessions db') = Some s
          /\ refresh_token_ s = refresh_token_of pair
          /\ created_at s = now
          /\ expires_at s = now
          /\ payload_of (refresh_token_ s) = Some p
          /\ exp p = timegm (now + timedelta_days
                                    (refresh_token_expire_days settings))
          /\ expires_at s
             <> created_at s
                + timedelta_days (refresh_token_expire_days settings)).
Proof.
  intros Hdays. pose proof (days_positive _ Hdays) as Hpos.
  destruct issued_session_expiry as [Hlogin Hrefresh]. split.
  - intros now j req http db pair db' Hret.
    destruct (Hlogin _ _ _ _ _ _ _ Hret) as (s & Hs & Htok & Hexp & Hcr).
    assert (Hpair : exists subj, pair = create_token_pair now j subj).
    { revert Hret. unfold login. repeat case_match; try done.
      intros [= <- _]. eauto. }
    destruct Hpair as [subj ->].
    eexists s, _. rewrite Hs, last_snoc, Htok, refresh_token_exp.
    split_and!; try done. lia.
  - intros now j t db pair db' Hret.
    destruct (Hrefresh _ _ _ _ _ _ Hret) as (s & Hs & Htok & Hexp & Hcr).
    apply refresh_returns in Hret
      as (_ & _ & p & _ & _ & _ & _ & _ & _ & -> & _).
    eexists s, _. rewrite Hs, Htok, refresh_token_exp.
    split_and!; try done. lia.
Qed.

End SessionProperties.

(* ===================================================================== *)
(** ** Properties of the rate limiter                                     *)
(* ===================================================================== *)

Section RateLimiterProperties.

Import RateLimiter.
Implicit Types (self : RateLimiter.t) (key : string) (now : Q).

Lemma history_store self key l : history (store self key l) key = l.
Proof. unfold history, store. cbn. by rewrite lookup_insert_eq. Qed.

Lemma history_store_ne self key key' l :
  key <> key' -> history (store self key l) key' = history self key'.
Proof. intros Hne. unfold history, store. cbn. by rewrite lookup_insert_ne. Qed.

Lemma history_cleaned now key self :
  history (_clean_old_requests now key self) key = recent now key self.
Proof. unfold _clean_old_requests. by rewrite history_store. Qed.

(** One call, spelled out on the pruned history. *)
Lemma is_allowed_unfold now key self :
  let kept := recent now key self in
  let count := Z.of_nat (length kept) in
  is_allowed now key self
  = if requests self <=? count
    then ((false, {| limit := requests self;
                     remaining := Z.max 0 (requests self - count);
                     reset_at := int_of_float now + window self |}),
          store self key kept)
    else ((true, {| limit := requests self;
                    remaining := Z.max 0 (requests self - count) - 1;
                    reset_at := int_of_float now + window self |}),
          store (store self key kept) key (kept ++ [now])).
Proof.
  cbn zeta. unfold is_allowed. rewrite history_cleaned.
  by destruct (_ <=? _).
Qed.

Lemma is_allowed_requests now key self :
  requests (is_allowed now key self).2 = requests self.
Proof. rewrite is_allowed_unfold. cbn zeta. by destruct (_ <=? _). Qed.

Lemma is_allowed_history now key self :
  history (is_allowed now key self).2 key
  = if (is_allowed now key self).1.1
    then recent now key self ++ [now]
    else recent now key self.
Proof.
  rewrite is_allowed_unfold. cbn zeta.
  destruct (_ <=? _); cbn; by rewrite !history_store.
Qed.

Lemma is_allowed_admits now key self :
  (is_allowed now key self).1.1 = true
  <-> Z.of_nat (length (recent now key self)) < requests self.
Proof.
  rewrite is_allowed_unfold. cbn zeta.
  destruct (_ <=? _) eqn:Hle; cbn.
  - apply Z.leb_le in Hle. split; [done | lia].
  - apply Z.leb_gt in Hle. split; [lia | done].
Qed.

(** As long as the history and the calls to come fit under the limit,
    every call is admitted. *)
Lemma calls_under_limit (times : list Q) key : forall self,
  Z.of_nat (length (history self key)) + Z.of_nat (length times)
  <= requests self ->
  Forall (fun r => r.1 = true) (calls times key self).1.
Proof.
  induction times as [|now later IH]; intros self Hroom; [by constructor|].
  cbn [calls length] in *.
  pose proof (length_filter
                (fun x => (now - x < inject_Z (window self))%Q)
                (history self key)) as Hshort.
  fold (recent now key self) in Hshort.
  pose proof (is_allowed_requests now key self) as Hreq.
  pose proof (is_allowed_history now key self) as Hhist.
  assert (Hok : (is_allowed now key self).1.1 = true)
    by (apply is_allowed_admits; lia).
  rewrite Hok in Hhist.
  destruct (is_allowed now key self) as [r self1]. cbn in Hreq, Hhist, Hok.
  specialize (IH self1).
  destruct (calls later key self1) as [rs self2]. cbn in *.
  constructor; [done|]. apply IH.
  rewrite Hreq, Hhist, length_app. cbn. lia.
Qed.

Lemma recent_spec now key self (x : Q) :
  x ∈ recent now key self
  <-> x ∈ history self key /\ (now - x < inject_Z (window self))%Q.
Proof. unfold recent. rewrite list_elem_of_filter. tauto. Qed.

Lemma recent_none now key self :
  (forall x, x ∈ history self key ->
             (inject_Z (window self) <= now - x)%Q) ->
  recent now key self = [].
Proof.
  unfold recent. induction (history self key) as [|y l IH]; intros Hold.
  - done.
  - rewrite filter_cons_False.
    + apply IH. intros x Hx. apply Hold. by right.
    + apply Qle_not_lt. apply Hold. by left.
Qed.

(** C5: before each admission check the limiter keeps, of the history of
    the key, exactly the timestamps less than [window] seconds old (older
    entries are pruned); the request is admitted exactly when fewer than
    [requests] timestamps remain; a denied request reports
    [remaining = 0] and adds nothing to the history, an admitted one
    appends its own timestamp.  Hence, from an empty history, the first
    [requests] calls are all admitted, and once every recorded timestamp
    is at least [window] seconds old the next call is admitted again.  With
    limit 3 and window 60: three calls admit, a fourth within the window
    is denied with [remaining = 0], and a call after the window admits. *)
Theorem sliding_window_admission :
  (forall now key self,
      (forall x : Q,
          x ∈ recent now key self
          <-> x ∈ history self key
              /\ (now - x < inject_Z (window self))%Q)
      /\ ((is_allowed now key self).1.1 = true
          <-> Z.of_nat (length (recent now key self)) < requests self)
      /\ history (is_allowed now key self).2 key
         = (if (is_allowed now key self).1.1
            then recent now key self ++ [now]
            else recent now key self)
      /\ ((is_allowed now key self).1.1 = false ->
          remaining (is_allowed now key self).1.2 = 0))
  /\ (forall (times : list Q) key self,
        history self key = [] ->
        Z.of_nat (length times) <= requests self ->
        Forall (fun r => r.1 = true) (calls times key self).1)
  /\ (forall now key self,
        0 < requests self ->
        (forall x, x ∈ history self key ->
                   (inject_Z (window self) <= now - x)%Q) ->
        (is_allowed now key self).1.1 = true
        /\ history (is_allowed now key self).2 key = [now])
  /\ (fun r => (r.1, remaining r.2))
       <$> (calls [0; 1; 2; 3; 62]%Q "k" (init 3 60)).1
     = [(true, 2); (true, 1); (true, 0); (false, 0); (true, 2)].
Proof.
  split_and!.
  - intros now key self. split_and!.
    + apply recent_spec.
    + apply is_allowed_admits.
    + apply is_allowed_history.
    + rewrite is_allowed_unfold. cbn zeta.
      destruct (_ <=? _) eqn:Hle; cbn; [|done].
      apply Z.leb_le in Hle. lia.
  - intros times key self Hempty Hroom.
    apply calls_under_limit. rewrite Hempty. cbn. lia.
  - intros now key self Hpos Hold.
    pose proof (recent_none now key self Hold) as Hnone.
    assert (Hok : (is_allowed now key self).1.1 = true).
    { apply is_allowed_admits. rewrite Hnone. cbn. lia. }
    split; [done|]. by rewrite is_allowed_history, Hok, Hnone.
  - vm_compute. reflexivity.
Qed.

End RateLimiterProperties.


(* ===================================================================== *)
(** ** The statements at work on the sample instance                      *)
(* ===================================================================== *)

Section Scenario.

Import Sample.

(** *** Passwords *)

Lemma hash_then_verify_witness :
  contains_nul (truncated alice_password) = false
  /\ Passlib.salt_ok salt1 = true
  /\ Passlib.salt_ok salt2 = true
  /\ (exists h1 h2,
        hash_password (env := env) salt1 alice_password = Ok h1
        /\ hash_password (env := env) salt2 alice_password = Ok h2
        /\ verify_password (env := env) alice_password h1 = Ok true
        /\ verify_password (env := env) alice_password h2 = Ok true
        /\ (salt1 <> salt2 -> h1 <> h2))
  /\ (72 < String.length long_password)%nat
  /\ (exists h1 h2,
        hash_password (env := env) salt1 long_password = Ok h1
        /\ hash_password (env := env) salt2 long_password = Ok h2
        /\ verify_password (env := env) long_password h1 = Ok true
        /\ verify_password (env := env) long_password h2 = Ok true
        /\ (salt1 <> salt2 -> h1 <> h2)).
Proof.
  split; [reflexivity|]. split; [reflexivity|]. split; [reflexivity|].
  split; [|split; [vm_compute; lia|]].
  - apply (hash_then_verify (env := env) alice_password salt1 salt2);
      reflexivity.
  - apply (hash_then_verify (env := env) long_password salt1 salt2);
      reflexivity.
Defined.

(** The truncation cuts at 72 bytes and drops the syllable it cut through:
    70 bytes of the 73 remain. *)
Lemma truncated_long_password :
  String.length long_password = 73%nat
  /\ truncated long_password
     = "a" +:+ "한한한한한한한한한한한한" +:+ "한한한한한한한한한한한"
  /\ String.length (truncated long_password) = 70%nat.
Proof. split; [reflexivity|]. split; reflexivity. Qed.

(** A password with a NUL character is not hashed at all: passlib
    refuses it, so there is no hash to verify against. *)
Lemma hash_password_refuses_nul :
  Passlib.salt_ok salt1 = true
  /\ hash_password (env := env) salt1 nul_password = Raise PasswordValueError
  /\ ~ exists h,
        hash_password (env := env) salt1 nul_password = Ok h
        /\ verify_password (env := env) nul_password h = Ok true.
Proof.
  split; [reflexivity|]. split; [reflexivity|].
  intros (h & Hh & _). vm_compute in Hh. discriminate.
Defined.

Lemma verify_password_returns_or_raises_witness :
  Passlib.from_string alice_hash <> None
  /\ contains_nul (truncated "guess") = false
  /\ (exists b, verify_password (env := env) "guess" alice_hash = Ok b)
  /\ Passlib.from_string "$2b$12$tooshort" = None
  /\ (exists e,
       verify_password (env := env) "guess" "$2b$12$tooshort" = Raise e)
  /\ contains_nul (truncated nul_password) = true
  /\ (exists e,
       verify_password (env := env) nul_password alice_hash = Raise e).
Proof.
  destruct (verify_password_returns_or_raises (env := env) "guess" alice_hash)
    as (Hret & _ & _).
  destruct (verify_password_returns_or_raises (env := env)
              "guess" "$2b$12$tooshort") as (_ & Hbad & _).
  destruct (verify_password_returns_or_raises (env := env)
              nul_password alice_hash) as (_ & _ & Hnul).
  assert (Hparsed : Passlib.from_string alice_hash <> None)
    by (vm_compute; discriminate).
  split; [exact Hparsed|]. split; [reflexivity|].
  split; [apply Hret; [exact Hparsed | reflexivity]|].
  split; [reflexivity|]. split; [apply Hbad; reflexivity|].
  split; [reflexivity|]. apply Hnul; reflexivity.
Defined.

(** On a string that is no bcrypt hash [verify_password] raises instead
    of returning [False]. *)
Lemma verify_password_raises_on_unknown_hash :
  verify_password (env := env) "secret" "not-a-bcrypt-hash"
  = Raise UnknownHashError
  /\ verify_password (env := env) "secret" "not-a-bcrypt-hash" <> Ok false.
Proof. split; [reflexivity | vm_compute; discriminate]. Defined.

(** *** Tokens *)

Lemma verify_token_refuses_witness :
  refusal (env := env) access0 "refresh" 0
  /\ verify_token (env := env) access0 "refresh" 0 = None
  /\ refusal (env := env) forged "access" 0
  /\ verify_token (env := env)
       forged
       "access" 0 = None
  /\ refusal (env := env) access0 "access" (1801 * second)
  /\ verify_token (env := env) access0 "access" (1801 * second) = None.
Proof.
  destruct (verify_token_refuses (env := env)) as (Hrefuse & _ & _).
  assert (H1 : refusal (env := env) access0 "refresh" 0).
  { eapply WrongType; [reflexivity | vm_compute; discriminate]. }
  assert (H2 : refusal (env := env)
                 forged
                 "access" 0).
  { apply BadSignature. reflexivity. }
  assert (H3 : refusal (env := env) access0 "access" (1801 * second)).
  { eapply Expired; [reflexivity | vm_compute; reflexivity]. }
  split; [exact H1|]. split; [exact (Hrefuse _ _ _ H1)|].
  split; [exact H2|]. split; [exact (Hrefuse _ _ _ H2)|].
  split; [exact H3|]. exact (Hrefuse _ _ _ H3).
Defined.

(** *** Lockout *)

Lemma account_lockout_witness :
  (exists u',
      find_user "alice"
        (run (env := env) db0
           (attempt_event "alice" <$> (four_guesses ++ [guess 5])))
      = Some (0%nat, u')
      /\ failed_login_attempts u' = 5
      /\ locked_until u' = Some (5 * second + timedelta_minutes 30)
      /\ is_locked u' (5 * second) = true)
  /\ login (env := env) (6 * second) "j" good browser db_locked
     = (AccountLocked, db_locked)
  /\ (exists pair db' u',
        login (env := env) (31 * minute) "j" good browser db_locked
        = (Return pair, db')
        /\ find_user "alice" db' = Some (0%nat, u')
        /\ failed_login_attempts u' = 0
        /\ locked_until u' = None).
Proof.
  destruct (account_lockout (env := env)) as (Hfive & Hlocked & Hafter).
  split; [|split].
  - apply (Hfive "alice" db0 0%nat alice four_guesses (guess 5));
      [reflexivity | reflexivity | reflexivity | reflexivity |].
    repeat constructor.
  - apply (Hlocked (6 * second) "j" good browser db_locked 0%nat alice_locked
             (5 * second + timedelta_minutes 30));
      reflexivity.
  - apply (Hafter (31 * minute) "j" good browser db_locked 0%nat alice_locked);
      [reflexivity | | reflexivity | reflexivity].
    intros t [= <-]. vm_compute. discriminate.
Defined.

Lemma relock_after_expiry_witness :
  5 <= failed_login_attempts alice_locked
  /\ (exists db' u',
        login (env := env) (31 * minute) "j" bad browser db_locked
        = (InvalidCredentials, db')
        /\ find_user "alice" db' = Some (0%nat, u')
        /\ failed_login_attempts u' = 5 + 1
        /\ locked_until u' = Some (31 * minute + timedelta_minutes 30)
        /\ is_locked u' (31 * minute) = true)
  /\ (exists u',
        users (login (env := env) (6 * second) "j" good browser db_locked).2
          !! 0%nat = Some u'
        /\ (failed_login_attempts u' < 5 ->
            failed_login_attempts u' = 0
            /\ exists pair,
                (login (env := env) (6 * second) "j" good browser
                   db_locked).1 = Return pair)).
Proof.
  destruct (relock_after_expiry (env := env)) as (Hrelock & Hkeep & _ & _).
  split; [vm_compute; discriminate|]. split.
  - apply (Hrelock (31 * minute) "j" bad browser db_locked 0%nat alice_locked
             (5 * second + timedelta_minutes 30));
      try reflexivity; vm_compute; discriminate.
  - apply (Hkeep (6 * second) "j" good browser db_locked 0%nat alice_locked).
    reflexivity.
Defined.

Lemma login_failure_indistinguishable_witness :
  find_user "mallory" db0 = None
  /\ find_user "alice" db0 = Some (0%nat, alice)
  /\ (login (env := env) 0 "j" nobody browser db0).1
     = (login (env := env) 0 "j" bad browser db0).1
  /\ (login (env := env) 0 "j" bad browser db0).1
     = HTTPException 401 detail_invalid_credentials.
Proof.
  split; [reflexivity|]. split; [reflexivity|].
  apply (login_failure_indistinguishable (env := env)
           0 0 "j" "j" nobody bad browser browser db0 0%nat alice);
    reflexivity.
Defined.

(** While Alice's account is locked, a wrong password on her name is
    answered 403 AccountLocked and an unknown name 401: the two answers
    differ, and tell that her account exists. *)
Lemma locked_account_is_told_apart :
  find_user "mallory" db_locked = None
  /\ (exists i u, find_user "alice" db_locked = Some (i, u))
  /\ verify_password (env := env) "guess" alice_hash = Ok false
  /\ (login (env := env) (6 * second) "j" nobody browser db_locked).1
     = InvalidCredentials
  /\ (login (env := env) (6 * second) "j" bad browser db_locked).1
     = AccountLocked
  /\ (login (env := env) (6 * second) "j" nobody browser db_locked).1
     <> (login (env := env) (6 * second) "j" bad browser db_locked).1.
Proof.
  split; [reflexivity|]. split; [by eexists _, _|].
  split; [reflexivity|]. split; [reflexivity|]. split; [reflexivity|].
  vm_compute. discriminate.
Defined.

(** *** Sessions *)

Lemma db1_reachable : reachable (env := env) db1.
Proof.
  exact (reachable_step db0 (EvLogin 0 "j1" good browser)
           (reachable_start [alice])).
Defined.

Lemma refresh_tokens_single_use_witness :
  reachable (env := env) db1
  /\ refresh_token (env := env) (10 * second) "j2" t1 db1
     = (Return (create_token_pair (env := env) (10 * second) "j2"
                  (SubjectStr "1")), db2)
  /\ refresh_token (env := env) (11 * second) "j3" t1
       (run (env := env) db2 [EvLogout (11 * second) t1])
     = (SessionExpired, run (env := env) db2 [EvLogout (11 * second) t1])
  /\ refresh_token (env := env) (8 * day) "j3" t1
       (run (env := env) db2 [EvLogout (11 * second) t1])
     = (InvalidToken, run (env := env) db2 [EvLogout (11 * second) t1]).
Proof.
  destruct (refresh_tokens_single_use (env := env) db1 db1_reachable)
    as (_ & Hrotate).
  assert (Hfirst :
            refresh_token (env := env) (10 * second) "j2" t1 db1
            = (Return (create_token_pair (env := env) (10 * second) "j2"
                         (SubjectStr "1")), db2))
    by reflexivity.
  destruct (Hrotate _ _ _ _ _ Hfirst) as (_ & Hreuse).
  split; [exact db1_reachable|]. split; [exact Hfirst|]. split.
  - apply (Hreuse [EvLogout (11 * second) t1] (11 * second) "j3").
    vm_compute. discriminate.
  - apply (Hreuse [EvLogout (11 * second) t1] (8 * day) "j3").
    reflexivity.
Defined.

(** Alice refreshes with [t1] at second 10 and again eight days later:
    the second attempt, made after [t1] expired, is answered InvalidToken,
    not SessionExpired. *)
Lemma reuse_after_expiry_is_invalid_token :
  reachable (env := env) db1
  /\ (refresh_token (env := env) (10 * second) "j2" t1 db1).1
     = Return (create_token_pair (env := env) (10 * second) "j2"
                 (SubjectStr "1"))
  /\ (refresh_token (env := env) (10 * second) "j2" t1 db1).2 = db2
  /\ (refresh_token (env := env) (8 * day) "j3" t1 db2).1 = InvalidToken
  /\ (refresh_token (env := env) (8 * day) "j3" t1 db2).1
     <> SessionExpired.
Proof.
  split; [exact db1_reachable|]. split; [reflexivity|].
  split; [reflexivity|]. split; [reflexivity|].
  vm_compute. discriminate.
Defined.

Lemma session_expiry_is_issue_time_witness :
  0 < refresh_token_expire_days (settings (Environment := env))
  /\ (exists s p,
        last (sessions db1) = Some s
        /\ refresh_token_ s = t1
        /\ created_at s = 0
        /\ expires_at s = 0
        /\ payload_of (refresh_token_ s) = Some p
        /\ exp p = timegm (0 + timedelta_days 7)
        /\ expires_at s <> created_at s + timedelta_days 7)
  /\ (exists s p,
        last (sessions db2) = Some s
        /\ created_at s = 10 * second
        /\ expires_at s = 10 * second
        /\ payload_of (refresh_token_ s) = Some p
        /\ exp p = timegm (10 * second + timedelta_days 7)
        /\ expires_at s <> created_at s + timedelta_days 7).
Proof.
  assert (Hdays : 0 < refresh_token_expire_days (settings (Environment := env)))
    by reflexivity.
  destruct (session_expiry_is_issue_time (env := env) Hdays)
    as (Hlogin & Hrefresh).
  split; [exact Hdays|]. split.
  - destruct (Hlogin 0 "j1" good browser db0
                (create_token_pair (env := env) 0 "j1" (SubjectInt 1)) db1
                eq_refl)
      as (s & p & H1 & H2 & H3 & H4 & H5 & H6 & H7).
    exists s, p. split_and!; done.
  - destruct (Hrefresh (10 * second) "j2" t1 db1
                (create_token_pair (env := env) (10 * second) "j2"
                   (SubjectStr "1")) db2 eq_refl)
      as (s & p & H1 & H2 & H3 & H4 & H5 & H6 & H7).
    exists s, p. split_and!; done.
Defined.

Lemma logout_best_effort_witness :
  logout (5 * second) t1 db0
  = (Return {| message := message_logged_out |}, db0)
  /\ (exists db',
        logout (9 * second) t1 db_out
        = (Return {| message := message_logged_out |}, db')
        /\ users db' = users db_out
        /\ (db' = db_out <-> 9 * second = 5 * second)).
Proof.
  destruct logout_best_effort as (Hnone & Hagain).
  split.
  - apply Hnone. intros s Hs. by apply elem_of_nil in Hs.
  - destruct (Hagain (9 * second) t1 db_out 0%nat
                (revoke (new_session 0 1 t1 (Some "10.0.0.7") (Some "curl") 1)
                   (5 * second))
                (5 * second))
      as (db' & H1 & H2 & H3 & H4 & H5 & H6); [reflexivity..|].
    exists db'. split_and!; done.
Defined.

(** Alice logs out at second 5 and again at second 9: the second logout
    is no error, but it is not a no-op either, the revocation time of her
    session moves from second 5 to second 9. *)
Lemma second_logout_rewrites_revocation_time :
  revoked_at <$> sessions db_out = [Some (5 * second)]
  /\ is_active <$> sessions db_out = [false]
  /\ (logout (9 * second) t1 db_out).1
     = Return {| message := message_logged_out |}
  /\ revoked_at <$> sessions (logout (9 * second) t1 db_out).2
     = [Some (9 * second)]
  /\ (logout (9 * second) t1 db_out).2 <> db_out.
Proof.
  split; [reflexivity|]. split; [reflexivity|]. split; [reflexivity|].
  split; [reflexivity|]. vm_compute. discriminate.
Defined.

(** *** Rate limiter *)

Lemma sliding_window_admission_witness :
  RateLimiter.history (RateLimiter.init 3 60) "k" = []
  /\ Forall (fun r => r.1 = true)
       (RateLimiter.calls [0; 1; 2]%Q "k" (RateLimiter.init 3 60)).1
  /\ (RateLimiter.is_allowed 62 "k"
        (RateLimiter.calls [0; 1; 2]%Q "k" (RateLimiter.init 3 60)).2).1.1
     = true
  /\ ((RateLimiter.is_allowed 3 "k"
         (RateLimiter.calls [0; 1; 2]%Q "k" (RateLimiter.init 3 60)).2).1.1
      = false ->
      RateLimiter.remaining
        (RateLimiter.is_allowed 3 "k"
           (RateLimiter.calls [0; 1; 2]%Q "k" (RateLimiter.init 3 60)).2).1.2
      = 0).
Proof.
  destruct sliding_window_admission as (Hcall & Hfirst & Hagain & _).
  split; [reflexivity|]. split; [|split].
  - apply Hfirst; [reflexivity | vm_compute; discriminate].
  - apply Hagain; [reflexivity|].
    intros x Hx. vm_compute in Hx.
    apply list_elem_of_In in Hx. cbn in Hx.
    destruct Hx as [<- | [<- | [<- | []]]]; vm_compute; discriminate.
  - apply Hcall.
Defined.

End Scenario.

(* ===================================================================== *)
(** ** Properties of the character tests and validators                   *)
(* ===================================================================== *)

Section ValidatorProperties.

Context {ucd : UnicodeData}.

Lemma word_byte_not_cont b : word_byte b = true -> Utf8.is_cont b = false.
Proof.
  unfold word_byte, Utf8.is_cont, Utf8.code. intros H.
  destruct (128 <=? N_of_ascii b)%N eqn:Hge; [|done].
  apply N.leb_le in Hge.
  repeat (apply orb_true_iff in H as [H|H]);
    try (apply andb_true_iff in H as [_ H]; apply N.leb_le in H; lia).
  apply N.eqb_eq in H. lia.
Qed.

Lemma word_byte_ascii b : word_byte b = true -> (N_of_ascii b <? 128)%N = true.
Proof.
  unfold word_byte. intros H. apply N.ltb_lt.
  repeat (apply orb_true_iff in H as [H|H]);
    try (apply andb_true_iff in H as [_ H]; apply N.leb_le in H; lia).
  apply N.eqb_eq in H. lia.
Qed.

(** On a string without continuation bytes the characters are the bytes. *)
Lemma scan_plain (s : string) :
  forallb (fun b => negb (Utf8.is_cont b)) (list_ascii_of_string s) = true ->
  PyStr.scan s
  = (EmptyString, (fun b => String b EmptyString) <$> list_ascii_of_string s).
Proof.
  induction s as [|b s IH]; [done|]. cbn [list_ascii_of_string forallb].
  intros [Hb Hs]%andb_true_iff. cbn [PyStr.scan]. rewrite (IH Hs).
  apply negb_true_iff in Hb. by rewrite Hb.
Qed.

Lemma chars_plain (s : string) :
  forallb (fun b => negb (Utf8.is_cont b)) (list_ascii_of_string s) = true ->
  PyStr.chars s = (fun b => String b EmptyString) <$> list_ascii_of_string s.
Proof. intros H. unfold PyStr.chars. by rewrite (scan_plain s H). Qed.

Lemma length_list_ascii (s : string) :
  length (list_ascii_of_string s) = String.length s.
Proof. induction s as [|b s IH]; [done|]. cbn. by rewrite IH. Qed.

Lemma len_plain (s : string) :
  forallb (fun b => negb (Utf8.is_cont b)) (list_ascii_of_string s) = true ->
  PyStr.len s = Z.of_nat (String.length s).
Proof.
  intros H. unfold PyStr.len.
  by rewrite (chars_plain s H), length_fmap, length_list_ascii.
Qed.

Lemma newline_not_cont : Utf8.is_cont "010"%char = false.
Proof. reflexivity. Qed.

(** What the pattern of [validate_username] matches. *)
Lemma match_word_pattern_spec (s : string) :
  match_word_pattern s = true
  <-> exists body,
      body <> EmptyString /\ all_word_bytes body = true
      /\ (s = body \/ s = body +:+ newline).
Proof.
  induction s as [|b s IH].
  - split; [done|]. intros (body & Hne & _ & [Heq | Heq]).
    + by subst.
    + destruct body; [done | discriminate].
  - cbn [match_word_pattern]. rewrite andb_true_iff. split.
    + intros [Hb Hrest]. destruct s as [|c s'].
      * exists (String b EmptyString). cbn. rewrite Hb. eauto.
      * assert (Hcases : (s' = EmptyString /\ c = "010"%char)
                         \/ match_word_pattern (String c s') = true).
        { destruct s' as [|d s'']; [|by right].
          apply orb_true_iff in Hrest as [Hnl | Hm]; [|by right].
          left. split; [done|]. by apply Ascii.eqb_eq. }
        destruct Hcases as [[-> ->] | Hm].
        -- exists (String b EmptyString). cbn. rewrite Hb. eauto.
        -- apply IH in Hm as (body & Hne & Hall & Hs).
           exists (String b body). cbn. rewrite Hb, Hall.
           split_and!; [done | done |].
           destruct Hs as [-> | ->]; [by left | by right].
    + intros (body & Hne & Hall & Hs).
      destruct body as [|b' body']; [done|]. cbn in Hall.
      apply andb_true_iff in Hall as [Hb' Hall'].
      assert (b = b') as <-.
      { destruct Hs as [Hs | Hs]; cbn in Hs; by injection Hs. }
      split; [done|].
      assert (Hs' : s = body' \/ s = body' +:+ newline).
      { destruct Hs as [Hs | Hs]; cbn in Hs; injection Hs; eauto. }
      destruct body' as [|b'' body''].
      * destruct Hs' as [-> | ->]; [done|]. cbn. done.
      * assert (Hm : match_word_pattern s = true).
        { apply IH. exists (String b'' body''). eauto. }
        destruct s as [|c s']; [by destruct Hs' | ].
        destruct s' as [|d s'']; [|done].
        apply orb_true_iff. by right.
Qed.

Lemma all_word_plain (s : string) :
  all_word_bytes s = true ->
  forallb (fun b => negb (Utf8.is_cont b)) (list_ascii_of_string s) = true.
Proof.
  induction s as [|b s IH]; [done|]. cbn.
  intros [Hb Hs]%andb_true_iff.
  by rewrite (word_byte_not_cont b Hb), (IH Hs).
Qed.

Lemma list_ascii_app (a b : string) :
  list_ascii_of_string (a +:+ b)
  = list_ascii_of_string a ++ list_ascii_of_string b.
Proof.
  induction a as [|c a IH]; [done|].
  change (list_ascii_of_string (String c a +:+ b))
    with (c :: list_ascii_of_string (a +:+ b)).
  by rewrite IH.
Qed.

Lemma matched_plain (s : string) :
  match_word_pattern s = true ->
  forallb (fun b => negb (Utf8.is_cont b)) (list_ascii_of_string s) = true.
Proof.
  intros (body & _ & Hall & [-> | ->])%match_word_pattern_spec.
  - by apply all_word_plain.
  - rewrite list_ascii_app, forallb_app, (all_word_plain _ Hall). done.
Qed.

Lemma first_char_plain (b : ascii) (s : string) :
  forallb (fun b => negb (Utf8.is_cont b)) (list_ascii_of_string (String b s))
  = true ->
  PyStr.chars (String b s)
  = String b EmptyString :: ((fun c => String c EmptyString)
                               <$> list_ascii_of_string s).
Proof. intros H. by rewrite (chars_plain _ H). Qed.

Lemma starts_with_digit_app (body rest : string) :
  body <> EmptyString ->
  starts_with_ascii_digit (body +:+ rest) = starts_with_ascii_digit body.
Proof. by destruct body. Qed.

(** X1: [validate_username] accepts exactly the strings of 3 to 50
    characters made of a body of ASCII letters, digits and underscores that
    does not start with a digit, optionally followed by one final newline
    (the [$] of the pattern matches before it); it returns [(True, None)]
    on these and [(False, message)] on every other string. *)
Theorem validate_username_accepts (username : string) :
  ((validate_username username).1 = true
   <-> exists body,
       (username = body \/ username = body +:+ newline)
       /\ body <> EmptyString
       /\ all_word_bytes body = true
       /\ starts_with_ascii_digit body = false
       /\ (3 <= String.length username <= 50)%nat)
  /\ ((validate_username username).1 = true
      <-> (validate_username username).2 = None).
Proof.
  unfold validate_username.
  destruct (String.eqb username "") eqn:Hempty.
  { apply String.eqb_eq in Hempty as ->. split; [|done]. split; [done|].
    intros (body & [Hu | Hu] & Hne & _); destruct body; done. }
  destruct (match_word_pattern username) eqn:Hmatch; cycle 1.
  { cbn [negb]. split.
    - split; [by repeat case_match|].
      intros (body & Hu & Hne & Hall & _).
      assert (match_word_pattern username = true)
        by (apply match_word_pattern_spec; eauto).
      congruence.
    - by repeat case_match. }
  pose proof (matched_plain _ Hmatch) as Hplain.
  rewrite (len_plain _ Hplain). cbn [negb].
  apply match_word_pattern_spec in Hmatch as (body & Hne & Hall & Hu).
  assert (Hfirst :
            match PyStr.chars username with
            | c :: _ => py_isdigit c
            | [] => false
            end = starts_with_ascii_digit body).
  { destruct body as [|b body']; [done|].
    cbn in Hall. apply andb_true_iff in Hall as [Hb _].
    assert (Hhead : exists rest, username = String b rest)
      by (destruct Hu as [-> | ->]; eauto).
    destruct Hhead as [rest ->]. rewrite (first_char_plain _ _ Hplain).
    unfold py_isdigit, PyStr.ascii_code. by rewrite (word_byte_ascii b Hb). }
  rewrite Hfirst.
  destruct (Z.of_nat (String.length username) <? 3) eqn:Hshort.
  { apply Z.ltb_lt in Hshort. split; [|done]. split; [done|].
    intros (_ & _ & _ & _ & _ & Hlen). lia. }
  destruct (50 <? Z.of_nat (String.length username)) eqn:Hlong.
  { apply Z.ltb_lt in Hlong. split; [|done]. split; [done|].
    intros (_ & _ & _ & _ & _ & Hlen). lia. }
  apply Z.ltb_ge in Hshort, Hlong.
  destruct (starts_with_ascii_digit body) eqn:Hdigit.
  - split; [|done]. split; [done|].
    intros (body' & Hu' & Hne' & Hall' & Hdigit' & _).
    assert (starts_with_ascii_digit username = true).
    { destruct Hu as [-> | ->]; [done|]. by rewrite starts_with_digit_app. }
    assert (starts_with_ascii_digit username = false).
    { destruct Hu' as [-> | ->]; [done|]. by rewrite starts_with_digit_app. }
    congruence.
  - split; [|done]. split; [|done]. intros _.
    exists body. split_and!; try done; lia.
Qed.

Lemma strength_messages_distinct : NoDup strength_messages.
Proof. apply (bool_decide_unpack _). by vm_compute. Qed.

(** X2: [check_password_strength] checks its five rules independently: the
    message of a rule is in the list exactly when the rule is broken, the
    messages come in the order of the checks, and the password passes
    exactly when the list is empty, so that a caller reading [errors[0]]
    after a failure always finds a message there. *)
Theorem check_password_strength_report (password : string) :
  let cs := PyStr.chars password in
  let result := check_password_strength password in
  (result.1 = true <-> result.2 = [])
  /\ (result.1 = false -> exists first more, result.2 = first :: more)
  /\ sublist result.2 strength_messages
  /\ (strength_too_short ∈ result.2 <-> PyStr.len password < 8)
  /\ (strength_no_upper ∈ result.2 <-> existsb py_isupper cs = false)
  /\ (strength_no_lower ∈ result.2 <-> existsb py_islower cs = false)
  /\ (strength_no_digit ∈ result.2 <-> existsb py_isdigit cs = false)
  /\ (strength_no_symbol ∈ result.2 <-> existsb is_symbol cs = false).
Proof.
  cbn zeta. unfold check_password_strength.
  destruct (PyStr.len password <? 8) eqn:Hlen;
    [apply Z.ltb_lt in Hlen | apply Z.ltb_ge in Hlen];
    destruct (existsb py_isupper _);
    destruct (existsb py_islower _);
    destruct (existsb py_isdigit _);
    destruct (existsb is_symbol _);
    cbn [negb app fst snd];
    (split_and!;
     [ split; intros H; first [done | by vm_compute in H | by vm_compute]
     | first [ by intros _; eexists _, _ | done ]
     | unfold strength_messages;
       repeat first [apply sublist_nil | apply sublist_skip | apply sublist_cons]
     | ..]);
    (split; intros H;
     first [ done | lia
           | apply (bool_decide_unpack _); by vm_compute
           | exfalso; apply (bool_decide_pack _) in H; by vm_compute in H ]).
Qed.

End ValidatorProperties.

(* ===================================================================== *)
(** ** Properties of issued tokens and of the bearer dependencies         *)
(* ===================================================================== *)

Section BearerProperties.

Context {env : Environment}.

(** [int(str(n)) == n] *)
Lemma py_int_py_str (n : Z) : py_int (py_str n) = Some n.
Proof.
  unfold py_int, py_str.
  assert (Hnn : forall p, Pos.to_uint p <> Decimal.Nil)
    by apply DecimalPos.Unsigned.to_uint_nonnil.
  rewrite NilZero.isi.
  - cbn. by rewrite DecimalZ.of_to.
  - destruct n; cbn; try discriminate. intros [= H]. by apply Hnn in H.
  - destruct n; cbn; try discriminate. intros [= H]. by apply Hnn in H.
Qed.

Lemma own_signature_valid (p : TokenPayload) :
  Jose.signature_valid jws_sign
    (Jose.encode jws_sign p (secret_key settings) (algorithm settings))
    (secret_key settings) [algorithm settings] = true.
Proof.
  unfold Jose.signature_valid, Jose.encode.
  rewrite String.eqb_refl, andb_true_r.
  apply bool_decide_eq_true. by left.
Qed.

(** A payload signed by the server verifies under its own type until the
    second of its [exp] is over. *)
Lemma verify_own (p : TokenPayload) (now : datetime) :
  verify_token
    (Jose.encode jws_sign p (secret_key settings) (algorithm settings))
    (type p) now
  = if exp p <? timegm now then None else Some p.
Proof.
  pose proof (own_signature_valid p) as Hsig.
  unfold verify_token, Jose.decode, Jose.encode in *.
  rewrite Hsig. destruct (exp p <? timegm now); [done|].
  by rewrite bool_decide_eq_false_2 by (intros H; by apply H).
Qed.

Lemma create_access_token_encode now subj delta :
  create_access_token now subj delta
  = Jose.encode jws_sign
      {| sub := str_of_subject subj;
         exp := timegm (now + lifetime delta
                                (timedelta_minutes
                                   (access_token_expire_minutes settings)));
         iat := timegm now; type := "access"; jti := None |}
      (secret_key settings) (algorithm settings).
Proof.
  unfold create_access_token, lifetime.
  destruct delta as [d|]; [|done]. by case_bool_decide.
Qed.

Lemma create_refresh_token_encode now j subj delta :
  create_refresh_token now j subj delta
  = Jose.encode jws_sign
      {| sub := str_of_subject subj;
         exp := timegm (now + lifetime delta
                                (timedelta_days
                                   (refresh_token_expire_days settings)));
         iat := timegm now; type := "refresh"; jti := Some j |}
      (secret_key settings) (algorithm settings).
Proof.
  unfold create_refresh_token, lifetime.
  destruct delta as [d|]; [|done]. by case_bool_decide.
Qed.

(** An access token verifies as such until the second of its expiry is
    over. *)
Lemma access_token_verifies now subj delta now' :
  let p := {| sub := str_of_subject subj;
              exp := timegm (now + lifetime delta
                                     (timedelta_minutes
                                        (access_token_expire_minutes
                                           settings)));
              iat := timegm now; type := "access"; jti := None |} in
  verify_token (create_access_token now subj delta) "access" now'
  = (if exp p <? timegm now' then None else Some p).
Proof.
  intros p. rewrite create_access_token_encode. fold p.
  change "access" with (type p). by rewrite verify_own.
Qed.

(** X3: a token the server issues carries the subject as a string, the
    issue second and an expiry that lies [expires_delta] after the issue
    instant, or the configured default when [expires_delta] is absent or
    zero; [verify_token] under the token's own type returns exactly this
    payload at every instant up to and including the expiry second and
    nothing afterwards, and [get_current_user] returns the subject of an
    access token over the same span. *)
Theorem issued_tokens_verify :
  (forall now subj delta now',
      let p := {| sub := str_of_subject subj;
                  exp := timegm (now + lifetime delta
                                         (timedelta_minutes
                                            (access_token_expire_minutes
                                               settings)));
                  iat := timegm now; type := "access"; jti := None |} in
      payload_of (create_access_token now subj delta) = Some p
      /\ verify_token (create_access_token now subj delta) "access" now'
         = (if exp p <? timegm now' then None else Some p)
      /\ JwtHandler.get_current_user (create_access_token now subj delta) now'
         = (if exp p <? timegm now' then None
            else Some (str_of_subject subj)))
  /\ (forall now j subj delta now',
        let p := {| sub := str_of_subject subj;
                    exp := timegm (now + lifetime delta
                                           (timedelta_days
                                              (refresh_token_expire_days
                                                 settings)));
                    iat := timegm now; type := "refresh"; jti := Some j |} in
        payload_of (create_refresh_token now j subj delta) = Some p
        /\ verify_token (create_refresh_token now j subj delta) "refresh" now'
           = (if exp p <? timegm now' then None else Some p)).
Proof.
  split.
  - intros now subj delta now' p.
    unfold JwtHandler.get_current_user.
    rewrite create_access_token_encode. fold p.
    change "access" with (type p). rewrite verify_own.
    split; [done|]. split; [done|]. by destruct (exp p <? timegm now').
  - intros now j subj delta now' p.
    rewrite create_refresh_token_encode. fold p.
    change "refresh" with (type p). by rewrite verify_own.
Qed.

Lemma find_by_id (l : list User) (i : nat) (u : User) :
  NoDup (user_id_ <$> l) ->
  l !! i = Some u ->
  list_find (fun v => user_id_ v = user_id_ u) l = Some (i, u).
Proof.
  intros Hnd Hi. apply list_find_Some. split_and!; [done | done |].
  intros k y Hk Hlt Heq.
  assert (k = i); [|lia].
  apply (NoDup_lookup (user_id_ <$> l) k i (user_id_ u) Hnd);
    rewrite list_lookup_fmap.
  - by rewrite Hk; cbn; rewrite Heq.
  - by rewrite Hi.
Qed.

(** The shape of a login that returns. *)
Lemma login_returns now j req http db pair db' :
  login now j req http db = (Return pair, db') ->
  exists i u,
    find_user (login_username req) db = Some (i, u)
    /\ is_locked u now = false
    /\ verify_password (login_password req) (hashed_password u) = Ok true
    /\ pair = create_token_pair now j (SubjectInt (user_id_ u))
    /\ (refresh_token_of pair ∉ tokens (sessions db))
    /\ users db' = <[i := record_success u now]> (users db)
    /\ sessions db'
       = sessions db
         ++ [new_session now (user_id_ u) (refresh_token_of pair)
               (client_host http) (header_user_agent http)
               (Db.next_session_id db)].
Proof.
  unfold login.
  destruct (find_user _ db) as [[i u]|] eqn:Hfind; [|done].
  destruct (is_locked u now) eqn:Hlock; [done|].
  destruct (verify_password _ _) as [[|]|e] eqn:Hpw; try done.
  destruct (Db.add_session _ _) as [db''|e] eqn:Hadd; [|done].
  apply add_session_Ok in Hadd as [Hfresh ->]. intros [= <- <-].
  exists i, u. split_and!; done.
Qed.

Lemma ids_insert (l : list User) (i : nat) (u u' : User) :
  l !! i = Some u -> user_id_ u' = user_id_ u ->
  user_id_ <$> <[i := u']> l = user_id_ <$> l.
Proof.
  intros Hi Hid. rewrite list_fmap_insert. apply list_insert_id.
  by rewrite list_lookup_fmap, Hi, Hid.
Qed.

(** X4: the access token returned by a login authenticates as the account
    that logged in: while the token lasts, [get_current_user] returns that
    account's row as the login left it (counter 0, no lock, last login
    set), [get_current_active_user] does too when the account is active,
    and the refresh token of the pair is refused as a bearer credential. *)
Theorem login_tokens_authenticate now j req http db pair db' :
  NoDup (user_id_ <$> users db) ->
  login now j req http db = (Return pair, db') ->
  exists i u,
    find_user (login_username req) db = Some (i, u)
    /\ users db' !! i = Some (record_success u now)
    /\ (forall now',
          timegm now'
          <= timegm (now + timedelta_minutes
                             (access_token_expire_minutes settings)) ->
          Dependencies.get_current_user now' (access_token pair) db'
          = Pass (i, record_success u now)
          /\ (user_is_active u = true ->
              Dependencies.get_current_active_user now' (access_token pair) db'
              = Pass (i, record_success u now)))
    /\ (forall now' db'',
          Dependencies.get_current_user now' (refresh_token_of pair) db''
          = Deny 401 Dependencies.detail_bad_token
              Dependencies.www_authenticate).
Proof.
  intros Hnd Hret.
  apply login_returns in Hret
    as (i & u & Hfind & _ & _ & -> & _ & Husers & _).
  pose proof Hfind as Hrow.
  unfold find_user in Hrow. apply list_find_Some in Hrow as (Hi & _ & _).
  assert (Hi' : users db' !! i = Some (record_success u now)).
  { rewrite Husers. apply list_lookup_insert_eq. by eapply lookup_lt_Some. }
  assert (Hnd' : NoDup (user_id_ <$> users db')).
  { rewrite Husers. by rewrite (ids_insert _ _ u). }
  exists i, u. split_and!; [done | done | |].
  - intros now' Hlive.
    assert (Hget : Dependencies.get_current_user now'
                     (access_token
                        (create_token_pair now j (SubjectInt (user_id_ u))))
                     db'
                   = Pass (i, record_success u now)).
    { unfold Dependencies.get_current_user. cbn [create_token_pair access_token].
      rewrite (access_token_verifies now (SubjectInt (user_id_ u)) None now').
      cbn [exp lifetime].
      rewrite (proj2 (Z.ltb_ge _ _)) by done.
      cbn [sub str_of_subject]. rewrite py_int_py_str.
      pose proof (find_by_id _ i (record_success u now) Hnd' Hi') as Hrow.
      cbn [record_success user_id_] in Hrow. by rewrite Hrow. }
    split; [done|]. intros Hactive.
    unfold Dependencies.get_current_active_user. rewrite Hget.
    cbn. by rewrite Hactive.
  - intros now' db''. unfold Dependencies.get_current_user.
    cbn [create_token_pair refresh_token_of].
    rewrite create_refresh_token_encode.
    unfold verify_token, Jose.decode, Jose.encode.
    destruct (Jose.signature_valid _ _ _ _); [|done].
    by destruct (_ <? _).
Qed.

Lemma logout_users now t db : users (logout now t db).2 = users db.
Proof. unfold logout. by repeat case_match. Qed.

Lemma refresh_users now j t db : users (refresh_token now j t db).2 = users db.
Proof.
  unfold refresh_token. repeat case_match; try done.
  unfold Db.add_session in *. repeat case_match; by simplify_eq.
Qed.

Lemma bearer_reads_users now credentials db1 db2 :
  users db1 = users db2 ->
  Dependencies.get_current_active_user now credentials db1
  = Dependencies.get_current_active_user now credentials db2.
Proof.
  intros Heq.
  unfold Dependencies.get_current_active_user, Dependencies.get_current_user.
  by rewrite Heq.
Qed.

(** X5: revoking or rotating a session does not touch bearer
    authentication: after a logout or a refresh, whatever its outcome,
    [get_current_active_user] answers every access token as it did
    before, so an access token outlives the logout of its session until
    its own expiry. *)
Theorem access_token_outlives_session :
  (forall now t now' credentials db,
      Dependencies.get_current_active_user now' credentials (logout now t db).2
      = Dependencies.get_current_active_user now' credentials db)
  /\ (forall now j t now' credentials db,
        Dependencies.get_current_active_user now' credentials
          (refresh_token now j t db).2
        = Dependencies.get_current_active_user now' credentials db).
Proof.
  split.
  - intros. apply bearer_reads_users, logout_users.
  - intros. apply bearer_reads_users, refresh_users.
Qed.

End BearerProperties.

(* ===================================================================== *)
(** ** Properties of [register] and of the accounts table                 *)
(* ===================================================================== *)

Section RegisterProperties.

Context {env : Environment} {ucd : UnicodeData}.
Implicit Types (db : Database) (u : User).

Lemma hash_password_Ok salt_drawn password h :
  hash_password salt_drawn password = Ok h <->
  contains_nul (truncated password) = false
  /\ h = "$2b$" +:+ "12" +:+ "$" +:+ salt_drawn
           +:+ bcrypt_digest "$2b$" 12 salt_drawn (truncated password).
Proof.
  unfold hash_password, Passlib.hash. fold (truncated password).
  destruct (contains_nul (truncated password)).
  - split; [done | by intros [? _]].
  - split; [by intros [= <-] | by intros [_ ->]].
Qed.

(** X6: [register] inserts a row exactly when the e-mail and the username
    are both unused, the username is valid, the password is strong and its
    first 72 bytes hold no NUL; the row then is the last one, with the next
    id, the bcrypt hash of the password, counter 0 and no lock.  In every
    other case the tables are left as they were, and the e-mail conflict
    is reported before the username conflict, which is reported before
    any validation message. *)
Theorem register_outcome salt_drawn (request : RegisterRequest) db :
  let r := register salt_drawn request db in
  let fresh_email := forall u, u ∈ users db -> email u <> reg_email request in
  let fresh_username :=
    forall u, u ∈ users db -> username u <> reg_username request in
  ((exists m, r.1 = Return m)
   <-> fresh_email /\ fresh_username
       /\ (validate_username (reg_username request)).1 = true
       /\ (check_password_strength (reg_password request)).1 = true
       /\ contains_nul (truncated (reg_password request)) = false)
  /\ (forall m, r.1 = Return m ->
      m = {| message := message_registered |}
      /\ exists h,
          hash_password salt_drawn (reg_password request) = Ok h
          /\ r.2 = Db.set_users db
                     (users db ++ [new_user (next_user_id db) request h]))
  /\ ((forall m, r.1 <> Return m) -> r.2 = db)
  /\ (~ fresh_email -> r.1 = HTTPException 400 detail_email_taken)
  /\ (fresh_email -> ~ fresh_username ->
      r.1 = HTTPException 400 detail_username_taken).
Proof.
  cbn zeta. unfold register.
  destruct (list_find (fun u => email u = reg_email request) (users db))
    as [[i u]|] eqn:Hemail.
  { apply list_find_Some in Hemail as (Hi & Heq & _).
    assert (Hin : u ∈ users db) by (apply list_elem_of_lookup; eauto).
    cbn. split_and!.
    - split; [by intros [m ?]|]. intros (Hfresh & _). by destruct (Hfresh u).
    - done.
    - done.
    - done.
    - intros Hfresh _. by destruct (Hfresh u). }
  rewrite list_find_None, Forall_forall in Hemail.
  destruct (list_find (fun u => username u = reg_username request) (users db))
    as [[i u]|] eqn:Hname.
  { apply list_find_Some in Hname as (Hi & Heq & _).
    assert (Hin : u ∈ users db) by (apply list_elem_of_lookup; eauto).
    cbn. split_and!.
    - split; [by intros [m ?]|]. intros (_ & Hfresh & _). by destruct (Hfresh u).
    - done.
    - done.
    - intros Hnot. by destruct Hnot.
    - done. }
  rewrite list_find_None, Forall_forall in Hname.
  destruct (validate_username (reg_username request)) as [valid error].
  destruct valid; cbn [negb fst]; cycle 1.
  { cbn. split_and!.
    - split; [by intros [m ?] | by intros (_ & _ & ? & _)].
    - done.
    - done.
    - intros Hnot. by destruct Hnot.
    - intros _ Hnot. by destruct Hnot. }
  destruct (check_password_strength (reg_password request)) as [strong errors].
  destruct strong; cbn [negb fst]; cycle 1.
  { cbn. split_and!.
    - split; [by intros [m ?] | by intros (_ & _ & _ & ? & _)].
    - done.
    - done.
    - intros Hnot. by destruct Hnot.
    - intros _ Hnot. by destruct Hnot. }
  destruct (hash_password salt_drawn (reg_password request)) as [h|e] eqn:Hhash.
  - apply hash_password_Ok in Hhash as Hh. destruct Hh as [Hnul _].
    cbn. split_and!.
    + split; [by intros _ | by eauto].
    + intros m [= <-]. split; [done|]. eauto.
    + intros Hnever. by destruct (Hnever {| message := message_registered |}).
    + intros Hnot. by destruct Hnot.
    + intros _ Hnot. by destruct Hnot.
  - assert (Hnul : contains_nul (truncated (reg_password request)) = true).
    { destruct (contains_nul (truncated (reg_password request))) eqn:Hn; [done|].
      assert (exists h, hash_password salt_drawn (reg_password request) = Ok h)
        as [h Hh] by (eexists; by apply hash_password_Ok).
      congruence. }
    cbn. split_and!.
    + split; [by intros [m ?]|]. intros (_ & _ & _ & _ & ?). congruence.
    + done.
    + done.
    + intros Hnot. by destruct Hnot.
    + intros _ Hnot. by destruct Hnot.
Qed.

(** The shape of a registration that returns. *)
Lemma register_returns salt_drawn (request : RegisterRequest) db m db' :
  register salt_drawn request db = (Return m, db') ->
  (forall u, u ∈ users db -> email u <> reg_email request)
  /\ (forall u, u ∈ users db -> username u <> reg_username request)
  /\ (validate_username (reg_username request)).1 = true
  /\ (check_password_strength (reg_password request)).1 = true
  /\ exists h,
      hash_password salt_drawn (reg_password request) = Ok h
      /\ db' = Db.set_users db
                 (users db ++ [new_user (next_user_id db) request h]).
Proof.
  unfold register.
  destruct (list_find (fun u => email u = reg_email request) (users db))
    as [[i u]|] eqn:Hemail; [done|].
  rewrite list_find_None, Forall_forall in Hemail.
  destruct (list_find (fun u => username u = reg_username request) (users db))
    as [[i u]|] eqn:Hname; [done|].
  rewrite list_find_None, Forall_forall in Hname.
  destruct (validate_username (reg_username request)) as [[|] error]; [|done].
  destruct (check_password_strength (reg_password request))
    as [[|] errors]; [|done].
  cbn [negb]. destruct (hash_password _ _) as [h|e] eqn:Hhash; [|done].
  intros [= <- <-]. split_and!; try done. eauto.
Qed.

Lemma register_failing salt_drawn (request : RegisterRequest) db :
  (forall m, (register salt_drawn request db).1 <> Return m) ->
  (register salt_drawn request db).2 = db.
Proof.
  unfold register. repeat case_match; try done.
  intros Hnever. by destruct (Hnever {| message := message_registered |}).
Qed.

(** X7: an account that [register] has just created can log in: with the
    registered password, [login] by the username (when it is nobody's
    e-mail address) or by the e-mail address (when it is nobody's
    username) returns a token pair, for a salt and a digest of bcrypt's
    form and a refresh token not yet stored. *)
Theorem register_then_login salt_drawn (request : RegisterRequest) db m db' :
  register salt_drawn request db = (Return m, db') ->
  Passlib.salt_ok salt_drawn = true ->
  Passlib.checksum_ok
    (bcrypt_digest "$2b$" 12 salt_drawn (truncated (reg_password request)))
  = true ->
  forall name now j http,
    (name = reg_username request
     /\ (forall u, u ∈ users db -> email u <> name))
    \/ (name = reg_email request
        /\ (forall u, u ∈ users db -> username u <> name)) ->
    Db.token_stored
      (create_refresh_token now j (SubjectInt (next_user_id db)) None) db'
    = false ->
    exists pair db'',
      login now j
        {| login_username := name; login_password := reg_password request |}
        http db'
      = (Return pair, db'').
Proof.
  intros Hreg Hsalt Hchk name now j http Hname Hfresh.
  apply register_returns in Hreg
    as (Hemail & Huser & _ & _ & h & Hhash & ->).
  apply hash_password_Ok in Hhash as [Hnul ->].
  set (row := new_user (next_user_id db) request _).
  assert (Hfind : find_user name (Db.set_users db (users db ++ [row]))
                  = Some (length (users db), row)).
  { unfold find_user. cbn [users Db.set_users].
    rewrite list_find_app_r.
    - cbn. rewrite decide_True; [done|].
      destruct Hname as [[-> _] | [-> _]]; [by right | by left].
    - rewrite list_find_None, Forall_forall. intros u Hu [He | Hn].
      + destruct Hname as [[-> Hno] | [-> _]];
          [by apply (Hno u) | by apply (Hemail u)].
      + destruct Hname as [[-> _] | [-> Hno]];
          [by apply (Huser u) | by apply (Hno u)]. }
  eexists _, _. apply (login_right now j _ http _ (length (users db)) row).
  - exact Hfind.
  - reflexivity.
  - cbn [login_password]. unfold row. cbn [hashed_password new_user].
    by apply verify_own_hash.
  - exact Hfresh.
Qed.

Lemma fmap_insert_same {A B} (f : A -> B) (l : list A) (i : nat) (x x' : A) :
  l !! i = Some x -> f x' = f x -> f <$> <[i := x']> l = f <$> l.
Proof.
  intros Hi Hf. rewrite list_fmap_insert. apply list_insert_id.
  by rewrite list_lookup_fmap, Hi, Hf.
Qed.

Lemma elem_of_insert_inv {A} (l : list A) (i : nat) (x y : A) :
  y ∈ <[i := x]> l -> y = x \/ y ∈ l.
Proof.
  intros [k Hk]%list_elem_of_lookup.
  destruct (decide (i = k)) as [<- | Hne].
  - destruct (decide (i < length l)%nat) as [Hlt | Hge].
    + rewrite list_lookup_insert_eq in Hk by done. left. congruence.
    + rewrite list_insert_ge in Hk by lia. right.
      apply list_elem_of_lookup. eauto.
  - rewrite list_lookup_insert_ne in Hk by done. right.
    apply list_elem_of_lookup. eauto.
Qed.

(** Rewriting a row without touching its id, e-mail and username, and
    leaving its counter and lock consistent, keeps the accounts in
    order. *)
Lemma accounts_ok_insert db i u u' :
  accounts_ok db ->
  users db !! i = Some u ->
  user_id_ u' = user_id_ u -> email u' = email u ->
  username u' = username u ->
  (0 <= failed_login_attempts u'
   /\ (locked_until u' <> None -> 5 <= failed_login_attempts u')) ->
  accounts_ok (Db.set_users db (<[i := u']> (users db))).
Proof.
  intros [Hids Hemails Hnames Hvalid Hcount] Hi Hid Hemail Hname Hc.
  assert (Hu : u ∈ users db) by (apply list_elem_of_lookup; eauto).
  split; cbn [users Db.set_users].
  - by rewrite (fmap_insert_same user_id_ _ _ u).
  - by rewrite (fmap_insert_same email _ _ u).
  - by rewrite (fmap_insert_same username _ _ u).
  - intros v [-> | Hv]%elem_of_insert_inv; [|by apply Hvalid].
    rewrite Hname. by apply Hvalid.
  - intros v [-> | Hv]%elem_of_insert_inv; [done | by apply Hcount].
Qed.

Lemma accounts_ok_same_users db db' :
  users db' = users db -> accounts_ok db -> accounts_ok db'.
Proof. intros Heq [? ? ? ? ?]. split; by rewrite Heq. Qed.

Lemma max_bounds (l : list Z) (x : Z) : x ∈ l -> x <= foldr Z.max 0 l.
Proof.
  induction l as [|y l IH]; [by intros ?%elem_of_nil|].
  intros [-> | Hx]%elem_of_cons; cbn; [lia|]. specialize (IH Hx). lia.
Qed.

Lemma next_user_id_fresh db : next_user_id db ∉ (user_id_ <$> users db).
Proof.
  intros Hin. apply max_bounds in Hin. unfold next_user_id in Hin. lia.
Qed.

Lemma NoDup_snoc {A} (l : list A) (x : A) :
  NoDup l -> x ∉ l -> NoDup (l ++ [x]).
Proof.
  intros Hnd Hx. apply NoDup_app. split_and!; [done | | apply NoDup_singleton].
  intros y Hy ->%list_elem_of_singleton. done.
Qed.

Lemma register_accounts_ok salt_drawn (request : RegisterRequest) db :
  accounts_ok db -> accounts_ok (register salt_drawn request db).2.
Proof.
  intros Hok.
  destruct (register salt_drawn request db) as [r db'] eqn:Hreg.
  destruct r as [m | status detail | e]; cycle 1.
  - pose proof (register_failing salt_drawn request db) as Hsame.
    rewrite Hreg in Hsame. cbn in *. by rewrite Hsame.
  - pose proof (register_failing salt_drawn request db) as Hsame.
    rewrite Hreg in Hsame. cbn in *. by rewrite Hsame.
  - apply register_returns in Hreg
      as (Hemail & Huser & Hvalid & _ & h & _ & ->).
    destruct Hok as [Hids Hemails Hnames Hvalids Hcount].
    cbn [snd]. split; cbn [users Db.set_users]; rewrite ?fmap_app; cbn.
    + apply NoDup_snoc; [done | apply next_user_id_fresh].
    + apply NoDup_snoc; [done|].
      intros (u & Heq & Hu)%list_elem_of_fmap. by apply (Hemail u).
    + apply NoDup_snoc; [done|].
      intros (u & Heq & Hu)%list_elem_of_fmap. by apply (Huser u).
    + intros u [Hu | ->%list_elem_of_singleton]%elem_of_app;
        [by apply Hvalids | done].
    + intros u [Hu | ->%list_elem_of_singleton]%elem_of_app;
        [by apply Hcount | cbn; split; [lia | done]].
Qed.

Lemma login_accounts_ok now j req http db :
  accounts_ok db -> accounts_ok (login now j req http db).2.
Proof.
  intros Hok. unfold login.
  destruct (find_user _ db) as [[i u]|] eqn:Hfind; [|done].
  apply list_find_Some in Hfind as (Hi & _ & _).
  assert (Hu : u ∈ users db) by (apply list_elem_of_lookup; eauto).
  destruct (counters_ok db Hok u Hu) as [Hnn Hlock].
  destruct (is_locked u now); [done|].
  destruct (verify_password _ _) as [[|]|e]; [| |done].
  - destruct (Db.add_session _ _) as [db''|e] eqn:Hadd; [|done].
    apply add_session_Ok in Hadd as [_ ->]. cbn [snd].
    eapply accounts_ok_same_users;
      [| apply (accounts_ok_insert db i u (record_success u now))]; try done.
  - cbn [snd]. apply (accounts_ok_insert db i u); try done.
    unfold record_failure. cbn.
    destruct (5 <=? failed_login_attempts u + 1) eqn:Hle.
    + apply Z.leb_le in Hle. split; [lia | done].
    + split; [lia|]. intros Hl. specialize (Hlock Hl). lia.
Qed.

(** What a bearer that passes [get_current_active_user] stands for. *)
Lemma active_user_passes now credentials db i u :
  Dependencies.get_current_active_user now credentials db = Pass (i, u) ->
  exists p uid,
    verify_token credentials "access" now = Some p
    /\ py_int (sub p) = Some uid
    /\ users db !! i = Some u
    /\ user_id_ u = uid
    /\ user_is_active u = true
    /\ is_locked u now = false.
Proof.
  unfold Dependencies.get_current_active_user, Dependencies.get_current_user.
  destruct (verify_token credentials "access" now) as [p|]; [|done].
  destruct (py_int (sub p)) as [uid|] eqn:Hint; [|done].
  destruct (list_find _ (users db)) as [[k v]|] eqn:Hfind; [|done].
  apply list_find_Some in Hfind as (Hk & Hid & _).
  destruct (user_is_active v) eqn:Hactive; [|done]. cbn [negb].
  destruct (is_locked v now) eqn:Hlock; [done|].
  intros [= <- <-]. exists p, uid. split_and!; done.
Qed.

Lemma change_password_accounts_ok now salt_drawn credentials request db :
  accounts_ok db ->
  accounts_ok (change_password now salt_drawn credentials request db).2.
Proof.
  intros Hok. unfold change_password.
  destruct (Dependencies.get_current_active_user now credentials db)
    as [[i u] | status detail headers | e] eqn:Hdep; [|done|done].
  apply active_user_passes in Hdep as (p & uid & _ & _ & Hi & _).
  assert (Hu : u ∈ users db) by (apply list_elem_of_lookup; eauto).
  destruct (verify_password _ _) as [[|]|e]; [|done|done].
  destruct (check_password_strength _) as [[|] errors]; [|done].
  cbn [negb]. destruct (hash_password _ _) as [h|e]; [|done].
  cbn [snd]. apply (accounts_ok_insert db i u); try done.
  exact (counters_ok db Hok u Hu).
Qed.

Lemma delete_accounts_ok now credentials db :
  accounts_ok db -> accounts_ok (delete_my_account now credentials db).2.
Proof.
  intros [Hids Hemails Hnames Hvalid Hcount]. unfold delete_my_account.
  destruct (Dependencies.get_current_active_user now credentials db)
    as [[i u] | status detail headers | e]; [|done|done].
  cbn [snd]. split; cbn [users].
  - rewrite list_fmap_delete.
    eapply sublist_NoDup; [exact Hids | apply sublist_delete].
  - rewrite list_fmap_delete.
    eapply sublist_NoDup; [exact Hemails | apply sublist_delete].
  - rewrite list_fmap_delete.
    eapply sublist_NoDup; [exact Hnames | apply sublist_delete].
  - intros v Hv%list_elem_of_delete_inv. by apply Hvalid.
  - intros v Hv%list_elem_of_delete_inv. by apply Hcount.
Qed.

Lemma handle_accounts_ok db c : accounts_ok db -> accounts_ok (handle db c).
Proof.
  intros Hok. destruct c; cbn [handle].
  - by apply register_accounts_ok.
  - by apply login_accounts_ok.
  - eapply accounts_ok_same_users; [apply refresh_users | done].
  - eapply accounts_ok_same_users; [apply logout_users | done].
  - by apply change_password_accounts_ok.
  - by apply delete_accounts_ok.
Qed.

Lemma sublist_fmap_filter {A B} (f : A -> B) (P : A -> Prop)
    `{forall x, Decision (P x)} (l : list A) :
  sublist (f <$> filter P l) (f <$> l).
Proof.
  induction l as [|x l IH]; [done|]. rewrite filter_cons.
  destruct (decide (P x)); cbn; [by apply sublist_skip | by apply sublist_cons].
Qed.

Lemma handle_tokens_NoDup db c :
  NoDup (tokens (sessions db)) -> NoDup (tokens (sessions (handle db c))).
Proof.
  intros Hnd. destruct c; cbn [handle].
  - unfold register. by repeat case_match.
  - eapply evolves_NoDup; [apply login_evolves | done].
  - eapply evolves_NoDup; [apply refresh_evolves | done].
  - eapply evolves_NoDup; [apply logout_evolves | done].
  - unfold change_password. by repeat case_match.
  - unfold delete_my_account. repeat case_match; try done.
    cbn. eapply sublist_NoDup; [exact Hnd | apply sublist_fmap_filter].
Qed.

(** X8: in every state the API can reach from two empty tables, through
    any sequence of registrations, logins, refreshes, logouts, password
    changes and account deletions, the ids, the e-mail addresses and the
    usernames of the accounts are pairwise distinct, every username is one
    [validate_username] accepts, every failure counter is non-negative, a
    lock is only set on an account with at least five counted failures,
    and no two session rows carry the same refresh token. *)
Theorem served_accounts_ok db :
  served db -> accounts_ok db /\ NoDup (tokens (sessions db)).
Proof.
  induction 1 as [|db c _ [IHa IHt]].
  - split; [|apply NoDup_nil_2].
    split; cbn; try apply NoDup_nil_2; by intros u ?%elem_of_nil.
  - split; [by apply handle_accounts_ok | by apply handle_tokens_NoDup].
Qed.

Lemma hashed_parses salt_drawn password h :
  Passlib.salt_ok salt_drawn = true ->
  (forall s p, Passlib.checksum_ok (bcrypt_digest "$2b$" 12 s p) = true) ->
  hash_password salt_drawn password = Ok h ->
  Passlib.from_string h <> None.
Proof.
  intros Hsalt Hdigest [_ ->]%hash_password_Ok.
  by rewrite (from_string_formatted _ _ Hsalt (Hdigest _ _)).
Qed.

Lemma handle_hashes_parse db c :
  (forall s p, Passlib.checksum_ok (bcrypt_digest "$2b$" 12 s p) = true) ->
  salts_drawn_ok c -> hashes_parse db -> hashes_parse (handle db c).
Proof.
  intros Hdigest Hsalt Hok. destruct c; cbn [handle salts_drawn_ok] in *.
  - destruct (register salt_drawn request db) as [r db'] eqn:Hreg.
    destruct r as [m | status detail | e]; cycle 1.
    + pose proof (register_failing salt_drawn request db) as Hsame.
      rewrite Hreg in Hsame. cbn in *. by rewrite Hsame.
    + pose proof (register_failing salt_drawn request db) as Hsame.
      rewrite Hreg in Hsame. cbn in *. by rewrite Hsame.
    + apply register_returns in Hreg as (_ & _ & _ & _ & h & Hh & ->).
      cbn [snd]. intros u Hu. cbn [users Db.set_users] in Hu.
      apply elem_of_app in Hu as [Hu | ->%list_elem_of_singleton];
        [by apply Hok|].
      cbn. by eapply hashed_parses.
  - unfold login.
    destruct (find_user _ db) as [[i u]|] eqn:Hfind; [|done].
    apply list_find_Some in Hfind as (Hi & _ & _).
    assert (Hu : u ∈ users db) by (apply list_elem_of_lookup; eauto).
    destruct (is_locked u now); [done|].
    destruct (verify_password _ _) as [[|]|e]; [| |done].
    + destruct (Db.add_session _ _) as [db''|e] eqn:Hadd; [|done].
      apply add_session_Ok in Hadd as [_ ->]. cbn [snd].
      intros v Hv. cbn [users Db.set_users] in Hv.
      apply elem_of_insert_inv in Hv as [-> | Hv];
        [cbn; by apply Hok | by apply Hok].
    + cbn [snd]. intros v Hv. cbn [users Db.set_users] in Hv.
      apply elem_of_insert_inv in Hv as [-> | Hv];
        [cbn; by apply Hok | by apply Hok].
  - unfold hashes_parse. by rewrite refresh_users.
  - unfold hashes_parse. by rewrite logout_users.
  - unfold change_password.
    destruct (Dependencies.get_current_active_user now credentials db)
      as [[i u] | status detail headers | e]; [|done|done].
    destruct (verify_password _ _) as [[|]|e]; [|done|done].
    destruct (check_password_strength _) as [[|] errors]; [|done].
    cbn [negb]. destruct (hash_password _ _) as [h|e] eqn:Hh; [|done].
    cbn [snd]. intros v Hv. cbn [users Db.set_users] in Hv.
    apply elem_of_insert_inv in Hv as [-> | Hv]; [|by apply Hok].
    cbn. by eapply hashed_parses.
  - unfold delete_my_account.
    destruct (Dependencies.get_current_active_user now credentials db)
      as [[i u] | status detail headers | e]; [|done|done].
    cbn [snd]. intros v Hv. cbn [users] in Hv.
    apply list_elem_of_delete_inv in Hv. by apply Hok.
Qed.

Lemma verify_password_parsed plain hashed e :
  Passlib.from_string hashed <> None ->
  verify_password plain hashed = Raise e ->
  e = PasswordValueError /\ contains_nul (truncated plain) = true.
Proof.
  intros Hparsed. unfold verify_password, Passlib.verify.
  fold (truncated plain). rewrite (from_string_identify _ Hparsed).
  destruct (Passlib.from_string hashed); [|done].
  destruct (contains_nul (truncated plain)); [|done]. by intros [= <-].
Qed.

(** X9: the password hashes the API stores always parse: after any
    sequence of calls on two empty tables (the salts drawn and the digest
    being of bcrypt's form) every stored hash is one passlib parses, so a
    login never fails on a malformed or unrecognised hash; the only
    exceptions a login lets through are passlib's refusal of a password
    with a NUL among its first 72 bytes and the integrity error of a
    refresh token that is stored already. *)
Theorem stored_hashes_parse (calls : list call) :
  (forall s p, Passlib.checksum_ok (bcrypt_digest "$2b$" 12 s p) = true) ->
  Forall salts_drawn_ok calls ->
  hashes_parse (serve_all calls)
  /\ forall now j req http e,
      (login now j req http (serve_all calls)).1 = Uncaught e ->
      (e = PasswordValueError
       /\ contains_nul (truncated (login_password req)) = true)
      \/ e = IntegrityError.
Proof.
  intros Hdigest Hsalts.
  assert (Hparse : hashes_parse (serve_all calls)).
  { unfold serve_all. revert Hsalts.
    induction calls as [|c calls IH] using rev_ind; intros Hsalts.
    - by intros u ?%elem_of_nil.
    - apply Forall_app in Hsalts as [Hcalls Hc].
      rewrite Forall_singleton in Hc.
      rewrite foldl_app. cbn [foldl].
      apply handle_hashes_parse; [done | done | by apply IH]. }
  split; [done|].
  intros now j req http e. unfold login.
  destruct (find_user _ _) as [[i u]|] eqn:Hfind; [|done].
  apply list_find_Some in Hfind as (Hi & _ & _).
  assert (Hu : u ∈ users (serve_all calls))
    by (apply list_elem_of_lookup; eauto).
  destruct (is_locked u now); [done|].
  destruct (verify_password _ _) as [[|]|e'] eqn:Hpw; [|done|].
  - unfold Db.add_session. destruct (Db.token_stored _ _); [|done].
    intros [= <-]. by right.
  - intros [= <-]. left. by eapply verify_password_parsed; [apply Hparse|].
Qed.

End RegisterProperties.

(* ===================================================================== *)
(** ** Properties of api/user_routes.py                                   *)
(* ===================================================================== *)

Section UserRouteProperties.

Context {env : Environment} {ucd : UnicodeData}.
Implicit Types (db : Database) (u : User).

(** The answer of [refresh_token] is read off the sessions table alone. *)
Lemma refresh_reads_sessions now j t db1 db2 :
  sessions db1 = sessions db2 ->
  (refresh_token now j t db1).1 = (refresh_token now j t db2).1.
Proof.
  intros Heq. unfold refresh_token. rewrite Heq.
  destruct (verify_token t "refresh" now) as [p|]; [|done].
  destruct (list_find _ (sessions db2)) as [[i s]|]; [|done].
  destruct (py_int (sub p)) as [uid|]; [|done].
  unfold Db.add_session, Db.token_stored, Db.next_session_id, Db.set_sessions.
  cbn [sessions]. by destruct (bool_decide _).
Qed.

Lemma change_password_sessions now salt_drawn credentials request db :
  sessions (change_password now salt_drawn credentials request db).2
  = sessions db.
Proof. unfold change_password. by repeat case_match. Qed.

(** X10: [change_password] writes only when it returns its message, and
    then only the password hash of the caller's row: the caller had to
    pass [get_current_active_user] and to give the current password, the
    new password verifies against the stored hash from then on, the
    failure counter and lock of the row are as before, and the sessions
    table is never touched, so that every refresh token is answered after
    a password change exactly as before it. *)
Theorem change_password_effect now salt_drawn credentials
    (request : ChangePasswordRequest) db :
  Passlib.salt_ok salt_drawn = true ->
  Passlib.checksum_ok
    (bcrypt_digest "$2b$" 12 salt_drawn (truncated (new_password request)))
  = true ->
  let r := change_password now salt_drawn credentials request db in
  sessions r.2 = sessions db
  /\ (forall now' j t,
        (refresh_token now' j t r.2).1 = (refresh_token now' j t db).1)
  /\ ((forall m, r.1 <> Pass m) -> r.2 = db)
  /\ (forall m, r.1 = Pass m ->
      exists i u h,
        Dependencies.get_current_active_user now credentials db = Pass (i, u)
        /\ verify_password (current_password request) (hashed_password u)
           = Ok true
        /\ (check_password_strength (new_password request)).1 = true
        /\ users r.2 = <[i := set_hashed_password u h]> (users db)
        /\ verify_password (new_password request) h = Ok true
        /\ failed_login_attempts (set_hashed_password u h)
           = failed_login_attempts u
        /\ locked_until (set_hashed_password u h) = locked_until u).
Proof.
  intros Hsalt Hchk r.
  assert (Hsessions : sessions r.2 = sessions db)
    by apply change_password_sessions.
  split; [done|]. split; [intros; by apply refresh_reads_sessions|].
  subst r. unfold change_password.
  destruct (Dependencies.get_current_active_user now credentials db)
    as [[i u] | status detail headers | e]; [|by split|by split].
  destruct (verify_password (current_password request) _)
    as [[|]|e] eqn:Hcur; [|by split|by split].
  destruct (check_password_strength (new_password request))
    as [[|] errors]; [|by split].
  cbn [negb]. destruct (hash_password _ _) as [h|e] eqn:Hh; [|by split].
  split.
  - intros Hnever. by destruct (Hnever {| message := message_password_changed |}).
  - intros m _. exists i, u, h. split_and!; try done.
    apply hash_password_Ok in Hh as [Hnul ->]. by apply verify_own_hash.
Qed.




End UserRouteProperties.

(* ===================================================================== *)
(** ** More properties of the rate limiter                                *)
(* ===================================================================== *)

Section LimiterProperties.

Import RateLimiter.
Implicit Types (self : RateLimiter.t) (key : string) (now : Q).

Lemma is_allowed_window now key self :
  window (is_allowed now key self).2 = window self.
Proof. rewrite is_allowed_unfold. cbn zeta. by destruct (_ <=? _). Qed.

Lemma is_allowed_other now key key' self :
  key <> key' -> history (is_allowed now key self).2 key' = history self key'.
Proof.
  intros Hne. rewrite is_allowed_unfold. cbn zeta.
  destruct (_ <=? _); cbn; by rewrite ?history_store_ne.
Qed.

(** The answer for a key is read off the limit, the window and the history
    of that key. *)
Lemma is_allowed_answer now key self1 self2 :
  requests self1 = requests self2 ->
  window self1 = window self2 ->
  history self1 key = history self2 key ->
  (is_allowed now key self1).1 = (is_allowed now key self2).1.
Proof.
  intros Hr Hw Hh. rewrite !is_allowed_unfold. cbn zeta.
  unfold recent. rewrite Hr, Hw, Hh. by destruct (_ <=? _).
Qed.

(** X12: the windows of different keys are independent: a call for one key
    leaves the history of every other key, the limit and the window as
    they were, so the answer any other key gets afterwards is the answer
    it would have got without that call. *)
Theorem limiter_keys_independent now key key' self :
  key <> key' ->
  history (is_allowed now key self).2 key' = history self key'
  /\ requests (is_allowed now key self).2 = requests self
  /\ window (is_allowed now key self).2 = window self
  /\ forall now',
      (is_allowed now' key' (is_allowed now key self).2).1
      = (is_allowed now' key' self).1.
Proof.
  intros Hne.
  pose proof (is_allowed_other now key key' self Hne) as Hh.
  pose proof (is_allowed_requests now key self) as Hr.
  pose proof (is_allowed_window now key self) as Hw.
  split_and!; try done. intros now'. by apply is_allowed_answer.
Qed.

Lemma history_init n w key : history (init n w) key = [].
Proof. unfold history, init. cbn. by rewrite lookup_empty. Qed.

Lemma apply_op_bounded self op :
  (forall key, Z.of_nat (length (history self key)) <= Z.max 0 (requests self)) ->
  forall key,
    Z.of_nat (length (history (apply_op self op) key))
    <= Z.max 0 (requests (apply_op self op)).
Proof.
  intros Hb key. destruct op as [now k | k]; cbn [apply_op].
  - rewrite is_allowed_requests.
    destruct (decide (k = key)) as [-> | Hne];
      [|by rewrite is_allowed_other].
    rewrite is_allowed_history.
    pose proof (length_filter
                  (fun x => (now - x < inject_Z (window self))%Q)
                  (history self key)) as Hshort.
    fold (recent now key self) in Hshort.
    destruct ((is_allowed now key self).1.1) eqn:Hok.
    + apply is_allowed_admits in Hok. rewrite length_app. cbn. lia.
    + specialize (Hb key). lia.
  - unfold reset. destruct (decide (k = key)) as [-> | Hne].
    + rewrite history_store. cbn. lia.
    + rewrite history_store_ne by done. apply Hb.
Qed.

Lemma apply_op_requests self op : requests (apply_op self op) = requests self.
Proof. destruct op; cbn [apply_op]; [apply is_allowed_requests | done]. Qed.

Lemma apply_op_window self op : window (apply_op self op) = window self.
Proof. destruct op; cbn [apply_op]; [apply is_allowed_window | done]. Qed.

(** X13: a limiter never holds more timestamps for a key than its limit:
    after any sequence of calls and resets on a fresh limiter, for any keys
    and at any clock readings, every history has at most [requests]
    entries (none when the limit is negative), the limit and the window are
    the configured ones, and the [remaining] any further call reports lies
    between 0 and the limit. *)
Theorem limiter_history_bounded (n w : Z) (ops : list limiter_op) :
  let self := foldl apply_op (init n w) ops in
  requests self = n /\ window self = w
  /\ (forall key, Z.of_nat (length (history self key)) <= Z.max 0 n)
  /\ (forall now key,
        0 <= remaining (is_allowed now key self).1.2 <= Z.max 0 n).
Proof.
  cbn zeta.
  assert (Hinv : requests (foldl apply_op (init n w) ops) = n
                 /\ window (foldl apply_op (init n w) ops) = w
                 /\ forall key,
                     Z.of_nat (length (history (foldl apply_op (init n w) ops)
                                         key))
                     <= Z.max 0 n).
  { induction ops as [|op ops IH] using rev_ind.
    - cbn [foldl]. split_and!; [done | done |]. intros key.
      rewrite history_init. cbn. lia.
    - destruct IH as (Hr & Hw & Hb). rewrite foldl_app. cbn [foldl].
      rewrite apply_op_requests, apply_op_window. split_and!; [done | done |].
      intros key. rewrite <- Hr at 2.
      rewrite <- (apply_op_requests _ op). apply apply_op_bounded.
      intros k. rewrite Hr. apply Hb. }
  destruct Hinv as (Hr & Hw & Hb). split_and!; try done.
  intros now key. rewrite is_allowed_unfold. cbn zeta. rewrite Hr.
  destruct (_ <=? _) eqn:Hle; cbn.
  - apply Z.leb_le in Hle. lia.
  - apply Z.leb_gt in Hle. lia.
Qed.

(** X14: [reset] empties the history of its key and of no other: the next
    call for the key is admitted exactly when the limit is at least 1, and
    then reports [remaining = limit - 1] and leaves its own timestamp as
    the whole history. *)
Theorem reset_clears_key key self :
  history (reset key self) key = []
  /\ (forall key', key <> key' -> history (reset key self) key' = history self key')
  /\ forall now,
      ((is_allowed now key (reset key self)).1.1 = true <-> 0 < requests self)
      /\ (0 < requests self ->
          remaining (is_allowed now key (reset key self)).1.2
          = requests self - 1
          /\ history (is_allowed now key (reset key self)).2 key = [now]).
Proof.
  assert (Hempty : history (reset key self) key = [])
    by apply history_store.
  assert (Hrecent : forall now, recent now key (reset key self) = []).
  { intros now. unfold recent. by rewrite Hempty. }
  split_and!; [done | intros; by apply history_store_ne |].
  intros now. split.
  - rewrite is_allowed_admits, Hrecent. done.
  - intros Hpos. rewrite is_allowed_history, is_allowed_unfold. cbn zeta.
    rewrite Hrecent. cbn [length Z.of_nat reset store requests].
    rewrite (proj2 (Z.leb_gt _ _)) by lia. cbn. split; [lia | done].
Qed.

(** X15: the two degenerate configurations.  With a limit of zero or less
    every call is denied, reports [remaining = 0] and records nothing;
    with a window of zero or less and a limit of at least 1, a call made
    when no recorded timestamp lies in the future is always admitted,
    since every entry is pruned first. *)
Theorem limiter_degenerate now key self :
  (requests self <= 0 ->
   (is_allowed now key self).1.1 = false
   /\ remaining (is_allowed now key self).1.2 = 0
   /\ history (is_allowed now key self).2 key = recent now key self)
  /\ (window self <= 0 -> 0 < requests self ->
      (forall x, x ∈ history self key -> (x <= now)%Q) ->
      (is_allowed now key self).1.1 = true
      /\ history (is_allowed now key self).2 key = [now]).
Proof.
  split.
  - intros Hzero. rewrite is_allowed_history, is_allowed_unfold. cbn zeta.
    rewrite (proj2 (Z.leb_le _ _)) by lia. cbn. split_and!; [done | lia | done].
  - intros Hw Hpos Hpast.
    assert (Hnone : recent now key self = []).
    { apply recent_none. intros x Hx. specialize (Hpast x Hx).
      assert (inject_Z (window self) <= 0)%Q
        by (change 0%Q with (inject_Z 0); by rewrite <- Zle_Qle).
      lra. }
    assert (Hok : (is_allowed now key self).1.1 = true).
    { apply is_allowed_admits. rewrite Hnone. cbn. lia. }
    split; [done|]. by rewrite is_allowed_history, Hok, Hnone.
Qed.

End LimiterProperties.

(* ===================================================================== *)
(** ** Properties of the [rate_limit] dependency                          *)
(* ===================================================================== *)

Section RateLimitProperties.

Import RateLimiter RateLimit.

Lemma byte_classes (b : ascii) :
  (blank_byte b = true ->
   PyStr.isspace (String b EmptyString) = true
   /\ Utf8.is_cont b = false /\ Ascii.eqb b ","%char = false)
  /\ (visible_byte b = true ->
      PyStr.isspace (String b EmptyString) = false
      /\ Utf8.is_cont b = false /\ Ascii.eqb b ","%char = false).
Proof.
  destruct b as [[] [] [] [] [] [] [] []];
    (split; intros H; [by vm_compute in H |- * | by vm_compute in H |- *]).
Qed.

Lemma before_app (sep : ascii) (a rest : string) :
  forallb (fun b => negb (Ascii.eqb b sep)) (list_ascii_of_string a) = true ->
  PyStr.before sep (a +:+ String sep rest) = a
  /\ PyStr.before sep a = a.
Proof.
  induction a as [|b a IH]; intros H.
  - change (EmptyString +:+ String sep rest) with (String sep rest).
    cbn [PyStr.before]. by rewrite Ascii.eqb_refl.
  - cbn in H. apply andb_true_iff in H as [Hb Ha].
    apply negb_true_iff in Hb. destruct (IH Ha) as [IH1 IH2].
    change (String b a +:+ String sep rest)
      with (String b (a +:+ String sep rest)).
    cbn [PyStr.before]. by rewrite Hb, IH1, IH2.
Qed.

Lemma concat_singletons (l : list ascii) :
  PyStr.concat ((fun b => String b EmptyString) <$> l) = string_of_list_ascii l.
Proof. induction l as [|b l IH]; [done|]. cbn. by rewrite <- IH. Qed.

Lemma lstrip_blank (pad rest : list ascii) :
  forallb blank_byte pad = true ->
  match rest with [] => True | b :: _ => visible_byte b = true end ->
  PyStr.lstrip_chars ((fun b => String b EmptyString) <$> (pad ++ rest))
  = (fun b => String b EmptyString) <$> rest.
Proof.
  intros Hpad Hrest. induction pad as [|b pad IH].
  - destruct rest as [|b rest]; [done|]. cbn.
    by rewrite (proj1 (proj2 (byte_classes b) Hrest)).
  - cbn in Hpad. apply andb_true_iff in Hpad as [Hb Hpad]. cbn.
    rewrite (proj1 (proj1 (byte_classes b) Hb)). by apply IH.
Qed.

Lemma forallb_weaken {A} (f g : A -> bool) (l : list A) :
  (forall x, f x = true -> g x = true) ->
  forallb f l = true -> forallb g l = true.
Proof. rewrite !forallb_forall. auto. Qed.

Lemma fmap_rev {A B} (f : A -> B) (l : list A) :
  f <$> rev l = rev (f <$> l).
Proof.
  induction l as [|x l IH]; [done|]. cbn. by rewrite fmap_app, IH.
Qed.

Lemma strip_padded (pad1 entry pad2 : string) :
  all_blank pad1 = true -> all_visible entry = true -> all_blank pad2 = true ->
  PyStr.strip (pad1 +:+ entry +:+ pad2) = entry.
Proof.
  unfold all_blank, all_visible. intros H1 He H2.
  assert (Hplain : forallb (fun b => negb (Utf8.is_cont b))
                     (list_ascii_of_string (pad1 +:+ entry +:+ pad2)) = true).
  { rewrite !list_ascii_app, !forallb_app.
    repeat (apply andb_true_iff; split).
    - eapply forallb_weaken; [|exact H1]. intros b Hb.
      by rewrite (proj1 (proj2 (proj1 (byte_classes b) Hb))).
    - eapply forallb_weaken; [|exact He]. intros b Hb.
      by rewrite (proj1 (proj2 (proj2 (byte_classes b) Hb))).
    - eapply forallb_weaken; [|exact H2]. intros b Hb.
      by rewrite (proj1 (proj2 (proj1 (byte_classes b) Hb))). }
  unfold PyStr.strip. rewrite (chars_plain _ Hplain), !list_ascii_app.
  destruct (list_ascii_of_string entry) as [|b l] eqn:Hl.
  - destruct entry; [|done]. cbn [app].
    rewrite <- (app_nil_r (_ ++ _)), lstrip_blank; [done | | done].
    rewrite forallb_app. by apply andb_true_iff.
  - rewrite lstrip_blank; [|done|].
    2:{ cbn in He. by apply andb_true_iff in He as [? _]. }
    rewrite <- fmap_rev, rev_app_distr, lstrip_blank.
    + by rewrite <- fmap_rev, rev_involutive, concat_singletons, <- Hl,
        string_of_list_ascii_of_string.
    + rewrite forallb_forall in H2 |- *. intros x Hx. apply H2.
      by apply in_rev.
    + assert (Hrev : forallb visible_byte (rev (b :: l)) = true).
      { rewrite forallb_forall in He |- *. intros x Hx. apply He.
        by apply in_rev. }
      destruct (rev (b :: l)) as [|x r]; [done|].
      cbn in Hrev. by apply andb_true_iff in Hrev as [? _].
Qed.

Lemma padded_no_comma (pad1 entry pad2 : string) :
  all_blank pad1 = true -> all_visible entry = true -> all_blank pad2 = true ->
  forallb (fun b => negb (Ascii.eqb b ","%char))
    (list_ascii_of_string (pad1 +:+ entry +:+ pad2)) = true.
Proof.
  unfold all_blank, all_visible. intros H1 He H2.
  rewrite !list_ascii_app, !forallb_app.
  repeat (apply andb_true_iff; split).
  - eapply forallb_weaken; [|exact H1]. intros b Hb.
    by rewrite (proj2 (proj2 (proj1 (byte_classes b) Hb))).
  - eapply forallb_weaken; [|exact He]. intros b Hb.
    by rewrite (proj2 (proj2 (proj2 (byte_classes b) Hb))).
  - eapply forallb_weaken; [|exact H2]. intros b Hb.
    by rewrite (proj2 (proj2 (proj1 (byte_classes b) Hb))).
Qed.

(** X16: what [rate_limit] answers.  The limiter is left as [is_allowed]
    leaves it for the key of the request; the request passes exactly when
    fewer than [requests] timestamps of that key are less than [window]
    seconds old; otherwise it is refused with status 429, the fixed
    message and the four headers, where the remaining count is "0", the
    reset time is the second of the call plus the window, and
    [Retry-After] is that reset time minus the second at which the headers
    are built (the window itself when both clock readings fall in one
    second); a refused request is not recorded. *)
Theorem rate_limit_answers (now later : Q) (request : PeerRequest)
    (limiter : RateLimiter.t) :
  let key := client_key request in
  let r := rate_limit now later request limiter in
  r.2 = (is_allowed now key limiter).2
  /\ (r.1 = Pass tt
      <-> Z.of_nat (length (recent now key limiter)) < requests limiter)
  /\ (r.1 <> Pass tt ->
      r.1 = Deny 429 detail_too_many
              [("X-RateLimit-Limit", py_str (requests limiter));
               ("X-RateLimit-Remaining", "0");
               ("X-RateLimit-Reset",
                py_str (int_of_float now + window limiter));
               ("Retry-After",
                py_str (int_of_float now + window limiter
                        - int_of_float later))]
      /\ history r.2 key = recent now key limiter)
  /\ (int_of_float later = int_of_float now ->
      int_of_float now + window limiter - int_of_float later
      = window limiter).
Proof.
  cbn zeta. unfold rate_limit.
  pose proof (is_allowed_history now (client_key request) limiter) as Hhist.
  rewrite is_allowed_unfold in Hhist |- *. cbn zeta in Hhist |- *.
  destruct (_ <=? _) eqn:Hle; cbn [negb fst snd] in Hhist |- *.
  - apply Z.leb_le in Hle. split_and!; [done | | | lia].
    + split; [done | lia].
    + intros _. split; [|done]. unfold headers_of.
      cbn [limit remaining reset_at].
      by replace (Z.max 0 _) with 0 by lia.
  - apply Z.leb_gt in Hle. split_and!; [done | done | done | lia].
Qed.

(** X17: the key [rate_limit] counts under.  When [X-Forwarded-For] holds
    a first entry of visible characters, padded by white space or not and
    followed by a comma and further entries or not, the key is that entry
    and the peer address is not looked at; without the header, or with an
    empty one, the key is the peer address, or "unknown" when the request
    has no client. *)
Theorem forwarded_header_first_entry (host : option string)
    (pad1 entry pad2 rest : string) :
  all_blank pad1 = true -> all_visible entry = true -> all_blank pad2 = true ->
  entry <> EmptyString ->
  client_key {| peer_host := host;
                forwarded_for :=
                  Some ((pad1 +:+ entry +:+ pad2) +:+ String ","%char rest) |}
  = entry
  /\ client_key {| peer_host := host;
                   forwarded_for := Some (pad1 +:+ entry +:+ pad2) |}
     = entry
  /\ client_key {| peer_host := host; forwarded_for := Some EmptyString |}
     = default "unknown" host
  /\ client_key {| peer_host := host; forwarded_for := None |}
     = default "unknown" host.
Proof.
  intros H1 He H2 Hne.
  pose proof (padded_no_comma pad1 entry pad2 H1 He H2) as Hcomma.
  destruct (before_app ","%char _ rest Hcomma) as [Hcut Hwhole].
  assert (Hfull : forall tail,
             String.eqb ((pad1 +:+ entry +:+ pad2) +:+ tail) "" = false).
  { intros tail. apply String.eqb_neq. intros Hempty.
    apply (f_equal list_ascii_of_string) in Hempty.
    rewrite !list_ascii_app in Hempty. cbn in Hempty.
    apply app_eq_nil in Hempty as [Hempty _].
    apply app_eq_nil in Hempty as [_ Hempty].
    apply app_eq_nil in Hempty as [Hempty _].
    destruct entry; [done | discriminate]. }
  unfold client_key. cbn [forwarded_for peer_host]. split_and!.
  - by rewrite Hfull, Hcut, strip_padded.
  - pose proof (Hfull EmptyString) as Hfull'.
    assert (Hnil : forall s : string, s +:+ EmptyString = s).
    { intros s. induction s as [|b s IH]; [done|].
      change (String b s +:+ EmptyString) with (String b (s +:+ EmptyString)).
      by rewrite IH. }
    rewrite Hnil in Hfull'. by rewrite Hfull', Hwhole, strip_padded.
  - done.
  - done.
Qed.

End RateLimitProperties.

(* ===================================================================== *)
(** ** More properties of login, refresh and logout                       *)
(* ===================================================================== *)

Section SessionLifecycle.

Context {env : Environment}.

(** A logout that finds its session leaves the token spent. *)
Lemma logout_spends now t db :
  NoDup (tokens (sessions db)) ->
  t ∈ tokens (sessions db) ->
  spent t (sessions (logout now t db).2).
Proof.
  intros Hnd Hin. unfold logout.
  destruct (list_find _ (sessions db)) as [[i s]|] eqn:Hfind.
  - apply list_find_Some in Hfind as (Hi & Ht & _). cbn [snd sessions Db.set_sessions].
    split.
    + unfold tokens. by rewrite (tokens_revoke _ _ _ _ Hi).
    + intros s' Hs' Hst. apply list_elem_of_lookup in Hs' as [k Hk].
      destruct (decide (i = k)) as [<- | Hne].
      * rewrite list_lookup_insert_eq in Hk by by eapply lookup_lt_Some.
        by simplify_eq.
      * rewrite list_lookup_insert_ne in Hk by done.
        exfalso. apply Hne.
        apply (NoDup_lookup (tokens (sessions db)) i k t Hnd);
          unfold tokens; rewrite list_lookup_fmap.
        -- by rewrite Hi; cbn; rewrite Ht.
        -- by rewrite Hk; cbn; rewrite Hst.
  - exfalso. rewrite list_find_None, Forall_forall in Hfind.
    unfold tokens in Hin. apply list_elem_of_fmap in Hin as (s & -> & Hs).
    by apply (Hfind s Hs).
Qed.

(** X18: a logout ends its session for good: once the server has logged
    out the refresh token of a stored session, every later refresh with
    that token is refused and writes nothing, whatever logins, refreshes
    and logouts are served in between: [SessionExpired] while the token
    still verifies, [InvalidToken] once it has expired. *)
Theorem logout_ends_session db now t es :
  reachable db ->
  t ∈ tokens (sessions db) ->
  let db' := run (logout now t db).2 es in
  forall now' j,
    refresh_token now' j t db'
    = (match verify_token t "refresh" now' with
       | Some _ => SessionExpired
       | None => InvalidToken
       end, db').
Proof.
  intros Hreach Hin db' now' j. apply refresh_spent. unfold db'.
  apply run_spent, logout_spends; [by apply reachable_NoDup | done].
Qed.

Lemma decode_ignore_length (bs pending : list ascii) (need : nat) :
  (length (Utf8.decode_ignore pending need bs)
   <= length pending + length bs)%nat.
Proof.
  revert pending need. induction bs as [|b rest IH]; intros pending need.
  - cbn. lia.
  - cbn [Utf8.decode_ignore length].
    assert (Hlead :
      (length (match Utf8.lead_len b with
               | Some 1%nat => b :: Utf8.decode_ignore [] 0 rest
               | Some (S k') => Utf8.decode_ignore [b] k' rest
               | _ => Utf8.decode_ignore [] 0 rest
               end) <= S (length rest))%nat).
    { destruct (Utf8.lead_len b) as [[|[|k]]|].
      - specialize (IH [] 0%nat). cbn in IH. lia.
      - specialize (IH [] 0%nat). cbn in IH |- *. lia.
      - specialize (IH [b] (S k)). cbn in IH. lia.
      - specialize (IH [] 0%nat). cbn in IH. lia. }
    destruct need as [|k]; [lia|].
    destruct (Utf8.is_cont b); [|lia].
    destruct k as [|k].
    + rewrite length_app, length_rev. cbn [length].
      specialize (IH [] 0%nat). cbn in IH. lia.
    + specialize (IH (b :: pending) (S k)). cbn [length] in IH. lia.
Qed.

Lemma truncated_tail (p q : string) :
  (72 <= String.length p)%nat -> truncated (p +:+ q) = truncated p.
Proof.
  intros Hlen. unfold truncated, Utf8.truncate.
  rewrite list_ascii_app, take_app_le; [done|].
  by rewrite length_list_ascii.
Qed.

Lemma length_string_of_list (l : list ascii) :
  String.length (string_of_list_ascii l) = length l.
Proof. induction l as [|b l IH]; [done|]. cbn. by rewrite IH. Qed.

(** X19: only the first 72 bytes of a password count.  The string handed
    to bcrypt is never longer than 72 bytes, and for a password [p] of 72
    bytes or more, the password [p] followed by any tail [q] hashes to
    what [p] hashes to, verifies against a hash exactly as [p] does, and
    is answered by [login] exactly as [p] is, with the same writes. *)
Theorem password_tail_ignored (p q : string) :
  (72 <= String.length p)%nat ->
  (String.length (truncated (p +:+ q)) <= 72)%nat
  /\ (forall salt_drawn,
        hash_password salt_drawn (p +:+ q) = hash_password salt_drawn p)
  /\ (forall hashed,
        verify_password (p +:+ q) hashed = verify_password p hashed)
  /\ (forall now j name http db,
        login now j {| login_username := name; login_password := p +:+ q |}
          http db
        = login now j {| login_username := name; login_password := p |}
            http db).
Proof.
  intros Hlen. pose proof (truncated_tail p q Hlen) as Htail. split_and!.
  - unfold truncated, Utf8.truncate. rewrite length_string_of_list.
    pose proof (decode_ignore_length
                  (take 72 (list_ascii_of_string (p +:+ q))) [] 0) as Hle.
    rewrite length_take in Hle. cbn [length] in Hle. lia.
  - intros salt_drawn. unfold hash_password.
    fold (truncated (p +:+ q)) (truncated p). by rewrite Htail.
  - intros hashed. by apply verify_password_truncates.
  - intros now j name http db. unfold login.
    cbn [login_username login_password].
    destruct (find_user name db) as [[i u]|]; [|done].
    destruct (is_locked u now); [done|].
    by rewrite (verify_password_truncates (p +:+ q) p).
Qed.

(** X20: what a login may write.  Whatever its outcome, [login] leaves
    every stored session as it is and appends one exactly when it returns
    tokens; it keeps the number of accounts, leaves every row that the
    given name does not match untouched, and in any row changes at most
    the failure counter, the lock and the time of the last login. *)
Theorem login_frame now j req http db :
  let out := login now j req http db in
  (exists added,
      sessions out.2 = sessions db ++ added
      /\ (length added <= 1)%nat
      /\ (added <> [] <-> exists pair, out.1 = Return pair))
  /\ length (users out.2) = length (users db)
  /\ (forall k u,
        users db !! k = Some u ->
        exists u',
          users out.2 !! k = Some u'
          /\ user_id_ u' = user_id_ u /\ email u' = email u
          /\ username u' = username u
          /\ hashed_password u' = hashed_password u
          /\ full_name u' = full_name u
          /\ user_is_active u' = user_is_active u
          /\ is_verified u' = is_verified u /\ role u' = role u
          /\ (email u <> login_username req ->
              username u <> login_username req -> u' = u)).
Proof.
  cbn zeta. unfold login.
  assert (Hsame :
    (exists added : list Session,
        sessions db = sessions db ++ added /\ (length added <= 1)%nat
        /\ (added <> [] <-> False))
    /\ length (users db) = length (users db)
    /\ (forall k u,
          users db !! k = Some u ->
          exists u',
            users db !! k = Some u'
            /\ user_id_ u' = user_id_ u /\ email u' = email u
            /\ username u' = username u
            /\ hashed_password u' = hashed_password u
            /\ full_name u' = full_name u
            /\ user_is_active u' = user_is_active u
            /\ is_verified u' = is_verified u /\ role u' = role u
            /\ (email u <> login_username req ->
                username u <> login_username req -> u' = u))).
  { split_and!; [|done|].
    - exists []. rewrite app_nil_r. split_and!; [done | cbn; lia | done].
    - intros k u Hk. exists u. by split_and!. }
  assert (Hnone : forall (r : response TokenPair),
             (forall pair, r <> Return pair) ->
             (False <-> exists pair, r = Return pair)).
  { intros r Hr. split; [done|]. intros [pair Hp]. by apply (Hr pair). }
  assert (Hrows : forall i v v',
    users db !! i = Some v ->
    (email v = login_username req \/ username v = login_username req) ->
    user_id_ v' = user_id_ v -> email v' = email v ->
    username v' = username v -> hashed_password v' = hashed_password v ->
    full_name v' = full_name v -> user_is_active v' = user_is_active v ->
    is_verified v' = is_verified v -> role v' = role v ->
    forall k u,
      users db !! k = Some u ->
      exists u',
        <[i := v']> (users db) !! k = Some u'
        /\ user_id_ u' = user_id_ u /\ email u' = email u
        /\ username u' = username u
        /\ hashed_password u' = hashed_password u
        /\ full_name u' = full_name u
        /\ user_is_active u' = user_is_active u
        /\ is_verified u' = is_verified u /\ role u' = role u
        /\ (email u <> login_username req ->
            username u <> login_username req -> u' = u)).
  { intros i v v' Hi Hmatch ? ? ? ? ? ? ? ? k u Hk.
    destruct (decide (i = k)) as [<- | Hne].
    - exists v'. rewrite list_lookup_insert_eq by by eapply lookup_lt_Some.
      simplify_eq. split_and!; try done.
      intros He Hu. by destruct Hmatch.
    - exists u. rewrite list_lookup_insert_ne by done. by split_and!. }
  destruct Hsame as (Hs & Hl & Hu).
  destruct (find_user _ db) as [[i v]|] eqn:Hfind.
  2:{ cbn [fst snd]. split_and!; [|done|done].
      destruct Hs as (added & ? & ? & ?). exists added. split_and!; try done.
      etrans; [done|]. by apply Hnone. }
  apply list_find_Some in Hfind as (Hi & Hmatch & _).
  destruct (is_locked v now).
  { cbn [fst snd]. split_and!; [|done|done].
    destruct Hs as (added & ? & ? & ?). exists added. split_and!; try done.
    etrans; [done|]. by apply Hnone. }
  destruct (verify_password _ _) as [[|]|e].
  - unfold Db.add_session, Db.token_stored.
    destruct (bool_decide _).
    + cbn [fst snd]. split_and!; [|done|done].
      destruct Hs as (added & ? & ? & ?). exists added. split_and!; try done.
      etrans; [done|]. by apply Hnone.
    + cbn [fst snd users sessions Db.set_users]. split_and!.
      * eexists [_]. split_and!; [done | cbn; lia |].
        split; [by eauto | done].
      * by rewrite length_insert.
      * by apply (Hrows i v).
  - cbn [fst snd users sessions Db.set_users]. split_and!.
    + destruct Hs as (added & ? & ? & ?). exists added. split_and!; try done.
      etrans; [done|]. by apply Hnone.
    + by rewrite length_insert.
    + by apply (Hrows i v).
  - cbn [fst snd]. split_and!; [|done|done].
    destruct Hs as (added & ? & ? & ?). exists added. split_and!; try done.
    etrans; [done|]. by apply Hnone.
Qed.

(** X21: login and refresh compose.  The refresh token a login returns
    is accepted by [refresh_token] until the second of its expiry is over,
    whatever has been written to the accounts in between (the refresh does
    not read them): the call rotates the session of the login, keeping its
    client address and user agent for the new row, returns a pair for the
    same account and leaves the accounts alone.  If the token drawn for
    the new pair is already stored, the unique index refuses the commit
    and nothing is written. *)
Theorem login_then_refresh now j req http db pair db1 rows now' j' :
  login now j req http db = (Return pair, db1) ->
  timegm now'
  <= timegm (now + timedelta_days (refresh_token_expire_days settings)) ->
  let db2 := Db.set_users db1 rows in
  exists i u old,
    find_user (login_username req) db = Some (i, u)
    /\ sessions db1 = sessions db ++ [old]
    /\ refresh_token_ old = refresh_token_of pair
    /\ client_ip old = client_host http
    /\ user_agent old = header_user_agent http
    /\ let pair' :=
         create_token_pair now' j' (SubjectStr (py_str (user_id_ u))) in
       (refresh_token_of pair' ∉ tokens (sessions db1) ->
        refresh_token now' j' (refresh_token_of pair) db2
        = (Return pair',
           {| users := rows;
              sessions :=
                (sessions db ++ [revoke old now'])
                ++ [new_session now' (user_id_ u) (refresh_token_of pair')
                      (client_host http) (header_user_agent http)
                      (Db.next_session_id db1)] |}))
       /\ (refresh_token_of pair' ∈ tokens (sessions db1) ->
           refresh_token now' j' (refresh_token_of pair) db2
           = (Uncaught IntegrityError, db2)).
Proof.
  intros Hlogin Hexp db2.
  apply login_returns in Hlogin
    as (i & u & Hfind & _ & _ & -> & Hfresh & _ & Hsessions).
  eexists i, u, _. split; [done|]. split; [exact Hsessions|].
  split; [done|]. split; [done|]. split; [done|]. cbn zeta.
  set (t := refresh_token_of (create_token_pair now j (SubjectInt (user_id_ u))))
    in *.
  set (old := new_session now (user_id_ u) t (client_host http)
                (header_user_agent http) (Db.next_session_id db)) in *.
  assert (Hverify : exists p,
             verify_token t "refresh" now' = Some p
             /\ sub p = py_str (user_id_ u)).
  { unfold t, create_token_pair. cbn [refresh_token_of].
    rewrite create_refresh_token_encode.
    match goal with
    | |- context [Jose.encode jws_sign ?p _ _] =>
        pose proof (verify_own p now') as Hown; cbn [type exp] in Hown
    end.
    rewrite Hown. cbn [lifetime].
    rewrite (proj2 (Z.ltb_ge _ _)) by done. by eexists. }
  destruct Hverify as (p & Hverify & Hsub).
  assert (Hrow : list_find
                   (fun s => refresh_token_ s = t /\ is_active s = true)
                   (sessions db2)
                 = Some (length (sessions db), old)).
  { unfold db2. cbn [sessions Db.set_users]. rewrite Hsessions.
    apply list_find_Some. split; [|split].
    - by rewrite lookup_app_r, Nat.sub_diag by lia.
    - done.
    - intros k s Hk Hlt [Hs _]. apply Hfresh.
      rewrite lookup_app_l in Hk by done.
      unfold tokens. apply list_elem_of_fmap. exists s. split; [done|].
      apply list_elem_of_lookup. eauto. }
  assert (Hrevoked : <[length (sessions db) := revoke old now']> (sessions db2)
                     = sessions db ++ [revoke old now']).
  { unfold db2. cbn [sessions Db.set_users]. rewrite Hsessions.
    rewrite insert_app_r_alt, Nat.sub_diag by lia. done. }
  assert (Htokens : refresh_token_ <$> (sessions db ++ [revoke old now'])
                    = tokens (sessions db1)).
  { unfold tokens. by rewrite Hsessions, !fmap_app. }
  assert (Hnext : Db.next_session_id
                    (Db.set_sessions db2 (sessions db ++ [revoke old now']))
                  = Db.next_session_id db1).
  { unfold Db.next_session_id. cbn [sessions Db.set_sessions].
    by rewrite Hsessions, !fmap_app. }
  unfold refresh_token. rewrite Hverify, Hrow, Hsub, py_int_py_str, Hrevoked.
  unfold Db.add_session, Db.token_stored.
  cbn [sessions Db.set_sessions refresh_token_ new_session].
  rewrite Htokens. split; intros Hin.
  - rewrite bool_decide_eq_false_2 by done.
    rewrite Hnext. done.
  - by rewrite bool_decide_eq_true_2.
Qed.

End SessionLifecycle.

(* ===================================================================== *)
(** ** Privileges                                                         *)
(* ===================================================================== *)

Section PrivilegeProperties.

Context {env : Environment} {ucd : UnicodeData}.

Lemma login_unprivileged now j req http db :
  Forall unprivileged (users db) ->
  Forall unprivileged (users (login now j req http db).2).
Proof.
  intros Hall. unfold login.
  destruct (find_user _ db) as [[i v]|] eqn:Hfind; [|done].
  apply list_find_Some in Hfind as (Hi & _ & _).
  assert (Hv : unprivileged v).
  { rewrite Forall_forall in Hall. apply Hall, list_elem_of_lookup. eauto. }
  destruct (is_locked v now); [done|].
  destruct (verify_password _ _) as [[|]|e]; [| |done].
  - unfold Db.add_session. destruct (Db.token_stored _ _); [done|].
    cbn [snd users Db.set_users]. by apply Forall_insert.
  - cbn [snd users Db.set_users]. by apply Forall_insert.
Qed.

Lemma handle_unprivileged db c :
  Forall unprivileged (users db) ->
  Forall unprivileged (users (handle db c)).
Proof.
  intros Hall. destruct c; cbn [handle].
  - unfold register. repeat case_match; try done.
    cbn [snd users Db.set_users]. apply Forall_app. split; [done|].
    by apply Forall_singleton.
  - by apply login_unprivileged.
  - by rewrite refresh_users.
  - by rewrite logout_users.
  - unfold change_password.
    destruct (Dependencies.get_current_active_user _ _ _) as [[i u]| |] eqn:Hwho;
      [|done|done].
    apply active_user_passes in Hwho as (_ & _ & _ & _ & Hi & _ & _ & _).
    assert (Hu : unprivileged u).
    { rewrite Forall_forall in Hall. apply Hall, list_elem_of_lookup. eauto. }
    repeat case_match; try done.
    cbn [snd users Db.set_users]. by apply Forall_insert.
  - unfold delete_my_account.
    destruct (Dependencies.get_current_active_user _ _ _) as [[i u]| |];
      [|done|done].
    cbn [snd users]. by apply Forall_delete.
Qed.

(** X22: the endpoints grant nothing.  In every state reached from two
    empty tables through register, login, refresh, logout, password change
    and account deletion, each account is an ordinary user, not verified
    and active; so [require_admin] and [require_verified] let no request
    through, and answer a bearer whom [get_current_active_user] accepts
    with 403 and their own message. *)
Theorem served_grants_nothing db :
  served db ->
  Forall unprivileged (users db)
  /\ forall now credentials,
      (forall row, Dependencies.require_admin now credentials db <> Pass row)
      /\ (forall row,
            Dependencies.require_verified now credentials db <> Pass row)
      /\ (forall row,
            Dependencies.get_current_active_user now credentials db = Pass row ->
            Dependencies.require_admin now credentials db
            = Deny 403 Dependencies.detail_admin []
            /\ Dependencies.require_verified now credentials db
               = Deny 403 Dependencies.detail_unverified []).
Proof.
  intros Hserved.
  assert (Hall : Forall unprivileged (users db)).
  { induction Hserved as [|db c _ IH]; [by apply Forall_nil|].
    by apply handle_unprivileged. }
  split; [done|]. intros now credentials.
  assert (Hdenied : forall row,
             Dependencies.get_current_active_user now credentials db = Pass row ->
             Dependencies.require_admin now credentials db
             = Deny 403 Dependencies.detail_admin []
             /\ Dependencies.require_verified now credentials db
                = Deny 403 Dependencies.detail_unverified []).
  { intros [i u] Hwho.
    pose proof Hwho as Hrow.
    apply active_user_passes in Hrow as (_ & _ & _ & _ & Hi & _ & _ & _).
    assert (Hu : unprivileged u).
    { rewrite Forall_forall in Hall. apply Hall, list_elem_of_lookup. eauto. }
    destruct Hu as (Hrole & Hverified & _).
    unfold Dependencies.require_admin, Dependencies.require_verified.
    by rewrite Hwho, Hrole, Hverified. }
  split_and!; [| |done].
  - intros row Hpass. unfold Dependencies.require_admin in Hpass.
    destruct (Dependencies.get_current_active_user now credentials db)
      as [[i u]| |] eqn:Hwho; [|done|done].
    destruct (Hdenied _ eq_refl) as [Hadmin _].
    unfold Dependencies.require_admin in Hadmin. rewrite Hwho in Hadmin.
    congruence.
  - intros row Hpass. unfold Dependencies.require_verified in Hpass.
    destruct (Dependencies.get_current_active_user now credentials db)
      as [[i u]| |] eqn:Hwho; [|done|done].
    destruct (Hdenied _ eq_refl) as [_ Hverified].
    unfold Dependencies.require_verified in Hverified. rewrite Hwho in Hverified.
    congruence.
Qed.

End PrivilegeProperties.

(* ===================================================================== *)
(** ** Properties of [sanitize_filename]                                  *)
(* ===================================================================== *)

Section FilenameProperties.

Import Filename.

Lemma cleaned_byte (c : ascii) :
  let c1 := if Ascii.eqb c "/" then "_"%char else c in
  let c2 := if Ascii.eqb c1 "092" then "_"%char else c1 in
  dangerous c2 = false -> unsafe c2 = false.
Proof.
  destruct c as [[] [] [] [] [] [] [] []]; by vm_compute.
Qed.

Lemma safe_cleaned (s : string) :
  safe (remove_dangerous (replace "092" "_" (replace "/" "_" s))) = true.
Proof.
  induction s as [|c s IH]; [done|].
  cbn [replace remove_dangerous].
  pose proof (cleaned_byte c) as Hc. cbn zeta in Hc.
  destruct (dangerous _) eqn:Hd; [done|].
  unfold safe in *. cbn [list_ascii_of_string forallb].
  by rewrite (Hc eq_refl), IH.
Qed.

Lemma safe_app (a b : string) : safe (a +:+ b) = safe a && safe b.
Proof. unfold safe. by rewrite list_ascii_app, forallb_app. Qed.

Lemma safe_lstrip_dots (s : string) :
  safe s = true -> safe (lstrip_dots s) = true.
Proof.
  induction s as [|c s IH]; [done|]. intros Hs. cbn [lstrip_dots].
  destruct (Ascii.eqb c "."); [|done]. apply IH.
  unfold safe in *. cbn in Hs. by apply andb_true_iff in Hs as [_ ?].
Qed.

Lemma lstrip_dots_start (s : string) : starts_with_dot (lstrip_dots s) = false.
Proof.
  induction s as [|c s IH]; [done|]. cbn [lstrip_dots].
  destruct (Ascii.eqb c ".") eqn:Hc; [done|]. by cbn.
Qed.

Lemma rsplit_dot_spec (s name ext : string) :
  rsplit_dot s = Some (name, ext) -> s = name +:+ String "." ext.
Proof.
  revert name. induction s as [|c s IH]; intros name; [done|].
  cbn [rsplit_dot]. destruct (rsplit_dot s) as [[n e]|].
  - intros [= <- <-]. by rewrite (IH n eq_refl) at 1.
  - destruct (Ascii.eqb c ".") eqn:Hc; [|done].
    apply Ascii.eqb_eq in Hc as ->. by intros [= <- <-].
Qed.

Lemma scan_concat (s : string) :
  (PyStr.scan s).1 +:+ PyStr.concat (PyStr.scan s).2 = s.
Proof.
  induction s as [|b s IH]; [done|]. cbn [PyStr.scan].
  destruct (PyStr.scan s) as [conts cs]. cbn [fst snd] in IH.
  destruct (Utf8.is_cont b); cbn [fst snd PyStr.concat].
  - change (String b conts +:+ PyStr.concat cs)
      with (String b (conts +:+ PyStr.concat cs)). by rewrite IH.
  - change (EmptyString +:+ (String b conts +:+ PyStr.concat cs))
      with (String b (conts +:+ PyStr.concat cs)). by rewrite IH.
Qed.

(** The characters of a string, put together again. *)
Lemma concat_chars (s : string) : PyStr.concat (PyStr.chars s) = s.
Proof.
  pose proof (scan_concat s) as H. unfold PyStr.chars.
  destruct (PyStr.scan s) as [conts cs]. cbn [fst snd] in H.
  destruct conts; [done|]. done.
Qed.

Lemma chars_head (b : ascii) (s : string) :
  PyStr.chars (String b s)
  = String b (PyStr.scan s).1 :: (PyStr.scan s).2.
Proof.
  unfold PyStr.chars. cbn [PyStr.scan].
  destruct (PyStr.scan s) as [conts cs]. by destruct (Utf8.is_cont b).
Qed.

Lemma safe_concat_take (n : nat) : forall cs,
  safe (PyStr.concat cs) = true -> safe (PyStr.concat (take n cs)) = true.
Proof.
  induction n as [|n IH]; intros [|c cs] H; try done.
  cbn [take PyStr.concat] in *. rewrite safe_app in *.
  apply andb_true_iff in H as [Hc Hcs]. by rewrite Hc, IH.
Qed.

Lemma safe_prefix (n : nat) (s : string) :
  safe s = true -> safe (prefix n s) = true.
Proof.
  intros H. unfold prefix. apply safe_concat_take. by rewrite concat_chars.
Qed.

Lemma prefix_head (n : nat) (b : ascii) (s : string) :
  exists tail, prefix (S n) (String b s) = String b tail.
Proof.
  unfold prefix. rewrite chars_head. cbn [take PyStr.concat]. by eexists.
Qed.

Lemma replace_absent (a b : ascii) (s : string) :
  forallb (fun c => negb (Ascii.eqb c a)) (list_ascii_of_string s) = true ->
  replace a b s = s.
Proof.
  induction s as [|c s IH]; [done|]. cbn. intros [Hc Hs]%andb_true_iff.
  apply negb_true_iff in Hc. by rewrite Hc, IH.
Qed.

Lemma remove_dangerous_absent (s : string) :
  forallb (fun c => negb (dangerous c)) (list_ascii_of_string s) = true ->
  remove_dangerous s = s.
Proof.
  induction s as [|c s IH]; [done|]. cbn. intros [Hc Hs]%andb_true_iff.
  apply negb_true_iff in Hc. by rewrite Hc, IH.
Qed.

(** X23: a name [sanitize_filename] returns is never empty, holds no
    slash, no backslash and none of the seven characters it removes, and
    does not begin with a dot, whatever it was given; and a name that is
    already of that form and not longer than 200 characters is returned
    as it is. *)
Theorem sanitize_filename_safe (filename : string) :
  let r := sanitize_filename filename in
  r <> EmptyString
  /\ safe r = true
  /\ starts_with_dot r = false
  /\ (filename <> EmptyString -> safe filename = true ->
      starts_with_dot filename = false -> PyStr.len filename <= 200 ->
      r = filename).
Proof.
  cbn zeta. unfold sanitize_filename.
  destruct (String.eqb filename "") eqn:Hempty.
  { apply String.eqb_eq in Hempty as ->. by split_and!. }
  apply String.eqb_neq in Hempty.
  pose proof (safe_cleaned filename) as Hclean.
  set (cleaned := remove_dangerous (replace "092" "_" (replace "/" "_" filename)))
    in *.
  pose proof (safe_lstrip_dots cleaned Hclean) as Hsafe.
  pose proof (lstrip_dots_start cleaned) as Hstart.
  assert (Hsame : safe filename = true -> starts_with_dot filename = false ->
                  lstrip_dots cleaned = filename).
  { intros Hs Hd. unfold cleaned.
    assert (Hbytes : forall (P : ascii -> bool),
               (forall c, unsafe c = false -> P c = true) ->
               forallb P (list_ascii_of_string filename) = true).
    { intros P HP. unfold safe in Hs. rewrite forallb_forall in Hs |- *.
      intros c Hc. apply HP. apply negb_true_iff. by apply Hs. }
    rewrite (replace_absent "/" "_" filename).
    2:{ apply Hbytes. intros c Hc. unfold unsafe in Hc.
        apply orb_false_iff in Hc as [Hc _]. apply orb_false_iff in Hc as [Hc _].
        by rewrite Hc. }
    rewrite (replace_absent "092" "_" filename).
    2:{ apply Hbytes. intros c Hc. unfold unsafe in Hc.
        apply orb_false_iff in Hc as [Hc _]. apply orb_false_iff in Hc as [_ Hc].
        by rewrite Hc. }
    rewrite (remove_dangerous_absent filename).
    2:{ apply Hbytes. intros c Hc. unfold unsafe in Hc.
        apply orb_false_iff in Hc as [_ Hc]. by rewrite Hc. }
    destruct filename as [|c rest]; [done|]. cbn in Hd |- *. by rewrite Hd. }
  remember (lstrip_dots cleaned) as stripped eqn:Hstripped.
  assert (Hfinal : forall s : string,
             (if String.eqb s "" then "unnamed" else s) <> EmptyString).
  { intros s. destruct (String.eqb s "") eqn:He; [done|].
    by apply String.eqb_neq in He. }
  destruct (200 <? PyStr.len stripped) eqn:Hlong.
  - apply Z.ltb_lt in Hlong.
    destruct stripped as [|b rest]; [by vm_compute in Hlong|].
    cbn [starts_with_dot] in Hstart.
    assert (Hparts : exists name' ext,
               match rsplit_dot (String b rest) with
               | Some parts => parts
               | None => (String b rest, EmptyString)
               end = (String b name', ext)
               /\ safe (String b name') = true
               /\ safe ext = true).
    { destruct (rsplit_dot (String b rest)) as [[name ext]|] eqn:Hsplit.
      - apply rsplit_dot_spec in Hsplit.
        destruct name as [|b' name'].
        + change (EmptyString +:+ String "." ext) with (String "." ext)
            in Hsplit.
          injection Hsplit as -> _. done.
        + change (String b' name' +:+ String "." ext)
            with (String b' (name' +:+ String "." ext)) in Hsplit.
          injection Hsplit as <- Hrest. exists name', ext.
          split; [done|].
          assert (Hall : safe (String b name' +:+ String "." ext) = true).
          { change (String b name' +:+ String "." ext)
              with (String b (name' +:+ String "." ext)). by rewrite <- Hrest. }
          rewrite safe_app in Hall. apply andb_true_iff in Hall as [Hn He].
          split; [done|]. unfold safe in He |- *. cbn in He.
          by apply andb_true_iff in He as [_ ?].
      - by exists rest, EmptyString. }
    destruct Hparts as (name' & ext & -> & Hname & Hext).
    destruct (prefix_head 194 b name') as [tail Htail].
    pose proof (safe_prefix 195 _ Hname) as Hprefix.
    rewrite Htail in Hprefix |- *.
    change (String b tail +:+ ?x) with (String b (tail +:+ x)).
    cbn [String.eqb]. split_and!.
    + done.
    + change (String b (tail +:+ ?x)) with (String b tail +:+ x).
      rewrite safe_app, Hprefix. destruct (String.eqb ext ""); [done|].
      change ("." +:+ ext) with (String "." ext).
      unfold safe in Hext |- *. cbn. by rewrite Hext.
    + done.
    + intros _ Hs Hd Hlen. rewrite <- (Hsame Hs Hd) in Hlen. lia.
  - split_and!.
    + apply Hfinal.
    + by destruct (String.eqb stripped "").
    + by destruct (String.eqb stripped "").
    + intros _ Hs Hd _. rewrite (Hsame Hs Hd).
      destruct (String.eqb filename "") eqn:He; [|done].
      by apply String.eqb_eq in He.
Qed.

End FilenameProperties.

(* ===================================================================== *)
(** ** The further properties on the sample deployments                   *)
(* ===================================================================== *)

Section MoreScenarios.

Import Sample Fixture.

Lemma all_bcrypt64_keep (s : string) :
  Passlib.all_bcrypt64 (keep_bcrypt64 s) = true.
Proof.
  induction s as [|c s IH]; [done|]. cbn [keep_bcrypt64].
  destruct (Passlib.bcrypt64_char c) eqn:Hc; [|done].
  cbn [Passlib.all_bcrypt64]. by rewrite Hc, IH.
Qed.

Lemma all_bcrypt64_app (a b : string) :
  Passlib.all_bcrypt64 a = true -> Passlib.all_bcrypt64 b = true ->
  Passlib.all_bcrypt64 (a +:+ b) = true.
Proof.
  intros Ha Hb. induction a as [|c a IH]; [done|].
  cbn [Passlib.all_bcrypt64] in Ha. apply andb_true_iff in Ha as [Hc Ha].
  change (String c a +:+ b) with (String c (a +:+ b)).
  cbn [Passlib.all_bcrypt64]. by rewrite Hc, IH.
Qed.

Lemma all_bcrypt64_take (n : nat) : forall s,
  Passlib.all_bcrypt64 s = true ->
  Passlib.all_bcrypt64 (Passlib.string_take n s) = true.
Proof.
  induction n as [|n IH]; intros [|c s] H; try done.
  cbn [Passlib.all_bcrypt64] in H. apply andb_true_iff in H as [Hc Hs].
  cbn [Passlib.string_take Passlib.all_bcrypt64]. by rewrite Hc, IH.
Qed.

Lemma length_string_take (n : nat) : forall s,
  (n <= String.length s)%nat ->
  String.length (Passlib.string_take n s) = n.
Proof.
  induction n as [|n IH]; intros [|c s] H; try done.
  - cbn in H. lia.
  - cbn [Passlib.string_take String.length]. rewrite IH; [done|].
    cbn in H. lia.
Qed.

Lemma length_string_app (a b : string) :
  String.length (a +:+ b) = (String.length a + String.length b)%nat.
Proof.
  induction a as [|c a IH]; [done|].
  change (String c a +:+ b) with (String c (a +:+ b)). cbn. by rewrite IH.
Qed.

(** The stand-in digest always has the form of a bcrypt checksum. *)
Lemma digest_checksum_ok (ident : string) (rounds : Z) (s p : string) :
  Passlib.checksum_ok (digest ident rounds s p) = true.
Proof.
  unfold Passlib.checksum_ok, digest. apply andb_true_iff. split.
  - apply Nat.eqb_eq, length_string_take.
    rewrite !length_string_app. cbn. lia.
  - apply all_bcrypt64_take.
    repeat apply all_bcrypt64_app; try apply all_bcrypt64_keep. reflexivity.
Qed.

Lemma login_tokens_authenticate_witness :
  NoDup (user_id_ <$> users db0)
  /\ login (env := env) 0 "j1" good browser db0 = (Return alice_pair, db1)
  /\ exists i u,
      find_user "alice" db0 = Some (i, u)
      /\ users db1 !! i = Some (record_success u 0)
      /\ (forall now',
            timegm now'
            <= timegm (0 + timedelta_minutes
                             (access_token_expire_minutes
                                (settings (Environment := env)))) ->
            Dependencies.get_current_user (env := env) now'
              (access_token alice_pair) db1
            = Pass (i, record_success u 0)
            /\ (user_is_active u = true ->
                Dependencies.get_current_active_user (env := env) now'
                  (access_token alice_pair) db1
                = Pass (i, record_success u 0)))
      /\ (forall now' db'',
            Dependencies.get_current_user (env := env) now'
              (refresh_token_of alice_pair) db''
            = Deny 401 Dependencies.detail_bad_token
                Dependencies.www_authenticate).
Proof.
  assert (H1 : NoDup (user_id_ <$> users db0)).
  { cbn. apply NoDup_singleton. }
  assert (H2 : login (env := env) 0 "j1" good browser db0
               = (Return alice_pair, db1)) by reflexivity.
  split; [exact H1|]. split; [exact H2|].
  exact (login_tokens_authenticate (env := env) 0 "j1" good browser db0
           alice_pair db1 H1 H2).
Defined.

Lemma register_then_login_witness :
  register (env := env) (ucd := ascii_only) salt2 bob_request empty_db
  = (Return {| message := message_registered |}, db_bob)
  /\ Passlib.salt_ok salt2 = true
  /\ exists pair db'',
      login (env := env) 0 "j1" bob_login browser db_bob
      = (Return pair, db'').
Proof.
  assert (H1 : register (env := env) (ucd := ascii_only) salt2 bob_request
                 empty_db
               = (Return {| message := message_registered |}, db_bob))
    by reflexivity.
  split; [exact H1|]. split; [reflexivity|].
  apply (register_then_login (env := env) (ucd := ascii_only)
           salt2 bob_request empty_db _ db_bob H1);
    [reflexivity | reflexivity | | reflexivity].
  left. split; [reflexivity|]. intros u Hu. inversion Hu.
Defined.

Lemma served_accounts_ok_witness :
  served (env := env) (ucd := ascii_only) db_bob_in
  /\ accounts_ok (ucd := ascii_only) db_bob_in
  /\ NoDup (tokens db_bob_in.(sessions)).
Proof.
  assert (H : served (env := env) (ucd := ascii_only) db_bob_in).
  { change db_bob_in
      with (handle (env := env) (ucd := ascii_only)
              (handle (env := env) (ucd := ascii_only) empty_db
                 (CallRegister salt2 bob_request))
              (CallLogin 0 "j1" bob_login browser)).
    apply served_call, served_call, served_start. }
  split; [exact H|].
  exact (served_accounts_ok (env := env) (ucd := ascii_only) db_bob_in H).
Defined.

Lemma stored_hashes_parse_witness :
  (forall s p,
      Passlib.checksum_ok
        (bcrypt_digest (Environment := env) "$2b$" 12 s p) = true)
  /\ Forall salts_drawn_ok bob_calls
  /\ hashes_parse (serve_all (env := env) (ucd := ascii_only) bob_calls)
  /\ forall now j req http e,
      (login (env := env) now j req http
         (serve_all (env := env) (ucd := ascii_only) bob_calls)).1
      = Uncaught e ->
      (e = PasswordValueError
       /\ contains_nul (truncated (login_password req)) = true)
      \/ e = IntegrityError.
Proof.
  assert (H1 : forall s p,
             Passlib.checksum_ok
               (bcrypt_digest (Environment := env) "$2b$" 12 s p) = true)
    by (intros s p; apply digest_checksum_ok).
  assert (H2 : Forall salts_drawn_ok bob_calls).
  { repeat constructor. }
  split; [exact H1|]. split; [exact H2|].
  exact (stored_hashes_parse (env := env) (ucd := ascii_only) bob_calls H1 H2).
Defined.

Lemma change_password_effect_witness :
  Passlib.salt_ok salt1 = true
  /\ (change_password (env := env) (ucd := ascii_only) (5 * second) salt1
        (access_token bob_pair) bob_change db_bob_in).1
     = Pass {| message := message_password_changed |}
  /\ sessions (change_password (env := env) (ucd := ascii_only) (5 * second)
                 salt1 (access_token bob_pair) bob_change db_bob_in).2
     = sessions db_bob_in
  /\ exists i u h,
      users (change_password (env := env) (ucd := ascii_only) (5 * second)
               salt1 (access_token bob_pair) bob_change db_bob_in).2
      = <[i := set_hashed_password u h]> (users db_bob_in)
      /\ verify_password (env := env) (new_password bob_change) h = Ok true.
Proof.
  destruct (change_password_effect (env := env) (ucd := ascii_only)
              (5 * second) salt1 (access_token bob_pair) bob_change db_bob_in)
    as (Hsessions & _ & _ & Hpass); [reflexivity | reflexivity |].
  assert (Hreturned :
            (change_password (env := env) (ucd := ascii_only) (5 * second)
               salt1 (access_token bob_pair) bob_change db_bob_in).1
            = Pass {| message := message_password_changed |})
    by reflexivity.
  split; [reflexivity|]. split; [exact Hreturned|]. split; [exact Hsessions|].
  destruct (Hpass _ Hreturned) as (i & u & h & _ & _ & _ & Hrows & Hnew & _).
  exists i, u, h. split; [exact Hrows | exact Hnew].
Defined.


Lemma limiter_keys_independent_witness :
  "10.0.0.7" <> "10.0.0.8"
  /\ RateLimiter.history
       (RateLimiter.is_allowed 0 "10.0.0.7" (RateLimiter.init 1 60)).2
       "10.0.0.8"
     = RateLimiter.history (RateLimiter.init 1 60) "10.0.0.8"
  /\ forall now',
      (RateLimiter.is_allowed now' "10.0.0.8"
         (RateLimiter.is_allowed 0 "10.0.0.7" (RateLimiter.init 1 60)).2).1
      = (RateLimiter.is_allowed now' "10.0.0.8" (RateLimiter.init 1 60)).1.
Proof.
  assert (Hne : "10.0.0.7" <> "10.0.0.8") by discriminate.
  destruct (limiter_keys_independent 0 "10.0.0.7" "10.0.0.8"
              (RateLimiter.init 1 60) Hne) as (Hhist & _ & _ & Hanswer).
  split; [exact Hne|]. split; [exact Hhist | exact Hanswer].
Defined.

Lemma forwarded_header_first_entry_witness :
  all_blank " " = true /\ all_visible "203.0.113.9" = true
  /\ RateLimit.client_key
       {| peer_host := Some "10.0.0.7";
          forwarded_for := Some " 203.0.113.9, 10.0.0.1" |}
     = "203.0.113.9"
  /\ RateLimit.client_key
       {| peer_host := Some "10.0.0.7"; forwarded_for := None |}
     = "10.0.0.7".
Proof.
  destruct (forwarded_header_first_entry (Some "10.0.0.7")
              " " "203.0.113.9" "" " 10.0.0.1")
    as (Hfirst & _ & _ & Hpeer);
    [reflexivity | reflexivity | reflexivity | discriminate |].
  split; [reflexivity|]. split; [reflexivity|].
  split; [exact Hfirst | exact Hpeer].
Defined.

Lemma logout_ends_session_witness :
  reachable (env := env) db1
  /\ t1 ∈ tokens (sessions db1)
  /\ forall now' j,
      refresh_token (env := env) now' j t1
        (run (env := env) db_out [EvLogin (6 * second) "j3" good browser])
      = (match verify_token (env := env) t1 "refresh" now' with
         | Some _ => SessionExpired
         | None => InvalidToken
         end,
         run (env := env) db_out [EvLogin (6 * second) "j3" good browser]).
Proof.
  assert (H1 : reachable (env := env) db1) by apply db1_reachable.
  assert (H2 : t1 ∈ tokens (sessions db1)).
  { change (tokens (sessions db1)) with [t1]. apply list_elem_of_here. }
  split; [exact H1|]. split; [exact H2|].
  exact (logout_ends_session (env := env) db1 (5 * second) t1
           [EvLogin (6 * second) "j3" good browser] H1 H2).
Defined.

Lemma password_tail_ignored_witness :
  (72 <= String.length long_password)%nat
  /\ (String.length (truncated (long_password +:+ "tail")) <= 72)%nat
  /\ (forall hashed,
        verify_password (env := env) (long_password +:+ "tail") hashed
        = verify_password (env := env) long_password hashed).
Proof.
  assert (Hlen : (72 <= String.length long_password)%nat)
    by (vm_compute; lia).
  destruct (password_tail_ignored (env := env) long_password "tail" Hlen)
    as (Hshort & _ & Hverify & _).
  split; [exact Hlen|]. split; [exact Hshort | exact Hverify].
Defined.

Lemma login_then_refresh_witness :
  login (env := env) 0 "j1" good browser db0 = (Return alice_pair, db1)
  /\ timegm (10 * second)
     <= timegm (0 + timedelta_days
                      (refresh_token_expire_days
                         (settings (Environment := env))))
  /\ exists pair' db',
      refresh_token (env := env) (10 * second) "j2"
        (refresh_token_of alice_pair) (Db.set_users db1 [alice_locked])
      = (Return pair', db')
      /\ users db' = [alice_locked].
Proof.
  assert (H1 : login (env := env) 0 "j1" good browser db0
               = (Return alice_pair, db1)) by reflexivity.
  assert (H2 : timegm (10 * second)
               <= timegm (0 + timedelta_days
                                (refresh_token_expire_days
                                   (settings (Environment := env)))))
    by (vm_compute; discriminate).
  split; [exact H1|]. split; [exact H2|].
  destruct (login_then_refresh (env := env) 0 "j1" good browser db0
              alice_pair db1 [alice_locked] (10 * second) "j2" H1 H2)
    as (i & u & old & _ & _ & _ & _ & _ & Hfresh & _).
  eexists _, _. split; [apply Hfresh|reflexivity].
  vm_compute. intros Hin. inversion Hin as [| ? ? ? Hrest]; inversion Hrest.
Defined.

Lemma served_grants_nothing_witness :
  served (env := env) (ucd := ascii_only) db_bob
  /\ Forall unprivileged (users db_bob)
  /\ Dependencies.require_admin (env := env) (5 * second)
       (access_token bob_pair) db_bob
     = Deny 403 Dependencies.detail_admin []
  /\ forall now credentials row,
      Dependencies.require_verified (env := env) now credentials db_bob
      <> Pass row.
Proof.
  assert (H : served (env := env) (ucd := ascii_only) db_bob).
  { change db_bob
      with (handle (env := env) (ucd := ascii_only) empty_db
              (CallRegister salt2 bob_request)).
    apply served_call, served_start. }
  destruct (served_grants_nothing (env := env) (ucd := ascii_only) db_bob H)
    as (Hall & Hguards).
  split; [exact H|]. split; [exact Hall|]. split.
  - destruct (Hguards (5 * second) (access_token bob_pair)) as (_ & _ & Hdeny).
    eapply Hdeny. reflexivity.
  - intros now credentials.
    destruct (Hguards now credentials) as (_ & Hnever & _). exact Hnever.
Defined.

End MoreScenarios.

